(** * gata-data-prep: label rebalancing and dataset construction

    A shallow embedding of [prepare.py], [src/dataset.py], [src/utils.py],
    [src/db.py] and [src/tickets.py], with the pandas, scikit-learn and
    Python built-in operations they call modelled after their documented
    behaviour.

    Conventions of the model:
    - a Python value that can sit in the [label] column is an [int] or a
      [str]; a [str] is a Rocq [string] with one character per code point
      (code points below 256);
    - a raised exception is the [Raise] case of [result];
    - a [float] is the rational it denotes, and what the program computes
      on floats (the shares of [find_threshold], the product of [split], the
      seconds of a [datetime]) is rounded to binary64 as IEEE 754 has it
      ([Float64]); only the shares inside scikit-learn's [_approximate_mode]
      are kept as fractions;
    - a [datetime] is a number of microseconds since the epoch, in UTC;
      arithmetic on it raises [OverflowError] outside the years 1 to 9999;
    - [int] on a [str] follows CPython 3.11 and later, with the limit of
      4300 digits the interpreter starts with;
    - numpy's [RandomState] is an interface ([RandomState]) with the laws of
      a shuffle and of a draw without replacement; nothing depends on the
      particular stream that seed 42 produces;
    - logging is left out; the calls evaluated only for a log line are kept
      where they can raise;
    - the Data API service is a state machine that answers each statement;
      the two loops of the client take a number of steps they may use, and
      return [None] when it does not suffice. *)

From Stdlib Require Import List ZArith QArith Qround Qpower String Ascii Bool Arith.
From Stdlib Require Import Lia Lqa Permutation Sorted.
From Stdlib Require Import DecimalString DecimalNat.
From Stdlib Require PrimFloat SpecFloat FloatOps Uint63.
Import ListNotations.

Set Implicit Arguments.

(* ================================================================== *)
(** * Python values, exceptions and built-ins *)

Module Py.

Inductive exn : Type :=
| TypeError
| ValueError
| IndexError
| KeyError
| ConnectionError
| ClientError
| OverflowError.

Inductive result (A : Type) : Type :=
| Ok (a : A)
| Raise (e : exn).

Arguments Ok {A} a.
Arguments Raise {A} e.

Definition bind {A B} (c : result A) (k : A -> result B) : result B :=
  match c with
  | Ok a => k a
  | Raise e => Raise e
  end.

Fixpoint mapM {A B} (f : A -> result B) (l : list A) : result (list B) :=
  match l with
  | [] => Ok []
  | x :: t =>
      bind (f x) (fun y => bind (mapM f t) (fun ys => Ok (y :: ys)))
  end.

(** A label cell: either an [int] or a [str]. *)
Inductive value : Type :=
| VInt (z : Z)
| VStr (s : string).

(** [a == b]: an [int] never equals a [str]. *)
Definition value_eqb (a b : value) : bool :=
  match a, b with
  | VInt x, VInt y => Z.eqb x y
  | VStr x, VStr y => String.eqb x y
  | _, _ => false
  end.

(** [x in l] *)
Definition py_in (x : value) (l : list value) : bool :=
  existsb (value_eqb x) l.

Definition same_kind (a b : value) : bool :=
  match a, b with
  | VInt _, VInt _ => true
  | VStr _, VStr _ => true
  | _, _ => false
  end.

(** All cells are [int] or all are [str]: the comparisons of a sort are
    then defined. *)
Definition uniform (l : list value) : bool :=
  match l with
  | [] => true
  | x :: t => forallb (same_kind x) t
  end.

(** [a <= b] where it is defined (same kind); between an [int] and a [str]
    Python raises, and the sorts below never get that far. *)
Definition value_leb (a b : value) : bool :=
  match a, b with
  | VInt x, VInt y => Z.leb x y
  | VStr x, VStr y => String.leb x y
  | VInt _, VStr _ => true
  | VStr _, VInt _ => false
  end.

Definition value_ltb (a b : value) : bool :=
  value_leb a b && negb (value_eqb a b).

(** A stable sort by a key. *)
Fixpoint insert_by {A} (leb : A -> A -> bool) (x : A) (l : list A) : list A :=
  match l with
  | [] => [x]
  | y :: t => if leb x y then x :: y :: t else y :: insert_by leb x t
  end.

Fixpoint sort_by {A} (leb : A -> A -> bool) (l : list A) : list A :=
  match l with
  | [] => []
  | x :: t => insert_by leb x (sort_by leb t)
  end.

(** [sorted(l)] on rows compared by [key]: [TypeError] as soon as two
    kinds have to be compared. *)
Definition py_sort_by {A} (key : A -> value) (l : list A) : result (list A) :=
  if uniform (map key l)
  then Ok (sort_by (fun a b => value_leb (key a) (key b)) l)
  else Raise TypeError.

(** [list.sort()] *)
Definition py_sort (l : list value) : result (list value) :=
  py_sort_by (fun v => v) l.

(** ** [str.isdigit] *)

Definition ascii_in (lo hi : nat) (c : ascii) : bool :=
  (lo <=? nat_of_ascii c)%nat && (nat_of_ascii c <=? hi)%nat.

(** ['0'..'9'] *)
Definition is_decimal (c : ascii) : bool := ascii_in 48 57 c.

(** Characters with the Unicode property [Digit]: the decimal digits and,
    below 256, the superscripts U+00B2, U+00B3 and U+00B9. *)
Definition is_digit (c : ascii) : bool :=
  is_decimal c
  || (nat_of_ascii c =? 178)%nat
  || (nat_of_ascii c =? 179)%nat
  || (nat_of_ascii c =? 185)%nat.

Definition chars (s : string) : list ascii := list_ascii_of_string s.

(** [len(s)] *)
Definition len (s : string) : nat := String.length s.

(** [s.isdigit()]: every character is a digit and there is at least one. *)
Definition isdigit (s : string) : bool :=
  match chars s with
  | [] => false
  | l => forallb is_digit l
  end.

(** ** [int(x)] *)

(** The white space [int] lets go around a number: the ASCII white space
    (tab to carriage return, and the space) and, of the other characters
    below 256, U+0085 and U+00A0.  The separators U+001C to U+001F, white
    space for [str.isspace], are not among them. *)
Definition is_space (c : ascii) : bool :=
  ascii_in 9 13 c || (nat_of_ascii c =? 32)%nat
  || (nat_of_ascii c =? 133)%nat || (nat_of_ascii c =? 160)%nat.

Fixpoint lstrip (l : list ascii) : list ascii :=
  match l with
  | [] => []
  | c :: t => if is_space c then lstrip t else l
  end.

Definition strip (l : list ascii) : list ascii :=
  rev (lstrip (rev (lstrip l))).

Definition digit_value (c : ascii) : Z := Z.of_nat (nat_of_ascii c - 48).

Fixpoint digits_value (acc : Z) (prev_us : bool) (l : list ascii) : option Z :=
  match l with
  | [] => if prev_us then None else Some acc
  | c :: t =>
      if is_decimal c then digits_value (10 * acc + digit_value c) false t
      else if Ascii.eqb c "_"%char
           then if prev_us then None else digits_value acc true t
           else None
  end.

(** [sys.get_int_max_str_digits()], as the interpreter starts with *)
Definition max_str_digits : nat := 4300.

(** [int(s)] for a [str]: white space around, an optional sign, decimal
    digits with single underscores between them, and no more digits than
    the interpreter converts. *)
Definition int_of_str (s : string) : result Z :=
  let body := strip (chars s) in
  let signed :=
    match body with
    | c :: t =>
        if Ascii.eqb c "-"%char then (true, t)
        else if Ascii.eqb c "+"%char then (false, t)
        else (false, body)
    | [] => (false, [])
    end in
  match digits_value 0 true (snd signed) with
  | Some z =>
      if List.length (List.filter is_decimal (snd signed)) <=? max_str_digits
      then Ok (if fst signed then (- z)%Z else z)
      else Raise ValueError
  | None => Raise ValueError
  end.

(** [int(x)] *)
Definition int (x : value) : result Z :=
  match x with
  | VInt z => Ok z
  | VStr s => int_of_str s
  end.

End Py.

Export Py.

Notation "x <- c ;; k" := (Py.bind c (fun x => k))
  (at level 61, c at next level, right associativity).


Close Scope Q_scope.
Open Scope nat_scope.

(* ================================================================== *)
(** * binary64 floating point *)

(** A Python [float] (and a numpy [float64]) that is finite is the rational
    it denotes.  An operation gives the exact result rounded to the nearest
    number with 53 significant bits, ties to the even one, as IEEE 754
    prescribes.  The exponent range is left out: the numbers met here (shares
    of a frame, products with a number of rows, seconds since the epoch) stay
    far from overflow and from the subnormal range. *)
Module Float64.

Local Open Scope Q_scope.

Definition pow2 (k : Z) : Q := (2 # 1) ^ k.

(** The exponent [e] with [2^e <= x < 2^(e+1)], for a positive [x]. *)
Definition ilog2 (x : Q) : Z :=
  let d := (Z.log2 (Qnum x) - Z.log2 (Zpos (Qden x)))%Z in
  if Qle_bool (pow2 d) x then d else (d - 1)%Z.

(** The nearest integer, ties to the even one. *)
Definition round_half_even (x : Q) : Z :=
  let f := Qfloor x in
  match Qcompare (x - inject_Z f) (1 # 2) with
  | Lt => f
  | Gt => (f + 1)%Z
  | Eq => if Z.even f then f else (f + 1)%Z
  end.

(** The nearest multiple of [2^(e-52)], for a positive [x] of
    exponent [e]. *)
Definition round_pos (x : Q) : Q :=
  let e := (ilog2 x - 52)%Z in
  inject_Z (round_half_even (x / pow2 e)) * pow2 e.

(** The float nearest to [x]. *)
Definition round (x : Q) : Q :=
  match Qnum x with
  | Z0 => 0
  | Zpos _ => round_pos x
  | Zneg _ => - round_pos (- x)
  end.

(** [float(z)] for an [int], and the conversion of an [int64] cell *)
Definition of_int (z : Z) : Q := round (inject_Z z).

(** [x * y] and [x / y] on floats *)
Definition mul (x y : Q) : Q := round (x * y).

Definition div (x y : Q) : Q := round (x / y).

(** [a / b] on two [int]s: the quotient itself is rounded, not the
    operands. *)
Definition true_divide (a b : Z) : Q := round (inject_Z a / inject_Z b).

(** [x < y] on floats *)
Definition ltb (x y : Q) : bool := negb (Qle_bool y x).

(** [math.ceil(x)] *)
Definition ceil (x : Q) : Z := Qceiling x.

(** [int(x)]: towards zero *)
Definition trunc (x : Q) : Z := if Qle_bool 0 x then Qfloor x else Qceiling x.

(** A decimal literal, and [float(s)] on a decimal string: the float
    nearest to the number written. *)
Definition of_decimal (q : Q) : Q := round q.

(** The float [0.1] *)
Definition tenth : Q := 3602879701896397 # 36028797018963968.

End Float64.

(** The binary64 numbers of the machine, to check the rounding above
    against. *)
Module Binary64.

Local Open Scope Q_scope.

(** The rational a finite float denotes. *)
Definition to_Q (f : PrimFloat.float) : option Q :=
  match FloatOps.Prim2SF f with
  | SpecFloat.S754_zero _ => Some 0
  | SpecFloat.S754_finite s m e =>
      Some ((if s then - (1) else 1) * inject_Z (Zpos m) * Float64.pow2 e)
  | _ => None
  end.

Definition holds (f : PrimFloat.float) (q : Q) : bool :=
  match to_Q f with
  | Some x => Qeq_bool x q
  | None => false
  end.

(** [float(n)] for a small [int], and [a / b] for two of them. *)
Definition of_int (n : Z) : PrimFloat.float :=
  PrimFloat.of_uint63 (Uint63.of_Z n).

Definition quotient (a b : Z) : PrimFloat.float :=
  PrimFloat.div (of_int a) (of_int b).

End Binary64.

(* ================================================================== *)
(** * pandas: frames, columns and the operations the program calls *)

Module Pandas.

(** One record of the source: the dict a query row becomes. *)
Record ticket : Type := Ticket {
  id : value;
  text : string;
  label : value
}.

(** A row of a frame: its index label and its cells. *)
Abbreviation row := (nat * ticket)%type.

Abbreviation DataFrame := (list row).

(** [df["label"]] *)
Definition labels (df : DataFrame) : list value :=
  map (fun r => label (snd r)) df.

Fixpoint enumerate_from {A} (n : nat) (l : list A) : list (nat * A) :=
  match l with
  | [] => []
  | x :: t => (n, x) :: enumerate_from (S n) t
  end.

(** [pd.DataFrame(records)]: a fresh range index. *)
Definition from_records (l : list ticket) : DataFrame := enumerate_from 0 l.

(** [pd.concat([a, b], ignore_index=True)] *)
Definition concat_ignore_index (a b : DataFrame) : DataFrame :=
  from_records (map snd a ++ map snd b).

(** [df.empty] *)
Definition empty (df : DataFrame) : bool :=
  match df with
  | [] => true
  | _ => false
  end.

(** [df[mask]]: the rows where the mask holds, index labels kept. *)
Definition select_rows (p : row -> bool) (df : DataFrame) : DataFrame :=
  List.filter p df.

(** [df.iloc[positions]] *)
Definition iloc (df : DataFrame) (positions : list nat) : DataFrame :=
  flat_map (fun i => match nth_error df i with
                     | Some r => [r]
                     | None => []
                     end) positions.

(** The number of cells of a column equal to [x]. *)
Definition count (x : value) (col : list value) : nat :=
  List.length (List.filter (value_eqb x) col).

(** The distinct values of a column, in order of first appearance. *)
Fixpoint unique (col : list value) : list value :=
  match col with
  | [] => []
  | x :: t => x :: List.filter (fun y => negb (value_eqb x y)) (unique t)
  end.

(** [col.value_counts()]: one entry per distinct value, the most frequent
    first. *)
Definition value_counts (col : list value) : list (value * nat) :=
  sort_by (fun a b => snd b <=? snd a)
          (map (fun x => (x, count x col)) (unique col)).

(** [col.value_counts(normalize=True)]: the counts divided by their sum,
    [int64] by [int64]; numpy turns both into [float64] and divides
    there. *)
Definition value_counts_normalize (col : list value) : list (value * Q) :=
  let total := Float64.of_int (Z.of_nat (List.length col)) in
  map (fun p => (fst p, Float64.div (Float64.of_int (Z.of_nat (snd p))) total))
      (value_counts col).

(** [x < y] on the frequencies, two floats *)
Definition Qltb (x y : Q) : bool := Float64.ltb x y.

(** [col >= k] on one cell: defined on an [int] only. *)
Definition cell_ge (k : Z) (v : value) : result bool :=
  match v with
  | VInt z => Ok (k <=? z)%Z
  | VStr _ => Raise TypeError
  end.

End Pandas.

Export Pandas.

(* ================================================================== *)
(** * src/utils.py *)

Module utils.

(** The table of [count_labels]: rows [(Label, Count)]. *)
Definition count_labels (df : DataFrame) : result (list (value * nat)) :=
  let counts := value_counts (labels df) in
  py_sort_by fst counts.

End utils.

(* ================================================================== *)
(** * numpy's random generator, as far as the splitter uses it *)

Class RandomState : Type := {
  rng : Type;
  (** [RandomState(seed)] *)
  seeded : Z -> rng;
  (** [rng.permutation(n)]: the numbers below [n] in a random order *)
  permutation : rng -> nat -> list nat * rng;
  (** [rng.choice(a, size=k, replace=False)] *)
  choice : rng -> list nat -> nat -> list nat * rng
}.

Class RandomStateLaws (RS : RandomState) : Prop := {
  permutation_spec :
    forall s n, Permutation (fst (permutation s n)) (seq 0 n);
  choice_spec :
    forall s a k, k <= List.length a -> NoDup a ->
      List.length (fst (choice s a k)) = k /\
      NoDup (fst (choice s a k)) /\
      incl (fst (choice s a k)) a
}.

(* ================================================================== *)
(** * scikit-learn: [train_test_split] with [stratify] *)

Module sklearn.

Section WithRandomState.

Context {RS : RandomState}.

(** [rng.permutation(l)] on a list: its elements in a random order. *)
Definition shuffle (s : rng) (l : list nat) : list nat * rng :=
  let (p, s') := permutation s (List.length l) in
  (map (fun j => nth j l 0) p, s').

(** [np.where(col == v)] *)
Definition where_eq (v : nat) (col : list nat) : list nat :=
  List.filter (fun i => nth i col 0 =? v) (seq 0 (List.length col)).

(** [a[inds] += 1] *)
Definition incr_at (inds : list nat) (a : list nat) : list nat :=
  map (fun p => if existsb (Nat.eqb (fst p)) inds then S (snd p) else snd p)
      (enumerate_from 0 a).

(** [np.unique(a)]: sorted, without repetition. *)
Definition np_unique (a : list nat) : list nat :=
  sort_by Nat.leb (nodup Nat.eq_dec a).

(** The loop of [_approximate_mode] over the remainders, largest first. *)
Fixpoint add_largest (values remainder floored : list nat) (need : nat)
         (s : rng) : list nat * rng :=
  match values with
  | [] => (floored, s)
  | v :: vs =>
      let inds := where_eq v remainder in
      let add_now := Nat.min (List.length inds) need in
      let (chosen, s') := choice s inds add_now in
      let floored' := incr_at chosen floored in
      let need' := need - add_now in
      if need' =? 0 then (floored', s')
      else add_largest vs remainder floored' need' s'
  end.

(** [_approximate_mode(class_counts, n_draws, rng)]: the share of each class
    in [n_draws] draws, rounded down, the draws left over going to the
    classes with the largest remainders (ties broken at random).  With
    [continuous = class_counts / class_counts.sum() * n_draws], the floor is
    the quotient of [c * n_draws] by the sum and the remainder is compared
    through the rest of that division: the shares are fractions here, where
    numpy holds them in [float64]. *)
Definition _approximate_mode (class_counts : list nat) (n_draws : nat)
           (s : rng) : list nat * rng :=
  let total := list_sum class_counts in
  let floored := map (fun c => c * n_draws / total) class_counts in
  let need_to_add := n_draws - list_sum floored in
  if 0 <? need_to_add then
    let remainder := map (fun c => (c * n_draws) mod total) class_counts in
    let values := rev (np_unique remainder) in
    add_largest values remainder floored need_to_add s
  else (floored, s).

(** The loop over the classes of [StratifiedShuffleSplit._iter_indices]:
    each class is shuffled; its first [n_i] rows go to train and the next
    [t_i] to test. *)
Fixpoint draw_classes (cls : list (list nat * (nat * nat))) (s : rng)
  : (list nat * list nat) * rng :=
  match cls with
  | [] => (([], []), s)
  | (class_indices_i, (n_i, t_i)) :: rest =>
      let (p, s1) := permutation s (List.length class_indices_i) in
      let perm_indices_class_i := map (fun j => nth j class_indices_i 0) p in
      let '((train, test), s2) := draw_classes rest s1 in
      ((firstn n_i perm_indices_class_i ++ train,
        firstn t_i (skipn n_i perm_indices_class_i) ++ test), s2)
  end.

(** The positions of the rows of class [c]. *)
Definition positions_of (c : value) (y : list value) : list nat :=
  List.filter (fun i => match nth_error y i with
                        | Some v => value_eqb v c
                        | None => false
                        end) (seq 0 (List.length y)).

(** [ceil(test_size * n_samples)]: the product of a float and an [int] is
    the float product with [float(n_samples)]. *)
Definition n_test_of (test_size : Q) (n_samples : nat) : nat :=
  Z.to_nat (Float64.ceil
              (Float64.mul test_size (Float64.of_int (Z.of_nat n_samples)))).

(** [train_test_split(df, test_size=test_size, stratify=y,
    random_state=seed)], as positions of [df]: the sizes from
    [_validate_shuffle_split], then one iteration of
    [StratifiedShuffleSplit]. *)
Definition stratified_positions (y : list value) (test_size : Q) (seed : Z)
  : result (list nat * list nat) :=
  let n_samples := List.length y in
  if Qle_bool test_size 0 || Qle_bool 1 test_size then Raise ValueError else
  let n_test := n_test_of test_size n_samples in
  let n_train := n_samples - n_test in
  if n_train =? 0 then Raise ValueError else
  classes <- py_sort (unique y) ;;
  let n_classes := List.length classes in
  let class_counts := map (fun c => count c y) classes in
  if existsb (fun c => c <? 2) class_counts then Raise ValueError else
  if n_train <? n_classes then Raise ValueError else
  if n_test <? n_classes then Raise ValueError else
  let class_indices := map (fun c => positions_of c y) classes in
  let s0 := seeded seed in
  let (n_i, s1) := _approximate_mode class_counts n_train s0 in
  let class_counts_remaining := map (fun p => fst p - snd p)
                                    (combine class_counts n_i) in
  let (t_i, s2) := _approximate_mode class_counts_remaining n_test s1 in
  let '((train, test), s3) :=
    draw_classes (combine class_indices (combine n_i t_i)) s2 in
  let (train', s4) := shuffle s3 train in
  let (test', _) := shuffle s4 test in
  Ok (train', test').

Definition train_test_split (df : DataFrame) (test_size : Q)
           (stratify : list value) (random_state : Z)
  : result (DataFrame * DataFrame) :=
  p <- stratified_positions stratify test_size random_state ;;
  Ok (iloc df (fst p), iloc df (snd p)).

End WithRandomState.

End sklearn.

(* ================================================================== *)
(** * src/dataset.py *)

Module dataset.

(** [filter(df, labels)] *)
Definition filter (df : DataFrame) (labels : list value) : DataFrame :=
  select_rows (fun r => py_in (label (snd r)) labels) df.

(** [find_threshold(df, threshold)] *)
Definition find_threshold (df : DataFrame) (threshold : Q)
  : result (list value) :=
  let label_counts := value_counts_normalize (labels df) in
  let low_volume_labels :=
    List.filter (fun p => Qltb (snd p) threshold) label_counts in
  let values := map fst low_volume_labels in
  py_sort values.

(** [split(df, test_size)] *)
Definition split {RS : RandomState} (df : DataFrame) (test_size : Q)
  : result (DataFrame * DataFrame) :=
  sklearn.train_test_split df test_size (labels df) 42%Z.

(** The inner function of [update_label]. *)
Definition substitute_label (old_labels : list value) (new_label : Z)
           (x : value) : result Z :=
  if py_in x old_labels then Ok new_label else int x.

(** [update_label(df, old_labels, new_label)]: the [label] column is
    replaced by the image of [substitute_label]; the frame the caller holds
    is the one that changes. *)
Definition update_label (df : DataFrame) (old_labels : list value)
           (new_label : Z) : result DataFrame :=
  mapM (fun r : row =>
          z <- substitute_label old_labels new_label (label (snd r)) ;;
          Ok (fst r, Ticket (id (snd r)) (text (snd r)) (VInt z)))
       df.

End dataset.

(* ================================================================== *)
(** * prepare.py *)

Module prepare.

(** The settings read from the environment when the module is loaded. *)
Record Config : Type := {
  DB_ARN : string;
  DB_SECRET_ARN : string;
  LOW_VOLUME_FALLBACK_LABEL : Z;
  LOW_VOLUME_PERIOD : Z;
  LOW_VOLUME_THRESHOLD : Q;
  TARGET_BUCKET : string;
  TRAINING_PERIOD : Z
}.

(** [TEST_SPLIT = 0.1] *)
Definition TEST_SPLIT : Q := Float64.tenth.

Definition LOW_VOLUME_MIN_COUNT : nat := 10.

(** What the run meets outside the process.  A [datetime] is a number of
    microseconds since the epoch (UTC). *)
Record World : Type := {
  (** [datetime.strptime(s, "%Y%m%d%H%M%S%z")] *)
  strptime : string -> result Z;
  (** [utils.load_secret(name)["dbname"]] *)
  secret_dbname : string -> result string;
  (** [db.DbClient(cluster_arn, secret_arn, db_name)]: priming the
      connection *)
  connect : string -> string -> string -> result unit;
  (** [tickets.get_tickets(db_client, start, end)]: all the pages of the
      window, the bounds as [int(d.timestamp())] *)
  get_tickets : Z -> Z -> result (list ticket);
  (** [boto3.client("s3").put_object(Bucket=bucket, Key=key, Body=data)] *)
  put_object : string -> string -> DataFrame -> result unit
}.

(** The accesses to the outside, in the order they are made. *)
Inductive event : Type :=
| LoadSecret (name : string)
| Connect (cluster_arn secret_arn db_name : string)
| GetTickets (start end_ : Z)
| PutObject (bucket key : string) (body : DataFrame).

(** A computation that accesses the outside and may raise. *)
Definition io (A : Type) : Type := (list event * result A)%type.

Definition ret {A} (a : A) : io A := ([], Ok a).

Definition raise {A} (e : exn) : io A := ([], Raise e).

Definition iobind {A B} (c : io A) (k : A -> io B) : io B :=
  match c with
  | (tr, Ok a) => let (tr', r) := k a in (tr ++ tr', r)
  | (tr, Raise e) => (tr, Raise e)
  end.

(** A computation of the process itself. *)
Definition pure {A} (c : result A) : io A := ([], c).

(** An access: the event, then what the outside answers. *)
Definition access {A} (ev : event) (c : result A) : io A := ([ev], c).

Notation "x <~ c ;; k" := (iobind c (fun x => k))
  (at level 61, c at next level, right associativity).

Notation "c ;;; k" := (iobind c (fun _ => k))
  (at level 61, right associativity).

Definition day_us : Z := 86400000000.

(** [int(d.timestamp())]: for a [datetime] with a time zone,
    [d.timestamp()] is [(d - epoch).total_seconds()], the number of
    microseconds divided by [10**6] as a float. *)
Definition timestamp (d : Z) : Z :=
  Float64.trunc (Float64.true_divide d 1000000).

(** [datetime.min] and [datetime.max] read as UTC: the first microsecond
    of year 1 and the last one of year 9999. *)
Definition datetime_min : Z := (-62135596800000000)%Z.

Definition datetime_max : Z := 253402300799999999%Z.

(** [datetime.timedelta(days=n)], in microseconds: a [timedelta] holds at
    most 999999999 days. *)
Definition timedelta_days (n : Z) : result Z :=
  if (Z.abs n <=? 999999999)%Z then Ok (n * day_us)%Z
  else Raise OverflowError.

(** [d - delta] on a [datetime]: the result has to lie in the years 1 to
    9999. *)
Definition datetime_sub (d delta : Z) : result Z :=
  let r := (d - delta)%Z in
  if ((datetime_min <=? r) && (r <=? datetime_max))%Z then Ok r
  else Raise OverflowError.

(** [d.replace(hour=23, minute=59, second=59, microsecond=999999)] *)
Definition end_of_day (d : Z) : Z := (d - d mod day_us + (day_us - 1))%Z.

(** [utils.get_start_datetime(batch_id, offset)] *)
Definition get_start_datetime (w : World) (batch_id : string) (offset : Z)
  : result Z :=
  batch_datetime <- strptime w (batch_id ++ "0000Z") ;;
  delta <- timedelta_days offset ;;
  datetime_sub batch_datetime delta.

(** [utils.get_end_datetime(batch_id)]: the last microsecond of the day
    before. *)
Definition get_end_datetime (w : World) (batch_id : string) : result Z :=
  batch_datetime <- strptime w (batch_id ++ "0000Z") ;;
  delta <- timedelta_days 1 ;;
  d <- datetime_sub batch_datetime delta ;;
  Ok (end_of_day d).

(** [utils.write_to_s3_json(bucket, filename, dataframe)] *)
Definition write_to_s3_json (w : World) (bucket filename : string)
           (df : DataFrame) : io unit :=
  access (PutObject bucket filename df) (put_object w bucket filename df).

(** [int(label_counts.loc[label_counts["Label"] == label]["Count"].iloc[0])] *)
Definition count_of (label_counts : list (value * nat)) (l : value)
  : result nat :=
  match List.filter (fun p => value_eqb (fst p) l) label_counts with
  | p :: _ => Ok (snd p)
  | [] => Raise IndexError
  end.

(** The loop over [low_volume_labels] that counts [large_enough]. *)
Fixpoint count_large_enough (label_counts : list (value * nat))
         (low_volume_labels : list value) (large_enough : nat) : result nat :=
  match low_volume_labels with
  | [] => Ok large_enough
  | l :: rest =>
      c <- count_of label_counts l ;;
      count_large_enough label_counts rest
        (if LOW_VOLUME_MIN_COUNT <=? c then large_enough + 1 else large_enough)
  end.

(** The two flags lines 77 to 83 set. *)
Definition create_low_volume_of (large_enough : nat) : bool :=
  2 <=? large_enough.

Definition low_volume_label_id_of (cfg : Config) (create_low_volume : bool)
  : Z :=
  if negb create_low_volume then LOW_VOLUME_FALLBACK_LABEL cfg else 0%Z.

(** [low_vol_df[low_vol_df["label"] >= 10]] *)
Definition label_ge_10 (df : DataFrame) : result DataFrame :=
  mask <- mapM (fun r : row => cell_ge 10 (label (snd r))) df ;;
  Ok (map fst (List.filter snd (combine df mask))).

Definition general_path (batch_id part : string) : string :=
  "training/gata-general/" ++ batch_id ++ "/" ++ part ++ "/data.json".

Definition low_vol_path (batch_id part : string) : string :=
  "training/gata-low-vol/" ++ batch_id ++ "/" ++ part ++ "/data.json".

Section Main.

Context {RS : RandomState}.
Variable w : World.
Variable cfg : Config.

(** Lines 119 to 170: the low volume dataset.  [general_df] is the frame
    [update_label] has rewritten. *)
Definition low_volume_stage (batch_id : string) (start : Z)
           (general_df : DataFrame) (low_volume_labels : list value)
  : io unit :=
  pure (utils.count_labels general_df) ;;;
  let low_vol_df := dataset.filter general_df low_volume_labels in
  delta <~ pure (timedelta_days (LOW_VOLUME_PERIOD cfg - TRAINING_PERIOD cfg)) ;;
  low_vol_start <~ pure (datetime_sub start delta) ;;
  let low_vol_end := start in
  fetched <~ access (GetTickets (timestamp low_vol_start)
                                (timestamp low_vol_end))
                    (get_tickets w (timestamp low_vol_start)
                                 (timestamp low_vol_end)) ;;
  let low_vol_df := concat_ignore_index low_vol_df (from_records fetched) in
  if empty low_vol_df then ret tt else
  pure (utils.count_labels low_vol_df) ;;;
  low_vol_df <~ pure (label_ge_10 low_vol_df) ;;
  pure (utils.count_labels low_vol_df) ;;;
  parts <~ pure (dataset.split low_vol_df TEST_SPLIT) ;;
  let low_vol_train_df := fst parts in
  let low_vol_test_df := snd parts in
  pure (utils.count_labels low_vol_train_df) ;;;
  pure (utils.count_labels low_vol_test_df) ;;;
  write_to_s3_json w (TARGET_BUCKET cfg) (low_vol_path batch_id "train")
                   low_vol_train_df ;;;
  write_to_s3_json w (TARGET_BUCKET cfg) (low_vol_path batch_id "test")
                   low_vol_test_df.

(** Lines 67 to 78: the low volume labels, and whether a low volume dataset
    is to be created. *)
Definition decide (general_df : DataFrame) : result (list value * bool) :=
  label_counts <- utils.count_labels general_df ;;
  low_volume_labels <-
    dataset.find_threshold general_df (LOW_VOLUME_THRESHOLD cfg) ;;
  large_enough <- count_large_enough label_counts low_volume_labels 0 ;;
  Ok (low_volume_labels, create_low_volume_of large_enough).

(** Lines 92 to 111: the labels are rewritten, the frame is split and the
    two parts are written.  The value is the rewritten frame, which the
    caller keeps under the name [general_df]. *)
Definition general_stage (batch_id : string) (general_df : DataFrame)
           (low_volume_labels : list value) (low_volume_label_id : Z)
  : io DataFrame :=
  pure (utils.count_labels general_df) ;;;
  general_df <~ pure (dataset.update_label general_df low_volume_labels
                                           low_volume_label_id) ;;
  parts <~ pure (dataset.split general_df TEST_SPLIT) ;;
  let general_train_df := fst parts in
  let general_test_df := snd parts in
  pure (utils.count_labels general_train_df) ;;;
  pure (utils.count_labels general_test_df) ;;;
  write_to_s3_json w (TARGET_BUCKET cfg) (general_path batch_id "train")
                   general_train_df ;;;
  write_to_s3_json w (TARGET_BUCKET cfg) (general_path batch_id "test")
                   general_test_df ;;;
  ret general_df.

(** Lines 67 to 170, once the primary window is known not to be empty. *)
Definition datasets (batch_id : string) (start : Z) (general_df : DataFrame)
  : io unit :=
  d <~ pure (decide general_df) ;;
  let low_volume_labels := fst d in
  let create_low_volume := snd d in
  let low_volume_label_id := low_volume_label_id_of cfg create_low_volume in
  general_df <~ general_stage batch_id general_df low_volume_labels
                              low_volume_label_id ;;
  if negb create_low_volume then ret tt else
  low_volume_stage batch_id start general_df low_volume_labels.

(** [main(batch_id)] *)
Definition main (batch_id : string) : io unit :=
  if negb (len batch_id =? 10) || negb (isdigit batch_id)
  then raise ValueError else
  start <~ pure (get_start_datetime w batch_id (TRAINING_PERIOD cfg)) ;;
  end_ <~ pure (get_end_datetime w batch_id) ;;
  db_name <~ access (LoadSecret (DB_SECRET_ARN cfg))
                    (secret_dbname w (DB_SECRET_ARN cfg)) ;;
  access (Connect (DB_ARN cfg) (DB_SECRET_ARN cfg) db_name)
         (connect w (DB_ARN cfg) (DB_SECRET_ARN cfg) db_name) ;;;
  fetched <~ access (GetTickets (timestamp start) (timestamp end_))
                    (get_tickets w (timestamp start) (timestamp end_)) ;;
  let general_df := from_records fetched in
  if empty general_df then ret tt else
  datasets batch_id start general_df.

End Main.

End prepare.

(* ================================================================== *)
(** * Concrete inputs *)

Module Examples.

Import prepare.

(** The frame of [tests/test_dataset.py]. *)
Definition test_frame : DataFrame :=
  from_records
    (map (fun p => Ticket (VInt 0) (fst p) (VStr (snd p)))
         [("zero", "0"); ("zero", "0"); ("one", "1"); ("one", "1");
          ("two", "2"); ("two", "2");
          ("three", "3"); ("three", "3"); ("three", "3");
          ("three", "3"); ("three", "3"); ("three", "3");
          ("four", "4"); ("four", "4"); ("four", "4");
          ("four", "4"); ("four", "4"); ("four", "4")]%string).

(** The frame of [test_count_labels_multiple_labels]. *)
Definition abc_frame : DataFrame :=
  from_records
    (map (fun l => Ticket (VInt 0) "" (VStr l))
         ["A"; "B"; "A"; "C"; "B"; "A"]%string).

(** [n] tickets of label [l], numbered from [first]. *)
Definition block (l : Z) (first n : nat) : list ticket :=
  map (fun i => Ticket (VInt (Z.of_nat i)) "text" (VInt l)) (seq first n).

(** A generator that is lawful and easy to follow: it reverses, and draws
    from the front. *)
#[export] Instance reversing : RandomState := {
  rng := nat;
  seeded := fun _ => 0;
  permutation := fun s n => (rev (seq 0 n), S s);
  choice := fun s a k => (firstn k a, S s)
}.

Definition cfg : Config := {|
  DB_ARN := "arn:db";
  DB_SECRET_ARN := "arn:secret";
  LOW_VOLUME_FALLBACK_LABEL := 99;
  LOW_VOLUME_PERIOD := 365;
  LOW_VOLUME_THRESHOLD := Float64.of_decimal (33 # 1000);
  TARGET_BUCKET := "bucket";
  TRAINING_PERIOD := 90
|}.

(** The same with a threshold of 30%. *)
Definition wide : Config := {|
  DB_ARN := "arn:db";
  DB_SECRET_ARN := "arn:secret";
  LOW_VOLUME_FALLBACK_LABEL := 99;
  LOW_VOLUME_PERIOD := 365;
  LOW_VOLUME_THRESHOLD := Float64.of_decimal (3 # 10);
  TARGET_BUCKET := "bucket";
  TRAINING_PERIOD := 90
|}.

(** A primary window where labels 1 and 2 are low volume (10 of 620 rows
    each) and label 100 is not. *)
Definition primary : list ticket :=
  block 1 0 10 ++ block 2 10 10 ++ block 100 20 600.

(** An extended history: 12 rows of label 3, 10 of label 50, 10 of
    label 60. *)
Definition history : list ticket :=
  block 3 1000 12 ++ block 50 1012 10 ++ block 60 1022 10.

(** 2025-01-11 00:00 UTC, in microseconds. *)
Definition batch_time : Z := 1736553600000000.

(** A world whose store holds [primary] in the training window of batch
    2025011100 and [older] before it. *)
Definition world (older : list ticket) : World := {|
  strptime := fun _ => Ok batch_time;
  secret_dbname := fun _ => Ok "tickets"%string;
  connect := fun _ _ _ => Ok tt;
  get_tickets := fun start _ =>
    Ok (if (start <? 1728777600)%Z then older else primary);
  put_object := fun _ _ _ => Ok tt
|}.

(** Five rows of one label and one row of another. *)
Definition five_one : DataFrame :=
  from_records
    (map (fun l => Ticket (VInt 0) "" (VStr l))
         ["a"; "a"; "a"; "a"; "a"; "b"]%string).

(** The float [0.33], the test fraction of [tests/test_dataset.py]. *)
Definition test_fraction : Q := Float64.of_decimal (33 # 100).

(** The float [0.8333333333333334] *)
Definition five_sixths : Q :=
  Float64.of_decimal (8333333333333334 # 10000000000000000).

(** A world where the batch id reads as the first instant of year 1. *)
Definition first_day : World := {|
  strptime := fun _ => Ok datetime_min;
  secret_dbname := fun _ => Ok "tickets"%string;
  connect := fun _ _ _ => Ok tt;
  get_tickets := fun _ _ => Ok [];
  put_object := fun _ _ _ => Ok tt
|}.

(** 25 rows over 8 labels: 4 rows of label 0 and 3 rows of each of the
    labels 1 to 7. *)
Definition eight_labels : DataFrame :=
  from_records
    (block 0 0 4 ++ block 1 4 3 ++ block 2 7 3 ++ block 3 10 3
     ++ block 4 13 3 ++ block 5 16 3 ++ block 6 19 3 ++ block 7 22 3).

(** A label of 4301 digits. *)
Definition long_digits : string :=
  string_of_list_ascii (repeat "1"%char 4301).

(** Two labels with two rows each. *)
Definition two_pairs : DataFrame :=
  from_records
    (map (fun l => Ticket (VInt 0) "" (VStr l)) ["a"; "a"; "b"; "b"]%string).

(** A small primary window: 20 rows of label 7 and 2 rows of label 8. *)
Definition small_primary : DataFrame :=
  from_records (block 7 0 20 ++ block 8 20 2).

(** A merged low volume frame: 12 rows of label 3 and one row of
    label 70. *)
Definition merged : DataFrame :=
  from_records (block 3 0 12 ++ block 70 12 1).

(** What a run wrote: the key of each object with the label table of its
    body. *)
Definition label_tables (trace : list event)
  : list (string * result (list (value * nat))) :=
  flat_map (fun ev => match ev with
                      | PutObject _ key body => [(key, utils.count_labels body)]
                      | _ => []
                      end) trace.

(** The windows a run asked tickets for. *)
Definition windows (trace : list event) : list (Z * Z) :=
  flat_map (fun ev => match ev with
                      | GetTickets start end_ => [(start, end_)]
                      | _ => []
                      end) trace.

End Examples.

(* ================================================================== *)
(** * src/db.py *)

Module db.

(** One entry of the [parameters] of a statement: a name and the
    [longValue] bound to it. *)
Record param : Type := Param {
  name : string;
  longValue : Z
}.

(** What a call of [execute_statement] brings: a response (its
    [formattedRecords], decoded), the service's
    [DatabaseResumingException], or another exception. *)
Inductive answer (A : Type) : Type :=
| Response (a : A)
| DatabaseResuming
| Failure (e : exn).

Arguments Response {A} a.
Arguments DatabaseResuming {A}.
Arguments Failure {A} e.

(** The Data API behind [self._rds]: a state, and its reaction to a
    statement and its parameters. *)
Record Rds (R : Type) : Type := {
  state : Type;
  execute_statement :
    state -> string -> list param -> answer (list R) * state
}.

(** What the client does that can be seen from outside. *)
Inductive event : Type :=
| Execute (sql : string) (parameters : list param)
| Sleep (seconds : nat).

Section Client.

Variable R : Type.
Variable rds : Rds R.

(** The loop of [_prime_connection], from a given value of [attempts].
    The break and an exception leave the loop at once; the loop condition
    fails after ten resuming answers.  [None]: the fuel ran out. *)
Fixpoint prime_loop (fuel attempts : nat) (s : state rds)
  : option (list event * result unit * state rds) :=
  match fuel with
  | 0 => None
  | S fuel' =>
      if attempts <? 10 then
        match execute_statement rds s "SELECT 1" [] with
        | (Response _, s') => Some ([Execute "SELECT 1" []], Ok tt, s')
        | (DatabaseResuming, s') =>
            match prime_loop fuel' (attempts + 1) s' with
            | Some (tr, r, s'') =>
                Some (Execute "SELECT 1" [] :: Sleep 3 :: tr, r, s'')
            | None => None
            end
        | (Failure e, s') => Some ([Execute "SELECT 1" []], Raise e, s')
        end
      else Some ([], Raise ConnectionError, s)
  end.

(** [DbClient._prime_connection()] *)
Definition _prime_connection (fuel : nat) (s : state rds)
  : option (list event * result unit * state rds) :=
  prime_loop fuel 0 s.

(** [DbClient.select(query, params)] *)
Definition select (s : state rds) (query : string) (params : list param)
  : list event * result (list R) * state rds :=
  if negb (String.prefix "SELECT" query) then ([], Raise ValueError, s) else
  match execute_statement rds s query params with
  | (Response records, s') => ([Execute query params], Ok records, s')
  | (DatabaseResuming, s') => ([Execute query params], Raise ClientError, s')
  | (Failure e, s') => ([Execute query params], Raise e, s')
  end.

End Client.

End db.

(* ================================================================== *)
(** * src/tickets.py *)

Module tickets.

Import db.

Definition limit : Z := 50.

(** [str(n)] for an [int] that is not negative. *)
Definition str (n : nat) : string := NilZero.string_of_uint (Nat.to_uint n).

(** [params[0]["value"]["longValue"] += limit] *)
Definition next_page (params : list param) : result (list param) :=
  match params with
  | p :: rest => Ok (Param (name p) (longValue p + limit) :: rest)
  | [] => Raise IndexError
  end.

(** The statement and its parameters, as lines 72 to 103 build them.  An
    empty list of group ids is false as [None] is. *)
Definition statement (start end_ : Z) (group_ids : option (list Z))
  : string * list param :=
  let query :=
    ["SELECT id, processed_data AS text, closed_group_id_mapped AS label";
     "FROM ticket";
     "WHERE (via_channel != 'api' OR (via_channel = 'api' AND initial_group_id = 0)) AND routed_by != 'gata-mapped' AND closed BETWEEN :start AND :end"
    ]%string in
  let params :=
    [Param "offset" 0; Param "limit" limit;
     Param "start" (prepare.timestamp start);
     Param "end" (prepare.timestamp end_)] in
  let '(query, params) :=
    match group_ids with
    | Some ((_ :: _) as ids) =>
        let indices := map fst (enumerate_from 0 ids) in
        let params :=
          params ++ map (fun p => Param ("group_id_" ++ str (fst p)) (snd p))
                        (enumerate_from 0 ids) in
        let group_tokens :=
          String.concat ", "
            (map (fun i => ":group_id_" ++ str i)%string indices) in
        (query ++ ["AND closed_group_id_mapped IN (" ++ group_tokens ++ ")"]%string,
         params)
    | _ => (query, params)
    end in
  let query := query ++ ["ORDER BY closed DESC"; "LIMIT :limit OFFSET :offset"]%string in
  (String.concat " " query, params).

Section Loader.

Variable R : Type.
Variable rds : Rds R.

(** The loop of [_load_tickets]: page after page until one is empty.
    [None]: the fuel ran out. *)
Fixpoint load_pages (fuel : nat) (s : state rds) (sql : string)
         (params : list param)
  : option (list event * result (list R) * state rds) :=
  match fuel with
  | 0 => None
  | S fuel' =>
      let '(tr, r, s') := select rds s sql params in
      match r with
      | Raise e => Some (tr, Raise e, s')
      | Ok [] => Some (tr, Ok [], s')
      | Ok records =>
          match next_page params with
          | Raise e => Some (tr, Raise e, s')
          | Ok params' =>
              match load_pages fuel' s' sql params' with
              | Some (tr', Ok rest, s'') =>
                  Some (tr ++ tr', Ok (records ++ rest), s'')
              | Some (tr', Raise e, s'') => Some (tr ++ tr', Raise e, s'')
              | None => None
              end
          end
      end
  end.

(** [_load_tickets(db_client, start, end, group_ids)], the records it
    yields taken together. *)
Definition _load_tickets (fuel : nat) (s : state rds) (start end_ : Z)
           (group_ids : option (list Z))
  : option (list event * result (list R) * state rds) :=
  let (sql, params) := statement start end_ group_ids in
  load_pages fuel s sql params.

(** [get_tickets(db_client, start, end, group_ids)] *)
Definition get_tickets (fuel : nat) (s : state rds) (start end_ : Z)
           (group_ids : option (list Z))
  : option (list event * result (list R) * state rds) :=
  _load_tickets fuel s start end_ group_ids.

End Loader.

End tickets.

(* ================================================================== *)
(** * prepare.py run as a script *)

Module script.

Import prepare.

(** [os.path.basename(p)]: what follows the last slash. *)
Fixpoint basename_from (acc p : string) : string :=
  match p with
  | EmptyString => acc
  | String c t =>
      if Ascii.eqb c "/" then basename_from EmptyString t
      else basename_from (acc ++ String c EmptyString) t
  end.

Definition basename (p : string) : string := basename_from EmptyString p.

(** What a run of the script leaves behind: the accesses of [main], the
    line printed on standard output if any, and the exit status. *)
Record outcome : Type := {
  accesses : list event;
  printed : option string;
  status : Z
}.

Section Script.

Context {RS : RandomState}.
Variable w : World.
Variable cfg : Config.

(** Lines 173 to 183, on [sys.argv].  An exception that nothing catches
    ends the interpreter with status 1. *)
Definition run (argv : list string) : outcome :=
  if negb (List.length argv =? 2) then
    match argv with
    | prog :: _ =>
        {| accesses := [];
           printed := Some ("Usage: " ++ basename prog ++ " <batch_id>")%string;
           status := 1 |}
    | [] => {| accesses := []; printed := None; status := 1 |}
    end
  else
    match main w cfg (nth 1 argv EmptyString) with
    | (tr, Ok _) => {| accesses := tr; printed := None; status := 0 |}
    | (tr, Raise _) => {| accesses := tr; printed := None; status := 1 |}
    end.

End Script.

End script.

(* ================================================================== *)
(** * Services to run the client against *)

Module Services.

Import db.

(** The value bound to the parameter called [n]. *)
Definition bound (n : string) (params : list param) : Z :=
  match find (fun p => String.eqb (name p) n) params with
  | Some p => longValue p
  | None => 0
  end.

(** A service over a fixed table: the rows that match the query, in its
    order, of which it returns [LIMIT :limit OFFSET :offset]. *)
Definition table {R} (rows : list R) : Rds R := {|
  state := unit;
  execute_statement := fun s _ params =>
    (Response (firstn (Z.to_nat (bound "limit" params))
                      (skipn (Z.to_nat (bound "offset" params)) rows)), s)
|}.

(** A service that returns the same page whatever the offset. *)
Definition stuck {R} (page : list R) : Rds R := {|
  state := unit;
  execute_statement := fun s _ _ => (Response page, s)
|}.

(** A service that gives the answers of a script, one for each call, and
    empty pages once the script is over.  The state is what is left of the
    script. *)
Definition scripted {R} : Rds R := {|
  state := list (answer (list R));
  execute_statement := fun s _ _ =>
    match s with
    | a :: rest => (a, rest)
    | [] => (Response [], [])
    end
|}.

End Services.

(* ================================================================== *)
(** * Notions the statements below are written with *)

(** Whether two cells hold the same value. *)
Definition same_value (a b : value) : {a = b} + {a <> b}.
Proof. decide equality; [apply Z.eq_dec | apply string_dec]. Defined.

(** The number of rows of [df] that carry label [l]. *)
Definition occurrences (l : value) (df : DataFrame) : nat :=
  count_occ same_value (labels df) l.

(** The share of the rows of [df] that carry label [l]: a fraction. *)
Definition frequency (l : value) (df : DataFrame) : Q :=
  (Z.of_nat (occurrences l df) # Pos.of_nat (List.length df))%Q.

(** The same share in [float64]: the quotient of the two numbers of rows,
    rounded. *)
Definition float_frequency (l : value) (df : DataFrame) : Q :=
  Float64.div (Float64.of_int (Z.of_nat (occurrences l df)))
              (Float64.of_int (Z.of_nat (List.length df))).

(** A number that a [float] holds. *)
Definition is_float (x : Q) : Prop := (Float64.round x == x)%Q.

(** The number of distinct labels of [df]. *)
Definition n_labels (df : DataFrame) : nat :=
  List.length (nodup same_value (labels df)).

(** Strictly increasing for the order of the labels' kind. *)
Definition ascending (l : list value) : Prop :=
  uniform l = true /\ StronglySorted (fun a b => value_ltb a b = true) l.

(** An [int], or a [str] made of decimal digits, at least one. *)
Definition int_or_digits (v : value) : Prop :=
  match v with
  | VInt _ => True
  | VStr s => chars s <> [] /\ forallb is_decimal (chars s) = true
  end.

(** The same with no more digits than [int] converts. *)
Definition int_or_short_digits (v : value) : Prop :=
  match v with
  | VInt _ => True
  | VStr s =>
      chars s <> [] /\ forallb is_decimal (chars s) = true /\ len s <= 4300
  end.

(** ** What a string reads as *)

(** The ten decimal digits and what they are worth. *)
Inductive digit : ascii -> Z -> Prop :=
| digit_0 : digit "0" 0
| digit_1 : digit "1" 1
| digit_2 : digit "2" 2
| digit_3 : digit "3" 3
| digit_4 : digit "4" 4
| digit_5 : digit "5" 5
| digit_6 : digit "6" 6
| digit_7 : digit "7" 7
| digit_8 : digit "8" 8
| digit_9 : digit "9" 9.

(** A run of decimal digits, with single underscores allowed between two
    digits: the number it writes in base ten, and how many digits it
    has. *)
Inductive digits : list ascii -> Z -> nat -> Prop :=
| digits_one c d : digit c d -> digits [c] d 1
| digits_next l z n c d :
    digits l z n -> digit c d -> digits (l ++ [c]) (10 * z + d) (S n)
| digits_underscore l z n c d :
    digits l z n -> digit c d ->
    digits (l ++ ["_"%char; c]) (10 * z + d) (S n).

(** The white space that may stand around a number: tab, line feed,
    vertical tab, form feed, carriage return, space, next line (U+0085)
    and no-break space (U+00A0). *)
Definition blank (c : ascii) : Prop :=
  In (nat_of_ascii c) [9; 10; 11; 12; 13; 32; 133; 160].

(** The string [s] writes the integer [z]: an optional sign and a run of
    at most 4300 digits, with white space around. *)
Inductive numeral : string -> Z -> Prop :=
| numeral_plain before body after z n :
    Forall blank before -> Forall blank after ->
    digits body z n -> n <= 4300 ->
    numeral (string_of_list_ascii (before ++ body ++ after)) z
| numeral_plus before body after z n :
    Forall blank before -> Forall blank after ->
    digits body z n -> n <= 4300 ->
    numeral (string_of_list_ascii (before ++ "+"%char :: body ++ after)) z
| numeral_minus before body after z n :
    Forall blank before -> Forall blank after ->
    digits body z n -> n <= 4300 ->
    numeral (string_of_list_ascii (before ++ "-"%char :: body ++ after))
            (- z).

(** The number a label stands for. *)
Definition denotes (v : value) (z : Z) : Prop :=
  match v with
  | VInt x => x = z
  | VStr s => numeral s z
  end.

Definition raises {A} (c : result A) : Prop := exists e, c = Raise e.

Import prepare.

(** The labels with at least [LOW_VOLUME_MIN_COUNT] rows among [low]. *)
Definition large_enough_labels (df : DataFrame) (low : list value)
  : list value :=
  List.filter (fun l => LOW_VOLUME_MIN_COUNT <=? count l (labels df)) low.

(** Where the extended history starts. *)
Definition low_vol_start (cfg : Config) (start : Z) : Z :=
  (start - (LOW_VOLUME_PERIOD cfg - TRAINING_PERIOD cfg) * day_us)%Z.

(** [i in inds], for a list of positions. *)
Definition mem (inds : list nat) (i : nat) : bool := existsb (Nat.eqb i) inds.

(** The rows at position [i] and label [c]. *)
Definition at_label (y : list value) (c : value) (i : nat) : bool :=
  match nth_error y i with
  | Some v => value_eqb v c
  | None => false
  end.

(** A class all of whose rows satisfy [P], or none. *)
Definition pure_class (P : nat -> bool) (idx : list nat) : Prop :=
  (forall i, In i idx -> P i = true) \/ (forall i, In i idx -> P i = false).

(** What [update_label] is to make of one row: index, id and text are
    kept; a label of [old_labels] gives way to [new_label], any other label
    to the number it stands for. *)
Definition normalised (old_labels : list value) (new_label : Z)
           (r r' : row) : Prop :=
  fst r' = fst r /\ id (snd r') = id (snd r) /\ text (snd r') = text (snd r) /\
  (In (label (snd r)) old_labels -> label (snd r') = VInt new_label) /\
  (~ In (label (snd r)) old_labels ->
   exists z, denotes (label (snd r)) z /\ label (snd r') = VInt z).

(** What [update_label] makes of one row. *)
Definition relabelled (old_labels : list value) (new_label : Z)
           (r r' : row) : Prop :=
  fst r' = fst r /\ id (snd r') = id (snd r) /\ text (snd r') = text (snd r) /\
  (In (label (snd r)) old_labels -> label (snd r') = VInt new_label) /\
  (~ In (label (snd r)) old_labels ->
   exists z, int (label (snd r)) = Ok z /\ label (snd r') = VInt z).

(** The statements of a trace of the client, and the seconds slept. *)
Definition statements (tr : list db.event) : nat :=
  List.length (List.filter (fun ev => match ev with
                                      | db.Execute _ _ => true
                                      | db.Sleep _ => false
                                      end) tr).

Definition slept (tr : list db.event) : nat :=
  list_sum (map (fun ev => match ev with
                           | db.Execute _ _ => 0
                           | db.Sleep n => n
                           end) tr).

(** The state after [k] resuming answers in a row to the priming
    statement, if that is what the service gives. *)
Fixpoint resuming {R} (rds : db.Rds R) (k : nat) (s : db.state rds)
  : option (db.state rds) :=
  match k with
  | 0 => Some s
  | S k' =>
      match db.execute_statement rds s "SELECT 1" [] with
      | (db.DatabaseResuming, s') => resuming rds k' s'
      | _ => None
      end
  end.

(** What [k] attempts on a resuming database leave in the trace. *)
Definition waits (k : nat) : list db.event :=
  List.concat (repeat [db.Execute "SELECT 1" []; db.Sleep 3] k).

(** The parameters of the [k]-th page: the first one moved by [k] times the
    page size. *)
Definition page_params (params : list db.param) (k : nat) : list db.param :=
  match params with
  | p :: rest =>
      db.Param (db.name p) (db.longValue p + tickets.limit * Z.of_nat k) :: rest
  | [] => []
  end.

(** The group ids that reach the statement. *)
Definition ids_of (group_ids : option (list Z)) : list Z :=
  match group_ids with
  | Some ids => ids
  | None => []
  end.

(** The text of the statement for [n] group ids. *)
Definition statement_text (n : nat) : string :=
  fst (tickets.statement 0 0 (Some (repeat 0%Z n))).

(** What identifies a ticket in a frame: its index label, its id and its
    text. *)
Definition ticket_key (r : row) : nat * value * string :=
  (fst r, id (snd r), text (snd r)).

(* ================================================================== *)
(** * Rounding to binary64 *)

Module Float64Facts.

Import Float64.

Local Open Scope Q_scope.

Local Unset Implicit Arguments.

Lemma pow2_pos k : 0 < pow2 k.
Proof. apply Qpower_0_lt. reflexivity. Qed.

Lemma pow2_plus a b : pow2 (a + b) == pow2 a * pow2 b.
Proof. apply Qpower_plus. discriminate. Qed.

Lemma pow2_lt a b : (a < b)%Z -> pow2 a < pow2 b.
Proof. intro H. apply Qpower_lt_compat_l; [assumption|reflexivity]. Qed.

Lemma pow2_le a b : (a <= b)%Z -> pow2 a <= pow2 b.
Proof. intro H. apply Qpower_le_compat_l; [assumption|discriminate]. Qed.

Lemma pow2_lt_inv a b : pow2 a < pow2 b -> (a < b)%Z.
Proof. intro H. eapply Qpower_lt_compat_l_inv; [eassumption|reflexivity]. Qed.

Lemma pow2_le_inv a b : pow2 a <= pow2 b -> (a <= b)%Z.
Proof. intro H. eapply Qpower_le_compat_l_inv; [eassumption|reflexivity]. Qed.

Lemma pow2_int k : (0 <= k)%Z -> pow2 k == inject_Z (2 ^ k).
Proof. intro H. unfold pow2. now rewrite Zpower_Qpower. Qed.

Lemma pow2_0 : pow2 0 == 1.
Proof. reflexivity. Qed.

Lemma pow2_opp k : pow2 (- k) == / pow2 k.
Proof. apply Qpower_opp. Qed.

Lemma pow2_cancel k : pow2 k * pow2 (- k) == 1.
Proof.
  rewrite <- pow2_plus. replace (k + - k)%Z with 0%Z by lia. reflexivity.
Qed.

Lemma Q_num_den (x : Q) : x * inject_Z (Zpos (Qden x)) == inject_Z (Qnum x).
Proof.
  destruct x as [a b]. unfold Qeq, Qmult, inject_Z. cbn. lia.
Qed.

Lemma ilog2_spec x : 0 < x -> pow2 (ilog2 x) <= x /\ x < pow2 (ilog2 x + 1).
Proof.
  intro Hx. unfold ilog2.
  set (a := Qnum x). set (b := Zpos (Qden x)).
  assert (Ha : (0 < a)%Z).
  { destruct x as [n d]. unfold Qlt in Hx. cbn in *. subst a. cbn. lia. }
  assert (Hb : (0 < b)%Z) by (subst b; lia).
  pose proof (Z.log2_spec a Ha) as [La Ua].
  pose proof (Z.log2_spec b Hb) as [Lb Ub].
  pose proof (Z.log2_nonneg a) as Na. pose proof (Z.log2_nonneg b) as Nb.
  set (la := Z.log2 a) in *. set (lb := Z.log2 b) in *.
  assert (Exb : x * inject_Z b == inject_Z a) by apply Q_num_den.
  assert (Pb : 0 < inject_Z b)
    by (change 0 with (inject_Z 0); rewrite <- Zlt_Qlt; exact Hb).
  (* bounds on b and a as rationals *)
  assert (Qa1 : pow2 la <= inject_Z a)
    by (rewrite pow2_int by assumption; rewrite <- Zle_Qle; exact La).
  assert (Qa2 : inject_Z a < pow2 (la + 1))
    by (rewrite pow2_int by lia; rewrite <- Zlt_Qlt;
        replace (la + 1)%Z with (Z.succ la) by lia; exact Ua).
  assert (Qb1 : pow2 lb <= inject_Z b)
    by (rewrite pow2_int by assumption; rewrite <- Zle_Qle; exact Lb).
  assert (Qb2 : inject_Z b < pow2 (lb + 1))
    by (rewrite pow2_int by lia; rewrite <- Zlt_Qlt;
        replace (lb + 1)%Z with (Z.succ lb) by lia; exact Ub).
  (* x < pow2 (la - lb + 1) *)
  assert (Up : x < pow2 (la - lb + 1)).
  { apply (Qmult_lt_r _ _ (pow2 lb) (pow2_pos lb)).
    rewrite <- pow2_plus. replace (la - lb + 1 + lb)%Z with (la + 1)%Z by lia.
    apply Qle_lt_trans with (x * inject_Z b).
    - apply Qmult_le_l; [assumption|assumption].
    - now rewrite Exb. }
  (* pow2 (la - lb - 1) < x *)
  assert (Lo : pow2 (la - lb - 1) < x).
  { apply (Qmult_lt_r _ _ (pow2 (lb + 1)) (pow2_pos _)).
    rewrite <- pow2_plus. replace (la - lb - 1 + (lb + 1))%Z with la by lia.
    apply Qle_lt_trans with (x * inject_Z b).
    - now rewrite Exb.
    - apply Qmult_lt_l; assumption. }
  destruct (Qle_bool (pow2 (la - lb)) x) eqn:E.
  - apply Qle_bool_iff in E. split; assumption.
  - assert (E' : x < pow2 (la - lb)).
    { apply Qnot_le_lt. intro H. apply Qle_bool_iff in H. congruence. }
    replace (la - lb - 1 + 1)%Z with (la - lb)%Z by lia.
    split; [now apply Qlt_le_weak|assumption].
Qed.

Lemma ilog2_unique x e :
  pow2 e <= x -> x < pow2 (e + 1) -> ilog2 x = e.
Proof.
  intros L U.
  assert (Hx : 0 < x) by (eapply Qlt_le_trans; [apply pow2_pos|eassumption]).
  destruct (ilog2_spec x Hx) as [L' U'].
  assert (pow2 e < pow2 (ilog2 x + 1)) by (eapply Qle_lt_trans; eassumption).
  assert (pow2 (ilog2 x) < pow2 (e + 1)) by (eapply Qle_lt_trans; eassumption).
  apply pow2_lt_inv in H, H0. lia.
Qed.

Lemma ilog2_mono x y : 0 < x -> x <= y -> (ilog2 x <= ilog2 y)%Z.
Proof.
  intros Hx Hxy.
  assert (Hy : 0 < y) by (eapply Qlt_le_trans; eassumption).
  destruct (ilog2_spec x Hx) as [L _]. destruct (ilog2_spec y Hy) as [_ U].
  assert (pow2 (ilog2 x) < pow2 (ilog2 y + 1)).
  { eapply Qle_lt_trans; [eassumption|]. eapply Qle_lt_trans; eassumption. }
  apply pow2_lt_inv in H. lia.
Qed.

(* ---------- nearest integer ---------- *)

Lemma floor_bounds x : inject_Z (Qfloor x) <= x /\ x < inject_Z (Qfloor x) + 1.
Proof.
  split; [apply Qfloor_le|].
  pose proof (Qlt_floor x) as H. rewrite inject_Z_plus in H. exact H.
Qed.

Lemma floor_unique x m : inject_Z m <= x -> x < inject_Z m + 1 -> Qfloor x = m.
Proof.
  intros L U. destruct (floor_bounds x) as [L' U'].
  assert (H1 : inject_Z m < inject_Z (Qfloor x) + 1) by lra.
  assert (H2 : inject_Z (Qfloor x) < inject_Z m + 1) by lra.
  change 1 with (inject_Z 1) in H1, H2.
  rewrite <- inject_Z_plus, <- Zlt_Qlt in H1, H2. lia.
Qed.

Lemma rhe_cases x :
  let f := Qfloor x in
  (round_half_even x = f /\ x - inject_Z f <= 1 # 2) \/
  (round_half_even x = (f + 1)%Z /\ 1 # 2 <= x - inject_Z f).
Proof.
  cbv zeta. unfold round_half_even.
  destruct (Qcompare_spec (x - inject_Z (Qfloor x)) (1 # 2)) as [E|E|E].
  - destruct (Z.even (Qfloor x)); [left|right]; split; try reflexivity;
      rewrite E; apply Qle_refl.
  - left. split; [reflexivity|now apply Qlt_le_weak].
  - right. split; [reflexivity|now apply Qlt_le_weak].
Qed.

Lemma rhe_err x :
  inject_Z (round_half_even x) - (1 # 2) <= x /\
  x <= inject_Z (round_half_even x) + (1 # 2).
Proof.
  destruct (floor_bounds x) as [L U].
  destruct (rhe_cases x) as [[-> H]|[-> H]].
  - lra.
  - rewrite inject_Z_plus. change (inject_Z 1) with 1. lra.
Qed.

Lemma rhe_near x m :
  inject_Z m <= x -> x < inject_Z m + (1 # 2) -> round_half_even x = m.
Proof.
  intros L U. assert (F : Qfloor x = m) by (apply floor_unique; lra).
  unfold round_half_even. rewrite F.
  destruct (Qcompare_spec (x - inject_Z m) (1 # 2)) as [E|E|E];
    [lra|reflexivity|lra].
Qed.

Lemma rhe_int z : round_half_even (inject_Z z) = z.
Proof. apply rhe_near; lra. Qed.

Lemma rhe_mono x y : x <= y -> (round_half_even x <= round_half_even y)%Z.
Proof.
  intro H. pose proof (Qfloor_resp_le _ _ H) as F.
  destruct (Z.eq_dec (Qfloor x) (Qfloor y)) as [E|N].
  - unfold round_half_even. rewrite E.
    destruct (Qcompare_spec (x - inject_Z (Qfloor y)) (1 # 2)) as [E1|E1|E1];
    destruct (Qcompare_spec (y - inject_Z (Qfloor y)) (1 # 2)) as [E2|E2|E2];
      try lia; try lra; destruct (Z.even (Qfloor y)); lia.
  - destruct (rhe_cases x) as [[-> _]|[-> _]];
    destruct (rhe_cases y) as [[-> _]|[-> _]]; lia.
Qed.

(* ---------- rounding a positive number ---------- *)

Lemma scaled_bounds x :
  0 < x ->
  inject_Z (2 ^ 52) <= x / pow2 (ilog2 x - 52) /\
  x / pow2 (ilog2 x - 52) < inject_Z (2 ^ 53).
Proof.
  intro Hx. destruct (ilog2_spec x Hx) as [L U].
  set (e := ilog2 x) in *.
  pose proof (pow2_pos (e - 52)) as P.
  rewrite <- !pow2_int by lia. split.
  - apply Qle_shift_div_l; [assumption|].
    rewrite <- pow2_plus. now replace (52 + (e - 52))%Z with e by lia.
  - apply Qlt_shift_div_r; [assumption|].
    rewrite <- pow2_plus. now replace (53 + (e - 52))%Z with (e + 1)%Z by lia.
Qed.

Lemma round_pos_bounds x :
  0 < x ->
  pow2 (ilog2 x) <= round_pos x /\ round_pos x <= pow2 (ilog2 x + 1).
Proof.
  intro Hx. destruct (scaled_bounds x Hx) as [L U].
  unfold round_pos. set (e := ilog2 x) in *.
  set (y := x / pow2 (e - 52)) in *.
  pose proof (pow2_pos (e - 52)) as P.
  assert (Lm : (2 ^ 52 <= round_half_even y)%Z).
  { rewrite <- (rhe_int (2 ^ 52)). now apply rhe_mono. }
  assert (Um : (round_half_even y <= 2 ^ 53)%Z).
  { rewrite <- (rhe_int (2 ^ 53)). apply rhe_mono. now apply Qlt_le_weak. }
  rewrite Zle_Qle in Lm, Um. rewrite <- !pow2_int in Lm, Um by lia.
  split.
  - replace e with (52 + (e - 52))%Z at 1 by lia. rewrite pow2_plus.
    apply Qmult_le_r; assumption.
  - replace (e + 1)%Z with (53 + (e - 52))%Z by lia. rewrite pow2_plus.
    apply Qmult_le_r; assumption.
Qed.

Lemma round_pos_mono x y : 0 < x -> x <= y -> round_pos x <= round_pos y.
Proof.
  intros Hx Hxy.
  assert (Hy : 0 < y) by (eapply Qlt_le_trans; eassumption).
  pose proof (ilog2_mono x y Hx Hxy) as He.
  destruct (Z.eq_dec (ilog2 x) (ilog2 y)) as [E|N].
  - unfold round_pos. rewrite E.
    pose proof (pow2_pos (ilog2 y - 52)) as P.
    apply Qmult_le_r; [assumption|]. rewrite <- Zle_Qle. apply rhe_mono.
    unfold Qdiv. apply Qmult_le_r; [now apply Qinv_lt_0_compat|assumption].
  - destruct (round_pos_bounds x Hx) as [_ U].
    destruct (round_pos_bounds y Hy) as [L _].
    apply Qle_trans with (pow2 (ilog2 x + 1)); [assumption|].
    apply Qle_trans with (pow2 (ilog2 y)); [|assumption].
    apply pow2_le. lia.
Qed.

Lemma round_pos_err x :
  0 < x ->
  round_pos x - pow2 (ilog2 x - 53) <= x /\
  x <= round_pos x + pow2 (ilog2 x - 53).
Proof.
  intro Hx. unfold round_pos. set (e := ilog2 x).
  pose proof (pow2_pos (e - 52)) as P.
  set (y := x / pow2 (e - 52)).
  assert (Ey : x == y * pow2 (e - 52)).
  { unfold y. field. intro H. rewrite H in P. discriminate. }
  assert (Eh : pow2 (e - 53) == (1 # 2) * pow2 (e - 52)).
  { replace (e - 53)%Z with (-1 + (e - 52))%Z by lia. now rewrite pow2_plus. }
  destruct (rhe_err y) as [L U].
  assert (H1 : (inject_Z (round_half_even y) - (1 # 2)) * pow2 (e - 52)
               <= y * pow2 (e - 52)) by (apply Qmult_le_r; assumption).
  assert (H2 : y * pow2 (e - 52)
               <= (inject_Z (round_half_even y) + (1 # 2)) * pow2 (e - 52))
    by (apply Qmult_le_r; assumption).
  rewrite <- Ey in H1, H2. rewrite Eh. split.
  - eapply Qle_trans; [|exact H1]. apply Qle_lteq. right. ring.
  - eapply Qle_trans; [exact H2|]. apply Qle_lteq. right. ring.
Qed.

Lemma round_pos_exact (m e : Z) :
  (2 ^ 52 <= m < 2 ^ 53)%Z ->
  round_pos (inject_Z m * pow2 e) == inject_Z m * pow2 e.
Proof.
  intros [L U].
  assert (Il : ilog2 (inject_Z m * pow2 e) = (52 + e)%Z).
  { apply ilog2_unique.
    - rewrite pow2_plus. apply Qmult_le_r; [apply pow2_pos|].
      rewrite pow2_int by lia. now rewrite <- Zle_Qle.
    - replace (52 + e + 1)%Z with (53 + e)%Z by lia. rewrite pow2_plus.
      apply Qmult_lt_r; [apply pow2_pos|].
      rewrite pow2_int by lia. now rewrite <- Zlt_Qlt. }
  unfold round_pos. rewrite Il. replace (52 + e - 52)%Z with e by lia.
  pose proof (pow2_pos e) as P.
  assert (E : inject_Z m * pow2 e / pow2 e == inject_Z m).
  { field. intro H. rewrite H in P. discriminate. }
  assert (R : round_half_even (inject_Z m * pow2 e / pow2 e) = m).
  { apply rhe_near; rewrite E; lra. }
  now rewrite R.
Qed.

(* ---------- rounding ---------- *)

Lemma Qnum_pos x : 0 < x <-> (0 < Qnum x)%Z.
Proof. unfold Qlt. cbn. rewrite Z.mul_1_r. reflexivity. Qed.

Lemma Qnum_neg x : x < 0 <-> (Qnum x < 0)%Z.
Proof. unfold Qlt. cbn. rewrite Z.mul_1_r. reflexivity. Qed.

Lemma round_of_pos x : 0 < x -> round x = round_pos x.
Proof.
  intro H. apply Qnum_pos in H. unfold round.
  destruct (Qnum x); try lia. reflexivity.
Qed.

Lemma round_of_neg x : x < 0 -> round x = - round_pos (- x).
Proof.
  intro H. apply Qnum_neg in H. unfold round.
  destruct (Qnum x); try lia. reflexivity.
Qed.

Lemma round_of_zero x : x == 0 -> round x = 0.
Proof.
  intro H. unfold round. assert (E : Qnum x = 0%Z).
  { unfold Qeq in H. cbn in H. lia. }
  now rewrite E.
Qed.

Lemma round_pos_positive x : 0 < x -> 0 < round_pos x.
Proof.
  intro H. destruct (round_pos_bounds x H) as [L _].
  eapply Qlt_le_trans; [apply pow2_pos|exact L].
Qed.

Lemma round_sign x :
  (0 < x -> 0 < round x) /\ (x < 0 -> round x < 0) /\ (x == 0 -> round x == 0).
Proof.
  split; [|split]; intro H.
  - rewrite round_of_pos by assumption. now apply round_pos_positive.
  - rewrite round_of_neg by assumption.
    assert (P : 0 < - x) by lra. apply round_pos_positive in P. lra.
  - rewrite round_of_zero by assumption. reflexivity.
Qed.

Lemma round_mono x y : x <= y -> round x <= round y.
Proof.
  intro H.
  destruct (Q_dec x 0) as [[Nx|Px]|Zx]; destruct (Q_dec y 0) as [[Ny|Py]|Zy];
    try lra.
  - rewrite (@round_of_neg x Nx), (@round_of_neg y Ny).
    assert (M : round_pos (- y) <= round_pos (- x))
      by (apply round_pos_mono; lra). lra.
  - pose proof (proj1 (proj2 (round_sign x)) Nx).
    pose proof (proj1 (round_sign y) Py). lra.
  - pose proof (proj1 (proj2 (round_sign x)) Nx).
    pose proof (proj2 (proj2 (round_sign y)) Zy). lra.
  - rewrite (@round_of_pos x Px), (@round_of_pos y Py).
    now apply round_pos_mono.
  - pose proof (proj2 (proj2 (round_sign x)) Zx).
    pose proof (proj1 (round_sign y) Py). lra.
  - rewrite (@round_of_zero x Zx), (@round_of_zero y Zy). apply Qle_refl.
Qed.

Lemma round_compat x y : x == y -> round x == round y.
Proof. intro H. apply Qle_antisym; apply round_mono; lra. Qed.

#[export] Instance round_proper : Proper (Qeq ==> Qeq) round.
Proof. intros x y H. now apply round_compat. Qed.

Lemma round_int (z : Z) :
  (0 <= z < 2 ^ 53)%Z -> round (inject_Z z) == inject_Z z.
Proof.
  intros [L U]. destruct (Z.eq_dec z 0) as [->|N]; [reflexivity|].
  assert (P : (0 < z)%Z) by lia.
  pose proof (Z.log2_spec z P) as [Ll Lu].
  pose proof (Z.log2_nonneg z) as Ln.
  set (k := Z.log2 z) in *.
  assert (Hk : (k < 53)%Z).
  { apply (Z.pow_lt_mono_r_iff 2); lia. }
  set (m := (z * 2 ^ (52 - k))%Z).
  assert (E : inject_Z z == inject_Z m * pow2 (k - 52)).
  { unfold m. rewrite inject_Z_mult, <- pow2_int by lia.
    rewrite <- Qmult_assoc, <- pow2_plus.
    replace (52 - k + (k - 52))%Z with 0%Z by lia. rewrite pow2_0. ring. }
  rewrite E at 1. rewrite round_of_pos.
  2:{ apply Qmult_lt_0_compat; [|apply pow2_pos].
      change 0 with (inject_Z 0). rewrite <- Zlt_Qlt. unfold m.
      apply Z.mul_pos_pos; [assumption|]. apply Z.pow_pos_nonneg; lia. }
  rewrite round_pos_exact; [now rewrite E|].
  unfold m. split.
  - replace 52%Z with (k + (52 - k))%Z at 1 by lia.
    rewrite Z.pow_add_r by lia. apply Z.mul_le_mono_nonneg_r; [|assumption].
    apply Z.pow_nonneg; lia.
  - replace 53%Z with (Z.succ k + (52 - k))%Z by lia.
    rewrite Z.pow_add_r by lia. apply Z.mul_lt_mono_pos_r; [|assumption].
    apply Z.pow_pos_nonneg; lia.
Qed.

Lemma round_err x :
  0 < x ->
  round x - pow2 (ilog2 x - 53) <= x /\ x <= round x + pow2 (ilog2 x - 53).
Proof. intro H. rewrite round_of_pos by assumption. now apply round_pos_err. Qed.

(* ---------- the test size at one tenth ---------- *)

Lemma ceil_unique x m : inject_Z m - 1 < x -> x <= inject_Z m -> Qceiling x = m.
Proof.
  intros L U. unfold Qceiling.
  assert (F : Qfloor (- x) = (- m)%Z).
  { apply floor_unique; rewrite inject_Z_opp; lra. }
  rewrite F. lia.
Qed.

Lemma ilog2_le x k : 0 < x -> x < pow2 (k + 1) -> (ilog2 x <= k)%Z.
Proof.
  intros P H. destruct (ilog2_spec x P) as [L _].
  assert (Hl : pow2 (ilog2 x) < pow2 (k + 1)) by lra.
  apply pow2_lt_inv in Hl. lia.
Qed.

Lemma tenth_round_multiple (k : Z) :
  (0 < k < 2 ^ 50)%Z ->
  round (tenth * inject_Z (10 * k)) == inject_Z k.
Proof.
  intros [Pk Uk].
  pose proof (Z.log2_spec k Pk) as [Ll Lu].
  pose proof (Z.log2_nonneg k) as Ln.
  set (e := Z.log2 k) in *.
  assert (He : (e < 50)%Z) by (apply (Z.pow_lt_mono_r_iff 2); lia).
  set (x := tenth * inject_Z (10 * k)).
  assert (Ex : x == inject_Z k + inject_Z k * pow2 (-54)).
  { unfold x, tenth. rewrite inject_Z_mult.
    change (pow2 (-54)) with (1 # 18014398509481984).
    change (inject_Z 10) with (10 # 1). field. }
  assert (Kq : pow2 e <= inject_Z k /\ inject_Z k + 1 <= pow2 (e + 1)).
  { rewrite !pow2_int by lia. change 1 with (inject_Z 1) at 1.
    rewrite <- inject_Z_plus, <- !Zle_Qle. 
    replace (e + 1)%Z with (Z.succ e) by lia. lia. }
  destruct Kq as [Kl Ku].
  assert (Px : 0 < x).
  { rewrite Ex. pose proof (pow2_pos e).
    change (pow2 (-54)) with (1 # 18014398509481984). lra. }
  assert (Small : inject_Z k * pow2 (-54) < pow2 (e - 53)).
  { replace (e - 53)%Z with (e + 1 + (-54))%Z by lia. rewrite pow2_plus.
    apply Qmult_lt_r; [apply pow2_pos|]. lra. }
  assert (Il : ilog2 x = e).
  { pose proof (pow2_pos e). apply ilog2_unique.
    - rewrite Ex. change (pow2 (-54)) with (1 # 18014398509481984). lra.
    - rewrite Ex.
      assert (pow2 (e - 53) <= 1).
      { rewrite <- pow2_0. apply pow2_le. lia. }
      lra. }
  rewrite round_of_pos by assumption. unfold round_pos. rewrite Il.
  set (m := (k * 2 ^ (52 - e))%Z).
  assert (Em : inject_Z k == inject_Z m * pow2 (e - 52)).
  { unfold m. rewrite inject_Z_mult, <- pow2_int by lia.
    rewrite <- Qmult_assoc, <- pow2_plus.
    replace (52 - e + (e - 52))%Z with 0%Z by lia. rewrite pow2_0. ring. }
  pose proof (pow2_pos (e - 52)) as Pp.
  assert (R : round_half_even (x / pow2 (e - 52)) = m).
  { apply rhe_near.
    - apply Qle_shift_div_l; [assumption|]. rewrite <- Em, Ex.
      pose proof (pow2_pos (-54)).
      assert (0 <= inject_Z k * pow2 (-54)).
      { apply Qmult_le_0_compat; [|lra].
        change 0 with (inject_Z 0). rewrite <- Zle_Qle. lia. }
      lra.
    - apply Qlt_shift_div_r; [assumption|].
      rewrite Qmult_plus_distr_l, <- Em, Ex.
      assert (Eh : (1 # 2) * pow2 (e - 52) == pow2 (e - 53)).
      { replace (e - 53)%Z with (-1 + (e - 52))%Z by lia.
        now rewrite pow2_plus. }
      rewrite Eh. lra. }
  rewrite R. now rewrite Em.
Qed.

Lemma tenth_round_between (k j : Z) :
  (0 <= k < 2 ^ 50 - 1)%Z -> (0 < j < 10)%Z ->
  inject_Z k < round (tenth * inject_Z (10 * k + j)) /\
  round (tenth * inject_Z (10 * k + j)) <= inject_Z (k + 1).
Proof.
  intros [Lk Uk] [Lj Uj].
  set (x := tenth * inject_Z (10 * k + j)).
  assert (Kz : 0 <= inject_Z k /\ inject_Z k + 2 <= inject_Z (2 ^ 50)).
  { split.
    - change 0 with (inject_Z 0). rewrite <- Zle_Qle. lia.
    - change 2 with (inject_Z 2). rewrite <- inject_Z_plus, <- Zle_Qle. lia. }
  assert (Jz : 1 <= inject_Z j /\ inject_Z j <= 9).
  { change 1 with (inject_Z 1). change 9 with (inject_Z 9).
    rewrite <- !Zle_Qle. lia. }
  destruct Kz as [K0 K1]. destruct Jz as [J0 J1].
  change (inject_Z (2 ^ 50)) with (1125899906842624 # 1) in K1.
  assert (Ex : x == (inject_Z k + inject_Z j / 10)
                    * (1 + (1 # 18014398509481984))).
  { unfold x, tenth. rewrite inject_Z_plus, inject_Z_mult.
    change (inject_Z 10) with (10 # 1). field. }
  assert (Xl : inject_Z k + (1 # 10) <= x).
  { rewrite Ex.
    assert (H : inject_Z k + (1 # 10) <= inject_Z k + inject_Z j / 10).
    { apply Qplus_le_r. apply Qle_shift_div_l; lra. }
    assert (H2 : 0 <= (inject_Z k + inject_Z j / 10) * (1 # 18014398509481984)).
    { apply Qmult_le_0_compat; lra. }
    lra. }
  assert (Xu : x <= inject_Z k + 1).
  { rewrite Ex.
    assert (H : inject_Z k + inject_Z j / 10 <= inject_Z k + (9 # 10)).
    { apply Qplus_le_r. apply Qle_shift_div_r; lra. }
    set (a := inject_Z k + inject_Z j / 10) in *.
    lra. }
  assert (Px : 0 < x) by lra.
  split.
  - destruct (@round_err x Px) as [_ U].
    assert (Il : (ilog2 x <= 49)%Z).
    { apply ilog2_le; [assumption|].
      change (pow2 (49 + 1)) with (1125899906842624 # 1). lra. }
    assert (Hp : pow2 (ilog2 x - 53) <= 1 # 16).
    { change (1 # 16) with (pow2 (-4)). apply pow2_le. lia. }
    lra.
  - rewrite <- (@round_int (k + 1)) by lia.
    apply round_mono. rewrite inject_Z_plus. exact Xu.
Qed.

Lemma ceil_tenth (n : Z) :
  (0 <= n < 2 ^ 53)%Z ->
  ceil (round (tenth * round (inject_Z n))) = ((n + 9) / 10)%Z.
Proof.
  intros [L U].
  assert (En : round (tenth * round (inject_Z n)) == round (tenth * inject_Z n)).
  { apply round_compat. now rewrite round_int by lia. }
  unfold ceil. rewrite En. clear En.
  pose proof (Z.div_mod n 10 ltac:(lia)) as D.
  pose proof (Z.mod_pos_bound n 10 ltac:(lia)) as B.
  set (k := (n / 10)%Z) in *. set (j := (n mod 10)%Z) in *.
  assert (Uk : (k < 2 ^ 50 - 1)%Z).
  { change (2 ^ 53)%Z with 9007199254740992%Z in U.
    change (2 ^ 50 - 1)%Z with 1125899906842623%Z. lia. }
  assert (Lk : (0 <= k)%Z) by lia.
  destruct (Z.eq_dec j 0) as [J|J].
  - assert (Q : ((n + 9) / 10 = k)%Z).
    { symmetry. apply (Z.div_unique (n + 9) 10 k 9); lia. }
    rewrite Q. replace n with (10 * k)%Z by lia.
    destruct (Z.eq_dec k 0) as [->|K].
    + reflexivity.
    + rewrite tenth_round_multiple by lia. apply Qceiling_Z.
  - assert (Q : ((n + 9) / 10 = k + 1)%Z).
    { symmetry. apply (Z.div_unique (n + 9) 10 (k + 1) (j - 1)); lia. }
    rewrite Q, D.
    destruct (@tenth_round_between k j) as [A C]; try lia.
    apply ceil_unique; [|exact C]. rewrite inject_Z_plus.
    change (inject_Z 1) with 1. lra.
Qed.

Lemma ltb_lt x y : ltb x y = true <-> x < y.
Proof.
  unfold ltb. rewrite negb_true_iff. split.
  - intro H. apply Qnot_le_lt. intro L. apply Qle_bool_iff in L. congruence.
  - intro H. destruct (Qle_bool y x) eqn:E; [|reflexivity].
    apply Qle_bool_iff in E. exfalso. now apply (Qlt_not_le x y).
Qed.

Lemma round_nonneg x : 0 <= x -> 0 <= round x.
Proof. intro H. change 0 with (round 0) at 1. now apply round_mono. Qed.

Lemma round_one : round 1 == 1.
Proof. apply (round_int 1). lia. Qed.

Lemma of_int_exact z : (0 <= z < 2 ^ 53)%Z -> of_int z == inject_Z z.
Proof. apply round_int. Qed.

Lemma of_int_pos z : (0 < z)%Z -> 0 < of_int z.
Proof.
  intro H. apply round_sign. change 0 with (inject_Z 0). now rewrite <- Zlt_Qlt.
Qed.

Lemma of_int_mono a b : (a <= b)%Z -> of_int a <= of_int b.
Proof. intro H. apply round_mono. now rewrite <- Zle_Qle. Qed.

Lemma of_int_nonneg z : (0 <= z)%Z -> 0 <= of_int z.
Proof.
  intro H. apply round_nonneg. change 0 with (inject_Z 0). now rewrite <- Zle_Qle.
Qed.

Lemma div_nonneg x y : 0 <= x -> 0 <= y -> 0 <= div x y.
Proof.
  intros Hx Hy. apply round_nonneg. unfold Qdiv.
  apply Qmult_le_0_compat; [assumption|]. now apply Qinv_le_0_compat.
Qed.

Lemma div_pos x y : 0 < x -> 0 < y -> 0 < div x y.
Proof.
  intros Hx Hy. apply round_sign. apply Qlt_shift_div_l; [assumption|]. lra.
Qed.

Lemma div_le_1 x y : 0 < y -> x <= y -> div x y <= 1.
Proof.
  intros Hy H. unfold div. rewrite <- round_one. apply round_mono.
  apply Qle_shift_div_r; [assumption|]. lra.
Qed.

(** The share of [c] rows among [n], as the floats give it. *)
Lemma share_bounds (c n : Z) :
  (0 < c <= n)%Z ->
  0 < div (of_int c) (of_int n) /\ div (of_int c) (of_int n) <= 1.
Proof.
  intros [Hc Hn]. split.
  - apply div_pos; apply of_int_pos; lia.
  - apply div_le_1; [apply of_int_pos; lia | now apply of_int_mono].
Qed.

Lemma share_exact (c n : Z) :
  (0 <= c <= n)%Z -> (0 < n < 2 ^ 53)%Z ->
  div (of_int c) (of_int n) == round (c # Z.to_pos n).
Proof.
  intros Hc Hn. unfold div. apply round_compat.
  rewrite !of_int_exact by lia.
  rewrite (Qmake_Qdiv c (Z.to_pos n)). rewrite Z2Pos.id by lia. reflexivity.
Qed.

End Float64Facts.

(** The rounding agrees with the floats of the machine on the numbers
    met below: the literals 0.1, 0.07, 0.28, 0.33 and 0.033, the products
    with a number of rows, the shares 5 / 6 and 6 / 18, and the seconds of
    the last microsecond of 2025-01-10. *)
Example rounding_on_the_machine :
  Binary64.holds (Binary64.quotient 1 10) Float64.tenth = true /\
  Binary64.holds (Binary64.quotient 1 10) (Float64.of_decimal (1 # 10))
  = true /\
  Binary64.holds (Binary64.quotient 33 1000) (Float64.of_decimal (33 # 1000))
  = true /\
  Binary64.holds (PrimFloat.mul (Binary64.quotient 7 100) (Binary64.of_int 100))
                 (Float64.mul (Float64.of_decimal (7 # 100))
                              (Float64.of_int 100)) = true /\
  Binary64.holds (PrimFloat.mul (Binary64.quotient 28 100) (Binary64.of_int 25))
                 (Float64.mul (Float64.of_decimal (28 # 100))
                              (Float64.of_int 25)) = true /\
  Binary64.holds (PrimFloat.mul (Binary64.quotient 33 100) (Binary64.of_int 18))
                 (Float64.mul (Float64.of_decimal (33 # 100))
                              (Float64.of_int 18)) = true /\
  Binary64.holds (PrimFloat.mul (Binary64.quotient 1 10)
                                (Binary64.of_int 106277334551479190))
                 (Float64.mul Float64.tenth
                              (Float64.of_int 106277334551479190)) = true /\
  Binary64.holds (Binary64.quotient 5 6)
                 (Float64.div (Float64.of_int 5) (Float64.of_int 6)) = true /\
  Binary64.holds (Binary64.quotient 8333333333333334 10000000000000000)
                 (Float64.of_decimal (8333333333333334 # 10000000000000000))
  = true /\
  Binary64.holds (Binary64.quotient 6 18)
                 (Float64.div (Float64.of_int 6) (Float64.of_int 18)) = true /\
  Binary64.holds (Binary64.quotient 1736553599999999 1000000)
                 (Float64.true_divide 1736553599999999 1000000) = true.
Proof. vm_compute. repeat split. Qed.

(* ================================================================== *)
(** * Values: equality and order *)

Lemma value_eqb_eq (a b : value) : value_eqb a b = true <-> a = b.
Proof.
  destruct a as [x|x], b as [y|y]; simpl; split; intro H;
    try discriminate; try congruence.
  - apply Z.eqb_eq in H. now subst.
  - inversion H. apply Z.eqb_refl.
  - apply String.eqb_eq in H. now subst.
  - inversion H. apply String.eqb_refl.
Qed.

Lemma value_eqb_refl (a : value) : value_eqb a a = true.
Proof. now apply value_eqb_eq. Qed.

Lemma value_eqb_neq (a b : value) : value_eqb a b = false <-> a <> b.
Proof.
  split; intro H.
  - intro E. apply value_eqb_eq in E. congruence.
  - destruct (value_eqb a b) eqn:E; [|reflexivity].
    apply value_eqb_eq in E. contradiction.
Qed.

Lemma value_eqb_sym (a b : value) : value_eqb a b = value_eqb b a.
Proof.
  destruct (value_eqb b a) eqn:E.
  - apply value_eqb_eq in E. subst. apply value_eqb_refl.
  - apply value_eqb_neq in E. apply value_eqb_neq. congruence.
Qed.

Lemma value_eq_dec (a b : value) : {a = b} + {a <> b}.
Proof.
  destruct (value_eqb a b) eqn:E.
  - left. now apply value_eqb_eq.
  - right. now apply value_eqb_neq.
Qed.

Lemma py_in_In (x : value) (l : list value) : py_in x l = true <-> In x l.
Proof.
  unfold py_in. rewrite existsb_exists. split.
  - intros [y [Hy E]]. apply value_eqb_eq in E. now subst.
  - intro H. exists x. split; [assumption | apply value_eqb_refl].
Qed.

Lemma py_in_not_In (x : value) (l : list value) :
  py_in x l = false <-> ~ In x l.
Proof.
  rewrite <- py_in_In. destruct (py_in x l); split; intro H;
    congruence || (exfalso; now apply H) || discriminate.
Qed.

Lemma string_compare_refl (s : string) : String.compare s s = Eq.
Proof.
  induction s as [|c s IH]; simpl; [reflexivity|].
  unfold Ascii.compare. now rewrite N.compare_refl.
Qed.

Lemma string_compare_Lt_trans (s1 s2 s3 : string) :
  String.compare s1 s2 = Lt -> String.compare s2 s3 = Lt ->
  String.compare s1 s3 = Lt.
Proof.
  revert s2 s3.
  induction s1 as [|c1 s1 IH]; intros [|c2 s2] [|c3 s3]; simpl;
    try discriminate; try reflexivity.
  unfold Ascii.compare.
  destruct (N.compare_spec (N_of_ascii c1) (N_of_ascii c2)) as [E12|L12|G12];
    try discriminate;
    destruct (N.compare_spec (N_of_ascii c2) (N_of_ascii c3)) as [E23|L23|G23];
    try discriminate; intros H12 H23.
  - rewrite E12, E23, N.compare_refl. eauto.
  - rewrite E12. now apply N.compare_lt_iff in L23 as ->.
  - rewrite <- E23. now apply N.compare_lt_iff in L12 as ->.
  - assert (L : (N_of_ascii c1 < N_of_ascii c3)%N) by lia.
    now apply N.compare_lt_iff in L as ->.
Qed.

Lemma string_leb_trans (s1 s2 s3 : string) :
  String.leb s1 s2 = true -> String.leb s2 s3 = true ->
  String.leb s1 s3 = true.
Proof.
  unfold String.leb.
  destruct (String.compare s1 s2) eqn:E12; try discriminate;
    destruct (String.compare s2 s3) eqn:E23; try discriminate; intros _ _.
  - apply String.compare_eq_iff in E12, E23. subst.
    now rewrite string_compare_refl.
  - apply String.compare_eq_iff in E12. subst. now rewrite E23.
  - apply String.compare_eq_iff in E23. subst. now rewrite E12.
  - now rewrite (string_compare_Lt_trans _ _ _ E12 E23).
Qed.

Lemma value_leb_total (a b : value) :
  value_leb a b = true \/ value_leb b a = true.
Proof.
  destruct a as [x|x], b as [y|y]; simpl; auto.
  - destruct (Z.leb_spec x y); [now left | right]. apply Z.leb_le. lia.
  - apply String.leb_total.
Qed.

Lemma value_leb_trans (a b c : value) :
  value_leb a b = true -> value_leb b c = true -> value_leb a c = true.
Proof.
  destruct a as [x|x], b as [y|y], c as [z|z]; simpl; try discriminate; auto.
  - rewrite !Z.leb_le. lia.
  - apply string_leb_trans.
Qed.

Lemma value_leb_antisym (a b : value) :
  value_leb a b = true -> value_leb b a = true -> a = b.
Proof.
  destruct a as [x|x], b as [y|y]; simpl; try discriminate.
  - rewrite !Z.leb_le. intros. f_equal. lia.
  - intros H1 H2. f_equal. now apply String.leb_antisym.
Qed.

Lemma uniform_same_kind (l : list value) :
  uniform l = true <->
  forall x y, In x l -> In y l -> same_kind x y = true.
Proof.
  assert (K : forall a b c, same_kind a b = true -> same_kind a c = true ->
                            same_kind b c = true)
    by (intros [|] [|] [|]; simpl; congruence).
  assert (R : forall a, same_kind a a = true) by (intros [|]; reflexivity).
  destruct l as [|h t]; simpl.
  - split; [intros _ x y [] | reflexivity].
  - rewrite forallb_forall. split.
    + intros H x y [Ex|Hx] [Ey|Hy]; rewrite <- ?Ex, <- ?Ey; auto.
      * apply K with h; auto.
      * apply K with h; auto.
    + intros H x Hx. apply H; auto.
Qed.

Lemma uniform_incl (l l' : list value) :
  incl l' l -> uniform l = true -> uniform l' = true.
Proof.
  rewrite !uniform_same_kind. intros I H x y Hx Hy. apply H; now apply I.
Qed.

(* ================================================================== *)
(** * Sorting *)

Section SortBy.

Variable A : Type.
Variable leb : A -> A -> bool.

Lemma insert_by_perm (x : A) (l : list A) :
  Permutation (insert_by leb x l) (x :: l).
Proof.
  induction l as [|y t IH]; simpl; [reflexivity|].
  destruct (leb x y); [reflexivity|].
  rewrite IH. apply perm_swap.
Qed.

Lemma sort_by_perm (l : list A) : Permutation (sort_by leb l) l.
Proof.
  induction l as [|x t IH]; simpl; [reflexivity|].
  rewrite insert_by_perm. now apply perm_skip.
Qed.

Lemma sort_by_length (l : list A) : List.length (sort_by leb l) = List.length l.
Proof. apply Permutation_length, sort_by_perm. Qed.

Lemma sort_by_In (x : A) (l : list A) : In x (sort_by leb l) <-> In x l.
Proof.
  split; apply Permutation_in; [|symmetry]; apply sort_by_perm.
Qed.

Hypothesis leb_total : forall a b, leb a b = true \/ leb b a = true.
Hypothesis leb_trans :
  forall a b c, leb a b = true -> leb b c = true -> leb a c = true.

Lemma insert_by_sorted (x : A) (l : list A) :
  StronglySorted (fun a b => leb a b = true) l ->
  StronglySorted (fun a b => leb a b = true) (insert_by leb x l).
Proof.
  induction 1 as [|y t St IH Hy]; simpl.
  - repeat constructor.
  - destruct (leb x y) eqn:E.
    + constructor; [now constructor|].
      constructor; [assumption|].
      rewrite Forall_forall in *. eauto.
    + constructor; [assumption|].
      rewrite Forall_forall in *. intros z Hz.
      apply (Permutation_in _ (insert_by_perm x t)) in Hz.
      destruct Hz as [<-|Hz]; [|auto].
      destruct (leb_total x y); congruence.
Qed.

Lemma sort_by_sorted (l : list A) :
  StronglySorted (fun a b => leb a b = true) (sort_by leb l).
Proof.
  induction l as [|x t IH]; simpl; [constructor | now apply insert_by_sorted].
Qed.

End SortBy.

Lemma StronglySorted_map {A B} (f : A -> B) (R : B -> B -> Prop) (l : list A) :
  StronglySorted (fun a b => R (f a) (f b)) l -> StronglySorted R (map f l).
Proof.
  induction 1 as [|x t St IH Hx]; simpl; constructor; auto.
  rewrite Forall_forall in *. intros y Hy.
  apply in_map_iff in Hy as [z [<- Hz]]. auto.
Qed.

Lemma sorted_nodup_ascending (l : list value) :
  StronglySorted (fun a b => value_leb a b = true) l -> NoDup l ->
  StronglySorted (fun a b => value_ltb a b = true) l.
Proof.
  induction 1 as [|x t St IH Hx]; intro N; constructor;
    inversion N as [|? ? Nx Nt]; subst; auto.
  rewrite Forall_forall in *. intros y Hy. unfold value_ltb.
  rewrite (Hx _ Hy). simpl. apply negb_true_iff, value_eqb_neq.
  intros ->. contradiction.
Qed.

Lemma ascending_NoDup (l : list value) : ascending l -> NoDup l.
Proof.
  intros [_ S]. induction S as [|x t St IH Hx]; constructor; auto.
  intro Hin. rewrite Forall_forall in Hx. specialize (Hx _ Hin).
  unfold value_ltb in Hx. rewrite value_eqb_refl, andb_false_r in Hx.
  discriminate.
Qed.

(* ================================================================== *)
(** * Columns: distinct values and counts *)

Lemma count_cons (x y : value) (col : list value) :
  count x (y :: col) = (if value_eqb x y then 1 else 0) + count x col.
Proof. unfold count. simpl. now destruct (value_eqb x y). Qed.

Lemma count_pos_In (x : value) (col : list value) :
  0 < count x col <-> In x col.
Proof.
  induction col as [|y t IH]; [cbn; split; [lia | intros []]|].
  rewrite count_cons. simpl.
  destruct (value_eqb x y) eqn:E.
  - apply value_eqb_eq in E. subst. split; [now left | lia].
  - apply value_eqb_neq in E. rewrite <- IH. split; [intro; right; lia|].
    intros [->|H]; [contradiction | lia].
Qed.

Lemma count_le_length (x : value) (col : list value) :
  count x col <= List.length col.
Proof. apply filter_length_le. Qed.

Lemma unique_In (x : value) (col : list value) :
  In x (unique col) <-> In x col.
Proof.
  induction col as [|y t IH]; simpl; [reflexivity|].
  rewrite filter_In, IH, negb_true_iff, value_eqb_neq.
  destruct (value_eq_dec y x); intuition congruence.
Qed.

Lemma unique_NoDup (col : list value) : NoDup (unique col).
Proof.
  induction col as [|y t IH]; simpl; constructor.
  - rewrite filter_In, value_eqb_refl. intros [_ H]. discriminate.
  - now apply NoDup_filter.
Qed.

Lemma sum_indicator (x : value) (l : list value) :
  NoDup l -> In x l ->
  list_sum (map (fun y => if value_eqb y x then 1 else 0) l) = 1.
Proof.
  induction 1 as [|y t Ny Nt IH]; [intros []|]. simpl.
  intros [->|Hx].
  - rewrite value_eqb_refl. f_equal.
    clear IH Nt. induction t as [|z t IH]; simpl; [reflexivity|].
    destruct (value_eqb z x) eqn:E.
    + apply value_eqb_eq in E. subst. exfalso. apply Ny. now left.
    + apply IH. intro H. apply Ny. now right.
  - destruct (value_eqb y x) eqn:E; [|now apply IH].
    apply value_eqb_eq in E. subst. contradiction.
Qed.

Lemma list_sum_map_add {A} (f g : A -> nat) (l : list A) :
  list_sum (map (fun x => f x + g x) l) =
  list_sum (map f l) + list_sum (map g l).
Proof. induction l as [|x t IH]; simpl; lia. Qed.

(** The counts of the values of a list without repetition that covers the
    column add up to its length. *)
Lemma sum_counts (l col : list value) :
  NoDup l -> incl col l ->
  list_sum (map (fun x => count x col) l) = List.length col.
Proof.
  intros N. induction col as [|y t IH]; intro I.
  - clear. induction l as [|a l IH]; cbn; auto.
  - rewrite (map_ext _ (fun x => (if value_eqb x y then 1 else 0) + count x t))
      by (intro; apply count_cons).
    rewrite list_sum_map_add, sum_indicator, IH; simpl; auto.
    + intros z Hz. apply I. now right.
    + apply I. now left.
Qed.

Lemma value_counts_perm (col : list value) :
  Permutation (value_counts col)
              (map (fun x => (x, count x col)) (unique col)).
Proof. apply sort_by_perm. Qed.

Lemma value_counts_keys (col : list value) :
  Permutation (map fst (value_counts col)) (unique col).
Proof.
  rewrite value_counts_perm, map_map. simpl. now rewrite map_id.
Qed.

Lemma value_counts_In (col : list value) (l : value) (c : nat) :
  In (l, c) (value_counts col) <-> In l col /\ c = count l col.
Proof.
  split.
  - intro H. apply (Permutation_in _ (value_counts_perm col)) in H.
    apply in_map_iff in H. destruct H as [x [E Hx]].
    apply (proj1 (unique_In _ _)) in Hx.
    inversion E; subst. split; [assumption | reflexivity].
  - intros [H ->].
    apply (Permutation_in _ (Permutation_sym (value_counts_perm col))).
    apply in_map_iff. exists l. split; [reflexivity | now apply unique_In].
Qed.

(* ================================================================== *)
(** * [count_labels] and [find_threshold] *)

Lemma py_sort_by_ok {A} (key : A -> value) (l : list A) :
  uniform (map key l) = true ->
  py_sort_by key l = Ok (sort_by (fun a b => value_leb (key a) (key b)) l).
Proof. unfold py_sort_by. now intros ->. Qed.

Lemma py_sort_by_raise {A} (key : A -> value) (l : list A) :
  uniform (map key l) = false -> py_sort_by key l = Raise TypeError.
Proof. unfold py_sort_by. now intros ->. Qed.

Lemma list_sum_perm (l l' : list nat) :
  Permutation l l' -> list_sum l = list_sum l'.
Proof. induction 1; simpl; lia. Qed.

Lemma sort_by_key_ascending {A} (key : A -> value) (l : list A) :
  uniform (map key l) = true -> NoDup (map key l) ->
  ascending (map key (sort_by (fun a b => value_leb (key a) (key b)) l)).
Proof.
  intros U N.
  set (s := sort_by _ l).
  assert (P : Permutation (map key s) (map key l))
    by apply Permutation_map, sort_by_perm.
  split.
  - apply uniform_incl with (map key l); [|assumption].
    intros x Hx. now apply (Permutation_in _ P).
  - apply sorted_nodup_ascending.
    + apply StronglySorted_map. apply sort_by_sorted.
      * intros a b. apply value_leb_total.
      * intros a b c. apply value_leb_trans.
    + apply Permutation_NoDup with (map key l); [now symmetry | assumption].
Qed.

Lemma value_counts_keys_NoDup (col : list value) :
  NoDup (map fst (value_counts col)).
Proof.
  apply Permutation_NoDup with (unique col).
  - symmetry. apply value_counts_keys.
  - apply unique_NoDup.
Qed.

Lemma value_counts_keys_uniform (col : list value) :
  uniform col = true -> uniform (map fst (value_counts col)) = true.
Proof.
  intro U. apply uniform_incl with col; [|assumption].
  intros x Hx. apply unique_In.
  now apply (Permutation_in _ (value_counts_keys col)).
Qed.

(** C8. [count_labels] returns one row per distinct label with its number
    of rows; the counts add up to [len(df)]; the rows come by label
    ascending, not by frequency; an empty frame gives an empty table. *)
Theorem count_labels_table (df : DataFrame) :
  uniform (labels df) = true ->
  exists table,
    utils.count_labels df = Ok table /\
    (forall l c,
        In (l, c) table <-> In l (labels df) /\ c = count l (labels df)) /\
    ascending (map fst table) /\
    list_sum (map snd table) = List.length df /\
    (df = [] -> table = []).
Proof.
  intro U. unfold utils.count_labels.
  rewrite py_sort_by_ok by now apply value_counts_keys_uniform.
  eexists. split; [reflexivity|]. split; [|split; [|split]].
  - intros l c. rewrite sort_by_In. apply value_counts_In.
  - apply sort_by_key_ascending;
      [now apply value_counts_keys_uniform | apply value_counts_keys_NoDup].
  - rewrite (list_sum_perm
               (Permutation_map snd (sort_by_perm _ (value_counts (labels df))))).
    rewrite (list_sum_perm
               (Permutation_map snd (value_counts_perm (labels df)))).
    rewrite map_map. simpl.
    rewrite sum_counts.
    + unfold labels. apply length_map.
    + apply unique_NoDup.
    + intros x Hx. now apply unique_In.
  - intros ->. reflexivity.
Qed.

Lemma count_labels_table_witness :
  uniform (labels Examples.abc_frame) = true /\
  exists table,
    utils.count_labels Examples.abc_frame = Ok table /\
    (forall l c,
        In (l, c) table <->
        In l (labels Examples.abc_frame) /\
        c = count l (labels Examples.abc_frame)) /\
    ascending (map fst table) /\
    list_sum (map snd table) = List.length Examples.abc_frame /\
    (Examples.abc_frame = [] -> table = []).
Proof.
  split; [reflexivity|].
  apply (count_labels_table Examples.abc_frame). reflexivity.
Defined.

(** The table [tests/test_utils.py] expects. *)
Example count_labels_multiple_labels :
  utils.count_labels Examples.abc_frame
  = Ok [(VStr "A", 3); (VStr "B", 2); (VStr "C", 1)].
Proof. reflexivity. Qed.

(** Labels of two kinds cannot be ordered: the table is not returned. *)
Lemma count_labels_mixed (df : DataFrame) :
  uniform (labels df) = false -> utils.count_labels df = Raise TypeError.
Proof.
  intro U. unfold utils.count_labels. apply py_sort_by_raise.
  destruct (uniform (map fst (value_counts (labels df)))) eqn:E; [|reflexivity].
  rewrite <- U. symmetry. apply uniform_incl with (2 := E).
  intros x Hx. apply unique_In in Hx.
  now apply (Permutation_in _ (Permutation_sym (value_counts_keys _))).
Qed.

Lemma Qltb_lt (x y : Q) : Qltb x y = true <-> (x < y)%Q.
Proof. apply Float64Facts.ltb_lt. Qed.

Lemma count_occurrences (l : value) (col : list value) :
  count l col = count_occ same_value col l.
Proof.
  unfold count. induction col as [|y t IH]; [reflexivity|].
  cbn [List.filter count_occ]. destruct (same_value y l) as [->|N].
  - rewrite value_eqb_refl. cbn [List.length]. now rewrite IH.
  - destruct (value_eqb l y) eqn:E; [|assumption].
    apply value_eqb_eq in E. congruence.
Qed.

Lemma value_counts_normalize_In (col : list value) (l : value) (q : Q) :
  In (l, q) (value_counts_normalize col) <->
  In l col /\
  q = Float64.div (Float64.of_int (Z.of_nat (count l col)))
                  (Float64.of_int (Z.of_nat (List.length col))).
Proof.
  unfold value_counts_normalize. rewrite in_map_iff. split.
  - intros [[x c] [E H]]. simpl in E. inversion E; subst.
    apply value_counts_In in H as [H ->]. auto.
  - intros [H ->]. exists (l, count l col). split; [reflexivity|].
    now apply value_counts_In.
Qed.

Lemma NoDup_map_filter {A B} (f : A -> B) (p : A -> bool) (l : list A) :
  NoDup (map f l) -> NoDup (map f (List.filter p l)).
Proof.
  induction l as [|x t IH]; simpl; [auto|].
  intro N. inversion N as [|? ? Nx Nt]; subst.
  destruct (p x); simpl; [constructor|]; auto.
  intro H. apply Nx. apply in_map_iff in H as [y [E Hy]].
  apply filter_In in Hy as [Hy _]. apply in_map_iff. eauto.
Qed.

(** The labels that pass the comparison of [find_threshold]. *)
Lemma low_values_In (df : DataFrame) (t : Q) (l : value) :
  In l (map fst (List.filter (fun p => Qltb (snd p) t)
                             (value_counts_normalize (labels df)))) <->
  In l (labels df) /\ (float_frequency l df < t)%Q.
Proof.
  unfold float_frequency, occurrences.
  rewrite <- count_occurrences.
  rewrite <- (length_map (fun r => label (snd r)) df). fold (labels df).
  rewrite in_map_iff. split.
  - intros [[x q] [E H]]. cbn in E. subst x.
    apply filter_In in H. destruct H as [H Hq].
    apply value_counts_normalize_In in H. destruct H as [Hl ->].
    split; [assumption|]. now apply Qltb_lt.
  - intros [Hl Hq]. eexists (l, _). split; [reflexivity|].
    apply filter_In. split.
    + apply value_counts_normalize_In. split; [assumption|reflexivity].
    + now apply Qltb_lt.
Qed.

Lemma low_values_NoDup (col : list value) (t : Q) :
  NoDup (map fst (List.filter (fun p => Qltb (snd p) t)
                              (value_counts_normalize col))).
Proof.
  apply NoDup_map_filter. unfold value_counts_normalize.
  rewrite map_map. cbn [fst]. apply value_counts_keys_NoDup.
Qed.

(** What [find_threshold] returns, when it returns. *)
Lemma find_threshold_In (df : DataFrame) (t : Q) (low : list value) :
  dataset.find_threshold df t = Ok low ->
  forall l, In l low <-> In l (labels df) /\ (float_frequency l df < t)%Q.
Proof.
  unfold dataset.find_threshold, py_sort, py_sort_by.
  destruct (uniform _); [|discriminate]. intros [= <-] l.
  rewrite sort_by_In. apply low_values_In.
Qed.

(** On labels of one kind [find_threshold] returns, and in ascending
    order. *)
Lemma find_threshold_ascending (df : DataFrame) (t : Q) :
  uniform (labels df) = true ->
  exists low, dataset.find_threshold df t = Ok low /\ ascending low.
Proof.
  intro U. unfold dataset.find_threshold, py_sort.
  set (values := map fst (List.filter _ _)).
  assert (Uv : uniform (map (fun v => v) values) = true).
  { rewrite map_id. apply uniform_incl with (labels df); [|assumption].
    intros x Hx. now apply low_values_In in Hx. }
  assert (Nv : NoDup (map (fun v : value => v) values)).
  { rewrite map_id. apply low_values_NoDup. }
  rewrite py_sort_by_ok by assumption.
  eexists. split; [reflexivity|].
  rewrite <- (map_id (sort_by _ values)).
  now apply (sort_by_key_ascending (fun v => v)).
Qed.

Lemma occurrences_In (l : value) (df : DataFrame) :
  In l (labels df) -> 0 < occurrences l df <= List.length df.
Proof.
  intro H. unfold occurrences. split.
  - now apply count_occ_In.
  - rewrite <- (length_map (fun r => label (snd r)) df). fold (labels df).
    apply count_occ_bound.
Qed.

(** The float share of a label of the frame lies in (0, 1]. *)
Lemma float_frequency_bounds (l : value) (df : DataFrame) :
  In l (labels df) ->
  (0 < float_frequency l df)%Q /\ (float_frequency l df <= 1)%Q.
Proof.
  intro H. apply occurrences_In in H.
  apply Float64Facts.share_bounds. lia.
Qed.

(** Below [2^53] rows the float share is the fraction, rounded once. *)
Lemma float_frequency_rounds (l : value) (df : DataFrame) :
  In l (labels df) -> (Z.of_nat (List.length df) < 2 ^ 53)%Z ->
  (float_frequency l df == Float64.round (frequency l df))%Q.
Proof.
  intros H B. apply occurrences_In in H.
  unfold float_frequency, frequency.
  rewrite Float64Facts.share_exact by lia.
  apply Float64Facts.round_compat.
  replace (Z.to_pos (Z.of_nat (List.length df)))
    with (Pos.of_nat (List.length df)); [reflexivity|].
  destruct (List.length df) as [|n]; [lia|].
  cbn [Z.of_nat Z.to_pos]. symmetry. apply Pos.of_nat_succ.
Qed.

(** C5. On a frame of fewer than [2^53] rows with labels of one kind and for
    a threshold that is a float, [find_threshold] returns, in ascending
    order, exactly the labels of the frame whose share of the rows, as the
    quotient of two floats, is strictly below the threshold.  Every label
    it returns has a share that is below the threshold as a fraction too, and
    it returns every label whose share is at most some float below the
    threshold; a share equal to the threshold is left out; an empty frame
    gives an empty list. *)
Theorem find_threshold_low (df : DataFrame) (t : Q) :
  uniform (labels df) = true ->
  (Z.of_nat (List.length df) < 2 ^ 53)%Z ->
  is_float t ->
  exists low,
    dataset.find_threshold df t = Ok low /\
    ascending low /\
    (forall l,
        In l low <-> In l (labels df) /\ (float_frequency l df < t)%Q) /\
    (forall l, In l low -> (frequency l df < t)%Q) /\
    (forall l t',
        In l (labels df) -> is_float t' -> (t' < t)%Q ->
        (frequency l df <= t')%Q -> In l low) /\
    (forall l, In l (labels df) -> (t <= frequency l df)%Q -> ~ In l low) /\
    (df = [] -> low = []).
Proof.
  intros U B Ft.
  destruct (find_threshold_ascending df t U) as [low [E A]].
  pose proof (find_threshold_In _ _ E) as Hin.
  exists low. split; [assumption|]. split; [assumption|].
  split; [assumption|].
  assert (Sound : forall l, In l low -> (frequency l df < t)%Q).
  { intros l H. apply Hin in H. destruct H as [Hl Hq].
    apply Qnot_le_lt. intro Le.
    apply Float64Facts.round_mono in Le.
    rewrite <- (float_frequency_rounds l df Hl B) in Le.
    unfold is_float in Ft. rewrite Ft in Le.
    now apply (Qlt_not_le _ _ Hq). }
  split; [exact Sound|]. split; [|split].
  - intros l t' Hl Ft' Lt Le. apply Hin. split; [assumption|].
    apply Float64Facts.round_mono in Le.
    rewrite <- (float_frequency_rounds l df Hl B) in Le.
    unfold is_float in Ft'. rewrite Ft' in Le.
    now apply Qle_lt_trans with t'.
  - intros l _ Le H. apply Sound in H. now apply (Qlt_not_le _ _ H).
  - intros -> . unfold dataset.find_threshold in E. cbn in E.
    now injection E as <-.
Qed.

Lemma find_threshold_low_witness :
  uniform (labels Examples.test_frame) = true /\
  (Z.of_nat (List.length Examples.test_frame) < 2 ^ 53)%Z /\
  is_float (Float64.of_decimal (3 # 10)) /\
  exists low,
    dataset.find_threshold Examples.test_frame (Float64.of_decimal (3 # 10))
    = Ok low /\
    ascending low /\
    (forall l,
        In l low <->
        In l (labels Examples.test_frame) /\
        (float_frequency l Examples.test_frame
         < Float64.of_decimal (3 # 10))%Q) /\
    (forall l,
        In l low ->
        (frequency l Examples.test_frame < Float64.of_decimal (3 # 10))%Q) /\
    (forall l t',
        In l (labels Examples.test_frame) -> is_float t' ->
        (t' < Float64.of_decimal (3 # 10))%Q ->
        (frequency l Examples.test_frame <= t')%Q -> In l low) /\
    (forall l,
        In l (labels Examples.test_frame) ->
        (Float64.of_decimal (3 # 10) <= frequency l Examples.test_frame)%Q ->
        ~ In l low) /\
    (Examples.test_frame = [] -> low = []).
Proof.
  split; [reflexivity|]. split; [reflexivity|].
  split; [vm_compute; reflexivity|].
  apply (@find_threshold_low Examples.test_frame
           (Float64.of_decimal (3 # 10)));
    [reflexivity | reflexivity | vm_compute; reflexivity].
Defined.

(** The share of a label can lie below the threshold as a fraction and yet
    not as a float: 5 rows of 6 are less than 0.8333333333333334 of the
    rows, but 5 / 6 in floats is 0.8333333333333334 itself, and the label is
    not returned. *)
Lemma find_threshold_rounded_share :
  dataset.find_threshold Examples.five_one Examples.five_sixths
  = Ok [VStr "b"] /\
  is_float Examples.five_sixths /\
  In (VStr "a") (labels Examples.five_one) /\
  (frequency (VStr "a") Examples.five_one < Examples.five_sixths)%Q /\
  (float_frequency (VStr "a") Examples.five_one == Examples.five_sixths)%Q.
Proof.
  split; [vm_compute; reflexivity|].
  split; [vm_compute; reflexivity|].
  split; [cbn; auto|].
  split; vm_compute; reflexivity.
Qed.

(** The scenario of [tests/test_dataset.py]: each of "0", "1" and "2" holds
    2 of the 18 rows. *)
Example find_threshold_test :
  dataset.find_threshold Examples.test_frame (Float64.of_decimal (3 # 10))
  = Ok [VStr "0"; VStr "1"; VStr "2"].
Proof. vm_compute. reflexivity. Qed.

(** A share equal to the threshold is not below it: "3" holds 6 rows of
    18. *)
Example find_threshold_tie :
  dataset.find_threshold Examples.test_frame (Float64.true_divide 1 3)
  = Ok [VStr "0"; VStr "1"; VStr "2"].
Proof. vm_compute. reflexivity. Qed.

(* ================================================================== *)
(** * [update_label] *)

Lemma mapM_Ok_Forall2 {A B} (f : A -> result B) (l : list A) (l' : list B) :
  mapM f l = Ok l' <-> Forall2 (fun x y => f x = Ok y) l l'.
Proof.
  revert l'. induction l as [|x t IH]; intros l'; simpl.
  - split; [intro H; inversion H; constructor | intro H; now inversion H].
  - destruct (f x) as [y|e] eqn:E; simpl.
    + destruct (mapM f t) as [ys|e] eqn:Et; simpl.
      * split.
        -- intro H. inversion H; subst. constructor; [assumption|].
           now apply IH.
        -- intro H. inversion H as [|? y' ? ys' Hy Hys]; subst.
           apply IH in Hys. congruence.
      * split; [discriminate|].
        intro H. inversion H as [|? y' ? ys' Hy Hys]; subst.
        apply IH in Hys. discriminate.
    + split; [discriminate|].
      intro H. inversion H; subst. congruence.
Qed.

Lemma mapM_raises {A B} (f : A -> result B) (l : list A) :
  raises (mapM f l) <-> exists x, In x l /\ raises (f x).
Proof.
  induction l as [|x t IH]; simpl.
  - split; [intros [e H]; discriminate | intros [x [[] _]]].
  - destruct (f x) as [y|e] eqn:E; simpl.
    + destruct (mapM f t) as [ys|e] eqn:Et; simpl.
      * split; [intros [e H]; discriminate|].
        intros [z [[<-|Hz] [e He]]]; [congruence|].
        destruct IH as [_ IH].
        destruct IH as [e' R]; [|discriminate].
        exists z. split; [assumption | now exists e].
      * split; [|intros _; now exists e].
        intros _. destruct IH as [IH _].
        destruct IH as [z [Hz Rz]]; [now exists e|]. exists z. auto.
    + split; [|intros _; now exists e].
      intros _. exists x. split; [now left | now exists e].
Qed.

Lemma substitute_label_old (old_labels : list value) (new_label : Z)
      (x : value) :
  In x old_labels ->
  dataset.substitute_label old_labels new_label x = Ok new_label.
Proof.
  intro H. unfold dataset.substitute_label.
  now apply py_in_In in H as ->.
Qed.

Lemma substitute_label_other (old_labels : list value) (new_label : Z)
      (x : value) :
  ~ In x old_labels ->
  dataset.substitute_label old_labels new_label x = int x.
Proof.
  intro H. unfold dataset.substitute_label.
  now apply py_in_not_In in H as ->.
Qed.

Lemma update_label_rows (df df' : DataFrame) (old_labels : list value)
      (new_label : Z) :
  dataset.update_label df old_labels new_label = Ok df' ->
  Forall2 (relabelled old_labels new_label) df df'.
Proof.
  unfold dataset.update_label. intro H. apply mapM_Ok_Forall2 in H.
  induction H as [|r r' t t' Hr Ht IH]; constructor; [|assumption].
  destruct (dataset.substitute_label old_labels new_label (label (snd r)))
    as [z|e] eqn:E; simpl in Hr; [|discriminate].
  inversion Hr; subst r'. unfold relabelled. simpl.
  repeat split; try reflexivity.
  - intro Hin. rewrite substitute_label_old in E by assumption. congruence.
  - intro Hout. rewrite substitute_label_other in E by assumption. eauto.
Qed.

Lemma update_label_raises (df : DataFrame) (old_labels : list value)
      (new_label : Z) :
  raises (dataset.update_label df old_labels new_label) <->
  exists r, In r df /\ ~ In (label (snd r)) old_labels /\
            raises (int (label (snd r))).
Proof.
  unfold dataset.update_label. split.
  - intro R. apply (proj1 (mapM_raises _ _)) in R.
    destruct R as [r [Hr [e He]]]. exists r. split; [assumption|].
    destruct (in_dec value_eq_dec (label (snd r)) old_labels) as [Hin|Hout].
    + rewrite substitute_label_old in He by assumption. discriminate.
    + rewrite substitute_label_other in He by assumption. split; [assumption|].
      destruct (int (label (snd r))) as [z|e'] eqn:E; [discriminate|].
      now exists e'.
  - intros [r [Hr [Hout [e He]]]]. apply (proj2 (mapM_raises _ _)).
    exists r. split; [assumption|].
    rewrite substitute_label_other by assumption. rewrite He. now exists e.
Qed.

Lemma update_label_returns (df : DataFrame) (old_labels : list value)
      (new_label : Z) :
  (forall r, In r df -> ~ In (label (snd r)) old_labels ->
             exists z, int (label (snd r)) = Ok z) ->
  exists df', dataset.update_label df old_labels new_label = Ok df'.
Proof.
  intro H.
  destruct (dataset.update_label df old_labels new_label) as [df'|e] eqn:E;
    [now exists df'|].
  exfalso.
  assert (R : raises (dataset.update_label df old_labels new_label))
    by (rewrite E; now exists e).
  apply update_label_raises in R. destruct R as [r [Hr [Hout [e' He']]]].
  destruct (H r Hr Hout) as [z Hz]. congruence.
Qed.

(* ================================================================== *)
(** * [int] and the number a string writes *)

Example int_examples :
  int (VStr "42") = Ok 42%Z /\ int (VStr " -7 ") = Ok (-7)%Z /\
  int (VStr "1_000") = Ok 1000%Z /\ int (VStr "007") = Ok 7%Z /\
  int (VStr "") = Raise ValueError /\ int (VStr "4_") = Raise ValueError /\
  int (VStr "_4") = Raise ValueError /\ int (VStr "a") = Raise ValueError /\
  int (VStr "- 5") = Raise ValueError /\ int (VInt 5) = Ok 5%Z /\
  int (VStr (String (ascii_of_nat 28) "5")) = Raise ValueError /\
  int (VStr (String (ascii_of_nat 160) "5")) = Ok 5%Z /\
  int (VStr (String (ascii_of_nat 178) "")) = Raise ValueError.
Proof. repeat split; reflexivity. Qed.

Lemma digit_decimal (c : ascii) (d : Z) :
  digit c d <-> is_decimal c = true /\ digit_value c = d.
Proof.
  split.
  - intros []; split; reflexivity.
  - destruct c as [[] [] [] [] [] [] [] []]; cbv; intros [H <-];
      try discriminate; constructor.
Qed.

Lemma blank_space (c : ascii) : blank c <-> is_space c = true.
Proof.
  unfold blank, is_space, ascii_in. cbn [In].
  rewrite !orb_true_iff, andb_true_iff, !Nat.leb_le, !Nat.eqb_eq. lia.
Qed.

Lemma decimal_not_space (c : ascii) :
  is_decimal c = true -> is_space c = false.
Proof.
  unfold is_decimal, is_space, ascii_in.
  rewrite andb_true_iff, !Nat.leb_le. intros [H1 H2].
  apply not_true_is_false.
  rewrite !orb_true_iff, andb_true_iff, !Nat.leb_le, !Nat.eqb_eq. lia.
Qed.

Lemma digits_first l z n :
  digits l z n -> exists c t, l = c :: t /\ is_decimal c = true.
Proof.
  induction 1 as [c d Hd|l z n c d H IH Hd|l z n c d H IH Hd].
  - exists c, []. split; [reflexivity|]. now apply digit_decimal in Hd.
  - destruct IH as (c0 & t & -> & Hc). now exists c0, (t ++ [c]).
  - destruct IH as (c0 & t & -> & Hc). now exists c0, (t ++ ["_"%char; c]).
Qed.

Lemma digits_last l z n :
  digits l z n -> exists t c, l = t ++ [c] /\ is_decimal c = true.
Proof.
  destruct 1 as [c d Hd|l z n c d H Hd|l z n c d H Hd];
    apply digit_decimal in Hd; destruct Hd as [Hd _].
  - now exists [], c.
  - now exists l, c.
  - exists (l ++ ["_"%char]), c. split; [|assumption].
    now rewrite <- app_assoc.
Qed.

Lemma digits_count l z n :
  digits l z n -> List.length (List.filter is_decimal l) = n.
Proof.
  induction 1 as [c d Hd|l z n c d H IH Hd|l z n c d H IH Hd];
    apply digit_decimal in Hd; destruct Hd as [Hd _].
  - cbn. now rewrite Hd.
  - rewrite filter_app, length_app, IH. cbn [List.filter]. rewrite Hd.
    cbn [List.length]. lia.
  - rewrite filter_app, length_app, IH. cbn [List.filter].
    change (is_decimal "_") with false. cbn iota. rewrite Hd.
    cbn [List.length]. lia.
Qed.

(** The loop of [int] over a run of digits gives the number the run
    writes. *)
Lemma digits_value_digits l z n (rest : list ascii) :
  digits l z n ->
  digits_value 0 true (l ++ rest) = digits_value z false rest.
Proof.
  intro H. revert rest.
  induction H as [c d Hd|l z n c d H IH Hd|l z n c d H IH Hd]; intro rest;
    apply digit_decimal in Hd; destruct Hd as [Hc <-].
  - cbn [app digits_value]. now rewrite Hc.
  - rewrite <- app_assoc, IH. cbn [app digits_value]. now rewrite Hc.
  - rewrite <- app_assoc, IH. cbn [app digits_value].
    rewrite Hc. reflexivity.
Qed.

Lemma digits_value_run (l p : list ascii) (acc : Z) (n : nat) (z : Z) :
  digits p acc n ->
  (digits_value acc false l = Some z -> exists m, digits (p ++ l) z m) /\
  (digits_value acc true l = Some z ->
   exists m, digits (p ++ "_"%char :: l) z m).
Proof.
  revert p acc n. induction l as [|c t IH]; intros p acc n Hp.
  - cbn. split; [|discriminate]. intros [= <-]. rewrite app_nil_r. eauto.
  - cbn [digits_value]. destruct (is_decimal c) eqn:Hc.
    + assert (Hd : digit c (digit_value c)) by now apply digit_decimal.
      split; intro H.
      * destruct (IH _ _ _ (digits_next Hp Hd)) as [IHa _].
        destruct (IHa H) as [m Hm]. exists m.
        now rewrite <- app_assoc in Hm.
      * destruct (IH _ _ _ (digits_underscore Hp Hd)) as [IHa _].
        destruct (IHa H) as [m Hm]. exists m.
        now rewrite <- app_assoc in Hm.
    + destruct (Ascii.eqb c "_") eqn:Hu; [|split; discriminate].
      apply Ascii.eqb_eq in Hu. subst c. split; [|discriminate].
      intro H. destruct (IH _ _ _ Hp) as [_ IHb]. exact (IHb H).
Qed.

Lemma digits_value_start (l : list ascii) (z : Z) :
  digits_value 0 true l = Some z -> exists m, digits l z m.
Proof.
  destruct l as [|c t]; [discriminate|]. cbn [digits_value].
  destruct (is_decimal c) eqn:Hc.
  - assert (Hd : digit c (digit_value c)) by now apply digit_decimal.
    intro H. replace (10 * 0 + digit_value c)%Z with (digit_value c) in H by lia.
    destruct (digits_value_run t z (digits_one Hd)) as [Ha _].
    exact (Ha H).
  - destruct (Ascii.eqb c "_"); discriminate.
Qed.

(** The white space at both ends. *)
Lemma lstrip_split (l : list ascii) :
  exists before, l = before ++ lstrip l /\ Forall blank before.
Proof.
  induction l as [|c t IH].
  - exists []. split; [reflexivity|constructor].
  - cbn [lstrip]. destruct (is_space c) eqn:E.
    + destruct IH as (b & Hb & Fb). exists (c :: b). split.
      * cbn. now rewrite <- Hb.
      * constructor; [now apply blank_space|assumption].
    + exists []. split; [reflexivity|constructor].
Qed.

Lemma strip_split (l : list ascii) :
  exists before after,
    l = before ++ strip l ++ after /\ Forall blank before /\ Forall blank after.
Proof.
  destruct (lstrip_split l) as (b1 & H1 & F1).
  destruct (lstrip_split (rev (lstrip l))) as (b2 & H2 & F2).
  exists b1, (rev b2). split; [|split; [assumption|]].
  - unfold strip. rewrite <- rev_app_distr, <- H2, rev_involutive. exact H1.
  - now apply Forall_rev.
Qed.

Lemma lstrip_blank (before l : list ascii) :
  Forall blank before -> lstrip (before ++ l) = lstrip l.
Proof.
  induction 1 as [|c b Hc Hb IH]; [reflexivity|].
  cbn [app lstrip]. apply blank_space in Hc. now rewrite Hc.
Qed.

Lemma lstrip_keeps (c : ascii) (t : list ascii) :
  is_space c = false -> lstrip (c :: t) = c :: t.
Proof. intro H. cbn. now rewrite H. Qed.

Lemma strip_core (before after t : list ascii) (c c' : ascii) :
  Forall blank before -> Forall blank after ->
  is_space c = false -> is_space c' = false ->
  strip (before ++ (c :: t ++ [c']) ++ after) = c :: t ++ [c'].
Proof.
  intros Fb Fa Hc Hc'. unfold strip.
  rewrite lstrip_blank by assumption.
  cbn [app]. rewrite lstrip_keeps by assumption.
  change (c :: (t ++ [c']) ++ after) with ((c :: t ++ [c']) ++ after).
  rewrite rev_app_distr, lstrip_blank by now apply Forall_rev.
  change (c :: t ++ [c']) with ((c :: t) ++ [c']).
  rewrite rev_app_distr. cbn [rev app].
  rewrite lstrip_keeps by assumption.
  change (c' :: rev t ++ [c]) with ([c'] ++ (rev t ++ [c])).
  rewrite rev_app_distr, rev_app_distr, rev_involutive. reflexivity.
Qed.

Lemma strip_one (before after : list ascii) (c : ascii) :
  Forall blank before -> Forall blank after ->
  is_space c = false ->
  strip (before ++ [c] ++ after) = [c].
Proof.
  intros Fb Fa Hc. unfold strip.
  rewrite lstrip_blank by assumption.
  cbn [app]. rewrite lstrip_keeps by assumption.
  change (c :: after) with ([c] ++ after).
  rewrite rev_app_distr, lstrip_blank by now apply Forall_rev.
  cbn [rev app]. rewrite lstrip_keeps by assumption. reflexivity.
Qed.

(** A list that starts and ends with characters that are no white space
    is what [strip] leaves of it with white space around. *)
Lemma strip_between (before core after : list ascii) :
  Forall blank before -> Forall blank after ->
  (exists c t, core = c :: t /\ is_space c = false) ->
  (exists t c, core = t ++ [c] /\ is_space c = false) ->
  strip (before ++ core ++ after) = core.
Proof.
  intros Fb Fa (c & t & -> & Hc) (t' & c' & E & Hc').
  destruct t' as [|x t'].
  - cbn in E. injection E as -> ->. now apply strip_one.
  - cbn in E. injection E as <- ->. now apply strip_core.
Qed.

Lemma sign_not_space :
  is_space "-" = false /\ is_space "+" = false.
Proof. split; reflexivity. Qed.

Lemma decimal_not_sign (c : ascii) :
  is_decimal c = true -> Ascii.eqb c "-" = false /\ Ascii.eqb c "+" = false.
Proof.
  intro H. split; apply Ascii.eqb_neq; intros ->; discriminate.
Qed.

(** [int] on a string: it returns [z] exactly when the string writes [z],
    and raises nothing but [ValueError]. *)
Lemma int_of_str_numeral (s : string) (z : Z) :
  int_of_str s = Ok z <-> numeral s z.
Proof.
  split.
  - unfold int_of_str. intro H.
    destruct (strip_split (chars s)) as (before & after & E & Fb & Fa).
    assert (Es : s = string_of_list_ascii (before ++ strip (chars s) ++ after)).
    { rewrite <- E. unfold chars. now rewrite string_of_list_ascii_of_string. }
    destruct (strip (chars s)) as [|c t] eqn:Eb; [discriminate|].
    assert (K : forall l z0,
               digits_value 0 true l = Some z0 ->
               (if List.length (List.filter is_decimal l) <=? max_str_digits
                then Ok (A := Z) z0 else Raise ValueError) = Ok z0 ->
               exists n, digits l z0 n /\ n <= 4300).
    { intros l z0 Hv Hl. destruct (digits_value_start _ Hv) as [m Hm].
      exists m. split; [assumption|].
      rewrite (digits_count Hm) in Hl.
      destruct (m <=? max_str_digits) eqn:Em; [|discriminate].
      now apply Nat.leb_le in Em. }
    destruct (Ascii.eqb c "-") eqn:Eminus;
      [|destruct (Ascii.eqb c "+") eqn:Eplus]; cbn [fst snd] in H.
    + apply Ascii.eqb_eq in Eminus. subst c.
      destruct (digits_value 0 true t) as [z0|] eqn:Ev; [|discriminate].
      destruct (_ <=? _) eqn:El; [|discriminate]. injection H as <-.
      destruct (K t z0 Ev) as (n & Hn & Ln); [now rewrite El|].
      rewrite Es. cbn [app]. eapply numeral_minus; eassumption.
    + apply Ascii.eqb_eq in Eplus. subst c.
      destruct (digits_value 0 true t) as [z0|] eqn:Ev; [|discriminate].
      destruct (_ <=? _) eqn:El; [|discriminate]. injection H as <-.
      destruct (K t z0 Ev) as (n & Hn & Ln); [now rewrite El|].
      rewrite Es. cbn [app]. eapply numeral_plus; eassumption.
    + destruct (digits_value 0 true (c :: t)) as [z0|] eqn:Ev; [|discriminate].
      destruct (_ <=? _) eqn:El; [|discriminate]. injection H as <-.
      destruct (K (c :: t) z0 Ev) as (n & Hn & Ln); [now rewrite El|].
      rewrite Es. eapply numeral_plain; eassumption.
  - assert (K : forall body z0 n,
               digits body z0 n -> n <= 4300 ->
               digits_value 0 true body = Some z0 /\
               (List.length (List.filter is_decimal body) <=? max_str_digits)
               = true).
    { intros body z0 n Hd Ln. split.
      - rewrite <- (app_nil_r body). now rewrite (digits_value_digits [] Hd).
      - rewrite (digits_count Hd). now apply Nat.leb_le. }
    intros [before body after z0 n Fb Fa Hd Ln
           |before body after z0 n Fb Fa Hd Ln
           |before body after z0 n Fb Fa Hd Ln];
      unfold int_of_str, chars; rewrite list_ascii_of_string_of_list_ascii;
      destruct (digits_first Hd) as (c & t & Ec & Hc);
      destruct (digits_last Hd) as (t' & c' & Ec' & Hc');
      destruct (K _ _ _ Hd Ln) as [Kv Kl];
      destruct (decimal_not_sign _ Hc) as [Nm Np].
    + rewrite strip_between; try assumption.
      * rewrite Ec in *. rewrite Nm, Np. cbn [fst snd].
        now rewrite Kv, Kl.
      * exists c, t. split; [assumption|now apply decimal_not_space].
      * exists t', c'. split; [assumption|now apply decimal_not_space].
    + change (before ++ "+"%char :: body ++ after)
        with (before ++ ("+"%char :: body) ++ after).
      rewrite strip_between; try assumption.
      * cbv beta iota zeta.
        change (Ascii.eqb "+" "-") with false.
        change (Ascii.eqb "+" "+") with true. cbn [fst snd].
        now rewrite Kv, Kl.
      * exists "+"%char, body. split; reflexivity.
      * exists ("+"%char :: t'), c'. split; [now rewrite Ec'|].
        now apply decimal_not_space.
    + change (before ++ "-"%char :: body ++ after)
        with (before ++ ("-"%char :: body) ++ after).
      rewrite strip_between; try assumption.
      * cbv beta iota zeta.
        change (Ascii.eqb "-" "-") with true. cbn [fst snd].
        now rewrite Kv, Kl.
      * exists "-"%char, body. split; reflexivity.
      * exists ("-"%char :: t'), c'. split; [now rewrite Ec'|].
        now apply decimal_not_space.
Qed.

Lemma int_of_str_raises (s : string) (e : exn) :
  int_of_str s = Raise e -> e = ValueError.
Proof.
  unfold int_of_str. destruct (digits_value _ _ _); [|now intros [= <-]].
  destruct (_ <=? _); [discriminate|now intros [= <-]].
Qed.

Lemma int_denotes (v : value) (z : Z) : int v = Ok z <-> denotes v z.
Proof.
  destruct v as [x|s]; cbn [int denotes].
  - split; [now intros [= <-]|now intros ->].
  - apply int_of_str_numeral.
Qed.

Lemma int_raises (v : value) (e : exn) : int v = Raise e -> e = ValueError.
Proof.
  destruct v as [x|s]; cbn [int]; [discriminate|apply int_of_str_raises].
Qed.

Lemma denotes_unique (v : value) (z z' : Z) :
  denotes v z -> denotes v z' -> z = z'.
Proof.
  intros H H'. apply int_denotes in H, H'. congruence.
Qed.

Lemma is_decimal_range (c : ascii) :
  is_decimal c = true <-> 48 <= nat_of_ascii c <= 57.
Proof.
  unfold is_decimal, ascii_in.
  rewrite andb_true_iff, !Nat.leb_le. reflexivity.
Qed.

Lemma decimals_filter (l : list ascii) :
  forallb is_decimal l = true -> List.filter is_decimal l = l.
Proof.
  induction l as [|c t IH]; [reflexivity|]. cbn [forallb List.filter].
  intro H. apply andb_true_iff in H. destruct H as [Hc Ht].
  rewrite Hc. now rewrite IH.
Qed.

Lemma digits_value_decimals (l : list ascii) (acc : Z) :
  forallb is_decimal l = true -> exists z, digits_value acc false l = Some z.
Proof.
  revert acc. induction l as [|c t IH]; intros acc H; simpl in *.
  - now exists acc.
  - apply andb_true_iff in H as [Hc Ht]. rewrite Hc. now apply IH.
Qed.

Lemma chars_length (s : string) : List.length (chars s) = len s.
Proof.
  unfold chars, len. induction s as [|c s IH]; [reflexivity|].
  cbn. now rewrite IH.
Qed.

(** A string of decimal digits, at least one and at most 4300, writes a
    number. *)
Lemma short_digits_denote (v : value) :
  int_or_short_digits v -> exists z, denotes v z.
Proof.
  destruct v as [z|s]; cbn [int_or_short_digits denotes]; [now exists z|].
  intros (Hne & Hd & Hl).
  destruct (chars s) as [|c t] eqn:E; [contradiction|].
  assert (Hc : is_decimal c = true).
  { cbn [forallb] in Hd. now apply andb_true_iff in Hd. }
  assert (Ht : forallb is_decimal t = true).
  { cbn [forallb] in Hd. now apply andb_true_iff in Hd. }
  destruct (digits_value_decimals t (10 * 0 + digit_value c) Ht) as [z Hz].
  assert (Hv : digits_value 0 true (c :: t) = Some z).
  { cbn [digits_value]. now rewrite Hc. }
  destruct (digits_value_start _ Hv) as [m Hm].
  exists z.
  replace s with (string_of_list_ascii ([] ++ (c :: t) ++ [])).
  - apply numeral_plain with m;
      [constructor|constructor|assumption|].
    rewrite <- (digits_count Hm), decimals_filter by assumption.
    rewrite <- chars_length, E in Hl. exact Hl.
  - cbn [app]. rewrite app_nil_r, <- E. unfold chars.
    apply string_of_list_ascii_of_string.
Qed.

(* ================================================================== *)
(** * [update_label]: what it returns and when it raises *)

Lemma update_label_normalised (df df' : DataFrame) (old_labels : list value)
      (new_label : Z) :
  dataset.update_label df old_labels new_label = Ok df' ->
  Forall2 (normalised old_labels new_label) df df'.
Proof.
  intro E. apply update_label_rows in E.
  induction E as [|r r' t t' Hr Ht IH]; constructor; [|assumption].
  destruct Hr as (H1 & H2 & H3 & Hin & Hout).
  repeat split; try assumption.
  intro H. destruct (Hout H) as (z & Hz & Hl). exists z.
  split; [now apply int_denotes|assumption].
Qed.

Lemma update_label_raise (df : DataFrame) (old_labels : list value)
      (new_label : Z) (e : exn) :
  dataset.update_label df old_labels new_label = Raise e -> e = ValueError.
Proof.
  unfold dataset.update_label.
  induction df as [|r df IH]; cbn [mapM]; [discriminate|].
  unfold dataset.substitute_label at 1.
  destruct (py_in (label (snd r)) old_labels); cbn [bind].
  - destruct (mapM _ df) as [ys|e'] eqn:Em; cbn [bind]; [discriminate|].
    intros [= <-]. now apply IH.
  - destruct (int (label (snd r))) as [z|e'] eqn:Ei; cbn [bind].
    + destruct (mapM _ df) as [ys|e''] eqn:Em; cbn [bind]; [discriminate|].
      intros [= <-]. now apply IH.
    + intros [= <-]. exact (int_raises _ Ei).
Qed.

(** C7. When every label that is not in [old_labels] writes a number (an
    [int], or a string that reads as one), [update_label(df, old_labels,
    new_label)] returns a frame with as many rows, where each row keeps
    its index, id and text and carries [new_label] if its label was in
    [old_labels], and otherwise the number its own label stands for, as an
    [int]. *)
Theorem update_label_spec (df : DataFrame) (old_labels : list value)
        (new_label : Z) :
  (forall r, In r df -> ~ In (label (snd r)) old_labels ->
             exists z, denotes (label (snd r)) z) ->
  exists df',
    dataset.update_label df old_labels new_label = Ok df' /\
    List.length df' = List.length df /\
    Forall2 (normalised old_labels new_label) df df'.
Proof.
  intro H.
  destruct (@update_label_returns df old_labels new_label) as [df' E].
  { intros r Hr Hout. destruct (H r Hr Hout) as [z Hz].
    exists z. now apply int_denotes. }
  exists df'. split; [assumption|].
  pose proof (update_label_normalised _ _ _ E) as F. split; [|assumption].
  symmetry. now apply Forall2_length in F.
Qed.

(** The scenario of [tests/test_dataset.py]. *)
Example update_label_test :
  option_map labels
    match dataset.update_label Examples.test_frame [VStr "0"; VStr "1"] 99 with
    | Ok df' => Some df'
    | Raise _ => None
    end
  = Some (map VInt [99; 99; 99; 99; 2; 2; 3; 3; 3; 3; 3; 3;
                    4; 4; 4; 4; 4; 4]%Z).
Proof. reflexivity. Qed.

Lemma update_label_spec_witness :
  (forall r, In r Examples.test_frame ->
             ~ In (label (snd r)) [VStr "0"; VStr "1"] ->
             exists z, denotes (label (snd r)) z) /\
  In (VStr "2") (labels Examples.test_frame) /\
  ~ In (VStr "2") [VStr "0"; VStr "1"] /\
  exists df',
    dataset.update_label Examples.test_frame [VStr "0"; VStr "1"] 99 = Ok df' /\
    List.length df' = List.length Examples.test_frame /\
    Forall2 (normalised [VStr "0"; VStr "1"] 99) Examples.test_frame df'.
Proof.
  assert (H : forall r, In r Examples.test_frame ->
                        ~ In (label (snd r)) [VStr "0"; VStr "1"] ->
                        exists z, denotes (label (snd r)) z).
  { intros r Hr _. unfold Examples.test_frame in Hr. simpl in Hr.
    repeat (destruct Hr as [E|Hr];
            [rewrite <- E; eexists; apply int_denotes; vm_compute;
             reflexivity|]).
    destruct Hr. }
  split; [exact H|].
  split; [cbn; tauto|].
  split; [cbn; intuition discriminate|].
  apply (@update_label_spec Examples.test_frame [VStr "0"; VStr "1"] 99 H).
Defined.

(** C10. [update_label] raises exactly when some row has a label that is
    not in [old_labels] and that writes no number; what it raises is
    [ValueError].  When every label outside [old_labels] is an [int] or a
    string of decimal digits, at least one and at most 4300, it
    returns. *)
Theorem update_label_raises_iff (df : DataFrame) (old_labels : list value)
        (new_label : Z) :
  (raises (dataset.update_label df old_labels new_label) <->
   exists r, In r df /\ ~ In (label (snd r)) old_labels /\
             ~ exists z, denotes (label (snd r)) z) /\
  (forall e, dataset.update_label df old_labels new_label = Raise e ->
             e = ValueError) /\
  ((forall r, In r df -> ~ In (label (snd r)) old_labels ->
              int_or_short_digits (label (snd r))) ->
   exists df', dataset.update_label df old_labels new_label = Ok df').
Proof.
  assert (V : forall v, raises (int v) <-> ~ exists z, denotes v z).
  { intro v. split.
    - intros [e He] [z Hz]. apply int_denotes in Hz. congruence.
    - intro N. destruct (int v) as [z|e] eqn:E; [|now exists e].
      exfalso. apply N. exists z. now apply int_denotes. }
  split; [|split].
  - rewrite update_label_raises. split.
    + intros [r [Hr [Hout R]]]. apply V in R. eauto.
    + intros [r [Hr [Hout R]]]. apply V in R. eauto.
  - intros e. apply update_label_raise.
  - intro H. apply update_label_returns.
    intros r Hr Hout.
    destruct (short_digits_denote _ (H r Hr Hout)) as [z Hz].
    exists z. now apply int_denotes.
Qed.

(** The three parts on frames where they have something to say: a label
    outside [old_labels] that writes no number stops the call; without it
    the call returns, and the labels "2", "3" and "4" of the test frame are
    read. *)
Example update_label_not_a_number :
  dataset.update_label Examples.abc_frame [VStr "A"; VStr "B"] 7
  = Raise ValueError /\
  In (VStr "C") (labels Examples.abc_frame) /\
  ~ In (VStr "C") [VStr "A"; VStr "B"] /\
  (~ exists z, denotes (VStr "C") z) /\
  (forall r, In r Examples.test_frame ->
             ~ In (label (snd r)) [VStr "0"; VStr "1"] ->
             int_or_short_digits (label (snd r))) /\
  int_or_short_digits (VStr "2") /\
  denotes (VStr "2") 2.
Proof.
  split; [reflexivity|]. split; [cbn; tauto|].
  split; [cbn; intuition discriminate|].
  split; [intros [z Hz]; apply int_denotes in Hz; discriminate Hz|].
  split.
  - intros r Hr _. unfold Examples.test_frame in Hr. simpl in Hr.
    repeat (destruct Hr as [E|Hr];
            [rewrite <- E; cbn; repeat split; try discriminate; lia|]).
    destruct Hr.
  - split; [cbn; repeat split; try discriminate; lia|].
    apply int_denotes. reflexivity.
Qed.

(** C10 does not hold as stated: a label that is a string of digits, 4301
    of them, is outside what [int] converts, and the call raises. *)
Lemma update_label_long_digits :
  int_or_digits (VStr Examples.long_digits) /\
  len Examples.long_digits = 4301 /\
  dataset.update_label
    [(0, Ticket (VInt 0) "" (VStr Examples.long_digits))] [] 0
  = Raise ValueError.
Proof.
  split; [split; [vm_compute; discriminate|vm_compute; reflexivity]|].
  split; vm_compute; reflexivity.
Qed.

(* ================================================================== *)
(** * [main]: the batch identifier *)

Lemma isdigit_false (s : string) :
  (exists c, In c (chars s) /\ is_digit c = false) -> isdigit s = false.
Proof.
  intros [c [Hc Hd]]. unfold isdigit.
  destruct (chars s) as [|a l] eqn:E; [reflexivity|].
  destruct (forallb is_digit (a :: l)) eqn:F; [|reflexivity].
  rewrite forallb_forall in F. specialize (F c Hc). congruence.
Qed.

(** C9. A batch identifier that is not 10 characters long, or that holds a
    character that is no digit, makes [main] raise [ValueError] before
    anything outside the process is accessed: no secret is read, no
    connection is made, no query is sent, nothing is written. *)
Theorem main_rejects_batch_id {RS : RandomState} (w : prepare.World)
        (cfg : prepare.Config) (batch_id : string) :
  len batch_id <> 10 \/
  (exists c, In c (chars batch_id) /\ is_digit c = false) ->
  prepare.main w cfg batch_id = ([], Raise ValueError).
Proof.
  intro H. unfold prepare.main.
  destruct H as [H|H].
  - apply Nat.eqb_neq in H. now rewrite H.
  - rewrite (isdigit_false _ H). simpl. now rewrite orb_true_r.
Qed.

Lemma main_rejects_batch_id_witness :
  (len "0" <> 10 \/ (exists c, In c (chars "0") /\ is_digit c = false)) /\
  prepare.main (RS := Examples.reversing) (Examples.world []) Examples.cfg "0"
  = ([], Raise ValueError).
Proof.
  assert (H : len "0" <> 10 \/
              (exists c, In c (chars "0") /\ is_digit c = false))
    by (left; discriminate).
  split; [exact H|].
  apply (main_rejects_batch_id (RS := Examples.reversing)
           (Examples.world []) Examples.cfg "0" H).
Defined.

(** Ten characters with a letter among them. *)
Example main_rejects_letters :
  prepare.main (RS := Examples.reversing) (Examples.world []) Examples.cfg
               "2025x11100"
  = ([], Raise ValueError).
Proof. reflexivity. Qed.

(* ================================================================== *)
(** * The splitter: arithmetic of [_approximate_mode] *)

Lemma enumerate_from_length {A} (n : nat) (l : list A) :
  List.length (enumerate_from n l) = List.length l.
Proof. revert n. induction l as [|x t IH]; intro n; simpl; auto. Qed.

Lemma mem_In (inds : list nat) (i : nat) : mem inds i = true <-> In i inds.
Proof.
  unfold mem. rewrite existsb_exists. split.
  - intros [j [Hj E]]. apply Nat.eqb_eq in E. now subst.
  - intro H. exists i. split; [assumption | apply Nat.eqb_refl].
Qed.

Lemma incr_from_sum (inds a : list nat) (n : nat) :
  list_sum (map (fun p => if mem inds (fst p) then S (snd p) else snd p)
                (enumerate_from n a))
  = list_sum a + List.length (List.filter (mem inds) (seq n (List.length a))).
Proof.
  revert n. induction a as [|x t IH]; intro n; simpl; [reflexivity|].
  rewrite IH. destruct (mem inds n); simpl; lia.
Qed.

Lemma incr_from_nth (inds a : list nat) (n i : nat) :
  i < List.length a ->
  nth i (map (fun p => if mem inds (fst p) then S (snd p) else snd p)
             (enumerate_from n a)) 0
  = nth i a 0 + (if mem inds (n + i) then 1 else 0).
Proof.
  revert n i. induction a as [|x t IH]; intros n i H; simpl in *; [lia|].
  destruct i as [|i].
  - rewrite Nat.add_0_r. destruct (mem inds n); lia.
  - rewrite IH by lia. now rewrite Nat.add_succ_r.
Qed.

Lemma incr_at_length (inds a : list nat) :
  List.length (sklearn.incr_at inds a) = List.length a.
Proof. unfold sklearn.incr_at. now rewrite length_map, enumerate_from_length. Qed.

Lemma incr_at_nth (inds a : list nat) (i : nat) :
  i < List.length a ->
  nth i (sklearn.incr_at inds a) 0 = nth i a 0 + (if mem inds i then 1 else 0).
Proof. intro H. exact (@incr_from_nth inds a 0 i H). Qed.

Lemma filter_mem_length (inds : list nat) (n len : nat) :
  NoDup inds -> (forall i, In i inds -> n <= i < n + len) ->
  List.length (List.filter (mem inds) (seq n len)) = List.length inds.
Proof.
  intros N B. apply Permutation_length, NoDup_Permutation.
  - apply NoDup_filter, seq_NoDup.
  - assumption.
  - intro i. rewrite filter_In, in_seq, mem_In. split; [tauto|].
    intro H. split; [apply B|]; assumption.
Qed.

Lemma incr_at_sum (inds a : list nat) :
  NoDup inds -> (forall i, In i inds -> i < List.length a) ->
  list_sum (sklearn.incr_at inds a) = list_sum a + List.length inds.
Proof.
  intros N B. transitivity
    (list_sum a + List.length (List.filter (mem inds) (seq 0 (List.length a)))).
  - exact (@incr_from_sum inds a 0).
  - rewrite filter_mem_length; auto.
    intros i Hi. specialize (B i Hi). lia.
Qed.

Lemma where_eq_In (v : nat) (col : list nat) (i : nat) :
  In i (sklearn.where_eq v col) <-> i < List.length col /\ nth i col 0 = v.
Proof.
  unfold sklearn.where_eq. rewrite filter_In, in_seq, Nat.eqb_eq. lia.
Qed.

Lemma where_eq_NoDup (v : nat) (col : list nat) : NoDup (sklearn.where_eq v col).
Proof. apply NoDup_filter, seq_NoDup. Qed.

Lemma sum_indicator_nat (x : nat) (l : list nat) :
  NoDup l -> In x l ->
  list_sum (map (fun v => if x =? v then 1 else 0) l) = 1.
Proof.
  induction 1 as [|y t Ny Nt IH]; [intros []|]. simpl.
  destruct (Nat.eqb_spec x y) as [->|Hne].
  - intros _. f_equal. clear IH Nt.
    induction t as [|z t IH]; simpl; [reflexivity|].
    destruct (Nat.eqb_spec y z) as [->|_].
    + exfalso. apply Ny. now left.
    + apply IH. intro H. apply Ny. now right.
  - intros [->|H]; [contradiction | now apply IH].
Qed.

(** The classes of equal remainders cover the positions once. *)
Lemma sum_classes (g : nat -> nat) (xs vs : list nat) :
  NoDup vs -> (forall i, In i xs -> In (g i) vs) ->
  list_sum (map (fun v => List.length (List.filter (fun i => g i =? v) xs)) vs)
  = List.length xs.
Proof.
  intro N. induction xs as [|i t IH]; intro C.
  - clear. induction vs as [|v vs IH]; simpl; auto.
  - rewrite (map_ext _ (fun v => (if g i =? v then 1 else 0)
                                 + List.length (List.filter (fun i => g i =? v) t))).
    + rewrite list_sum_map_add, sum_indicator_nat, IH; simpl; auto.
      * intros j Hj. apply C. now right.
      * apply C. now left.
    + intro v. simpl. now destruct (g i =? v).
Qed.

Lemma sum_where_eq (col vs : list nat) :
  NoDup vs -> incl col vs ->
  list_sum (map (fun v => List.length (sklearn.where_eq v col)) vs)
  = List.length col.
Proof.
  intros N I. unfold sklearn.where_eq.
  rewrite (sum_classes (fun i => nth i col 0)), length_seq; auto.
  intros i Hi. apply I, nth_In. apply in_seq in Hi. lia.
Qed.

Section Splitter.

Context {RS : RandomState} {L : RandomStateLaws RS}.

Lemma choice_chosen (s : rng) (inds : list nat) (k : nat) :
  k <= List.length inds -> NoDup inds ->
  List.length (fst (choice s inds k)) = k /\
  NoDup (fst (choice s inds k)) /\
  incl (fst (choice s inds k)) inds.
Proof. apply choice_spec. Qed.

Lemma add_largest_spec (values remainder : list nat) :
  NoDup values ->
  forall (floored : list nat) (need : nat) (s : rng),
    List.length floored = List.length remainder ->
    let res := fst (sklearn.add_largest values remainder floored need s) in
    List.length res = List.length floored /\
    list_sum res
    = list_sum floored
      + Nat.min need
          (list_sum (map (fun v => List.length (sklearn.where_eq v remainder))
                         values)) /\
    forall i, i < List.length floored ->
      nth i floored 0 <= nth i res 0 <= nth i floored 0 + 1 /\
      (~ In (nth i remainder 0) values -> nth i res 0 = nth i floored 0).
Proof.
  induction 1 as [|v vs Nv Nvs IH]; intros floored need s Hlen; simpl.
  - repeat split; try lia.
  - set (inds := sklearn.where_eq v remainder).
    set (add_now := Nat.min (List.length inds) need).
    destruct (@choice_chosen s inds add_now) as [Clen [Cnd Cin]];
      [unfold add_now; lia | apply where_eq_NoDup |].
    destruct (choice s inds add_now) as [chosen s'] eqn:C. simpl in *.
    assert (Cb : forall i, In i chosen -> i < List.length floored).
    { intros i Hi. apply Cin, where_eq_In in Hi. lia. }
    assert (Fsum : list_sum (sklearn.incr_at chosen floored)
                   = list_sum floored + add_now)
      by (rewrite incr_at_sum; auto).
    assert (Fnth : forall i, i < List.length floored ->
               nth i (sklearn.incr_at chosen floored) 0
               = nth i floored 0 + (if mem chosen i then 1 else 0))
      by (intros; now apply incr_at_nth).
    assert (Fout : forall i, nth i remainder 0 <> v -> mem chosen i = false).
    { intros i Hi. destruct (mem chosen i) eqn:M; [|reflexivity].
      apply mem_In, Cin, where_eq_In in M. tauto. }
    destruct (need - add_now =? 0) eqn:Z; simpl.
    + apply Nat.eqb_eq in Z. split; [apply incr_at_length|]. split.
      * rewrite Fsum. unfold add_now in *. lia.
      * intros i Hi. rewrite (Fnth i Hi). split.
        -- destruct (mem chosen i); lia.
        -- intro Hout. rewrite Fout; [lia|]. intro E. apply Hout. now left.
    + apply Nat.eqb_neq in Z.
      specialize (IH (sklearn.incr_at chosen floored) (need - add_now) s').
      rewrite incr_at_length in IH. specialize (IH Hlen).
      destruct IH as [IHlen [IHsum IHnth]].
      split; [assumption|]. split.
      * rewrite IHsum, Fsum. unfold add_now in *. lia.
      * intros i Hi. destruct (IHnth i Hi) as [IHb IHo].
        rewrite (Fnth i Hi) in IHb, IHo.
        destruct (Nat.eq_dec (nth i remainder 0) v) as [E|E].
        -- assert (Ho : ~ In (nth i remainder 0) vs) by now rewrite E.
           rewrite (IHo Ho). split; [destruct (mem chosen i); lia|].
           intro Hout. exfalso. apply Hout. now left.
        -- rewrite (Fout i E) in *. split; [lia|].
           intro Hout. rewrite IHo; [lia|]. intro H. apply Hout. now right.
Qed.

Lemma np_unique_NoDup (a : list nat) : NoDup (sklearn.np_unique a).
Proof.
  unfold sklearn.np_unique.
  apply Permutation_NoDup with (nodup Nat.eq_dec a).
  - symmetry. apply sort_by_perm.
  - apply NoDup_nodup.
Qed.

Lemma np_unique_In (a : list nat) (x : nat) :
  In x (sklearn.np_unique a) <-> In x a.
Proof. unfold sklearn.np_unique. now rewrite sort_by_In, nodup_In. Qed.

Lemma div_mod_sum (cs : list nat) (d total : nat) :
  list_sum (map (fun c => c * d / total) cs) * total
  + list_sum (map (fun c => (c * d) mod total) cs)
  = list_sum cs * d.
Proof.
  induction cs as [|c t IH]; simpl; [reflexivity|].
  pose proof (Nat.div_mod_eq (c * d) total). nia.
Qed.

Lemma mod_sum_bound (cs : list nat) (d total : nat) :
  0 < total ->
  list_sum (map (fun c => (c * d) mod total) cs)
  <= List.length cs * (total - 1).
Proof.
  intro T. induction cs as [|c t IH]; simpl; [lia|].
  pose proof (Nat.mod_upper_bound (c * d) total). lia.
Qed.

Lemma nth_map_0 (f : nat -> nat) (l : list nat) (i : nat) :
  i < List.length l -> nth i (map f l) 0 = f (nth i l 0).
Proof.
  intro H. rewrite (nth_indep _ 0 (f 0)) by now rewrite length_map.
  apply map_nth.
Qed.

(** [_approximate_mode] hands out exactly [n_draws] draws, and each class
    gets its share rounded down or up. *)
Lemma approximate_mode_spec (cs : list nat) (d : nat) (s : rng) :
  0 < list_sum cs -> d <= list_sum cs ->
  let ns := fst (sklearn._approximate_mode cs d s) in
  List.length ns = List.length cs /\
  list_sum ns = d /\
  forall i, i < List.length cs ->
    nth i cs 0 * d / list_sum cs <= nth i ns 0
    <= nth i cs 0 * d / list_sum cs + 1.
Proof.
  intros T D. unfold sklearn._approximate_mode.
  set (total := list_sum cs) in *.
  set (floored := map (fun c => c * d / total) cs).
  set (remainder := map (fun c => (c * d) mod total) cs).
  pose proof (div_mod_sum cs d total) as DM.
  pose proof (mod_sum_bound cs d T) as MB.
  fold floored remainder total in DM, MB.
  assert (Fle : list_sum floored <= d) by nia.
  assert (K : 0 < List.length cs)
    by (destruct cs; [simpl in *; unfold total in T; simpl in T; lia
                     | simpl; lia]).
  assert (Need : d - list_sum floored <= List.length cs) by nia.
  assert (Fn : forall i, i < List.length cs ->
                         nth i floored 0 = nth i cs 0 * d / total)
    by (intros; unfold floored; now rewrite nth_map_0).
  destruct (0 <? d - list_sum floored) eqn:Z; simpl.
  - destruct (@add_largest_spec (rev (sklearn.np_unique remainder)) remainder)
      with (floored := floored) (need := d - list_sum floored) (s := s)
      as [Hlen [Hsum Hnth]].
    + apply NoDup_rev, np_unique_NoDup.
    + unfold floored, remainder. now rewrite !length_map.
    + split; [rewrite Hlen; apply length_map|]. split.
      * rewrite Hsum.
        rewrite (list_sum_perm
                   (Permutation_map _
                      (Permutation_sym (Permutation_rev (sklearn.np_unique remainder))))).
        rewrite sum_where_eq.
        -- unfold remainder at 1. rewrite length_map. lia.
        -- apply np_unique_NoDup.
        -- intros x Hx. now apply np_unique_In.
      * intros i Hi.
        destruct (Hnth i) as [B _];
          [unfold floored; now rewrite length_map|].
        rewrite (Fn i Hi) in B. exact B.
  - apply Nat.ltb_ge in Z. split; [apply length_map|]. split; [lia|].
    intros i Hi. rewrite (Fn i Hi). lia.
Qed.

(** When as many draws are asked as there are rows, every class gives all
    its rows and the generator is not consulted. *)
Lemma approximate_mode_all (cs : list nat) (s : rng) :
  0 < list_sum cs ->
  sklearn._approximate_mode cs (list_sum cs) s = (cs, s).
Proof.
  intro T. unfold sklearn._approximate_mode.
  assert (F : map (fun c => c * list_sum cs / list_sum cs) cs = cs).
  { transitivity (map (fun c => c) cs); [|apply map_id].
    apply map_ext. intro c. apply Nat.div_mul. lia. }
  rewrite F, Nat.sub_diag. reflexivity.
Qed.

End Splitter.

(* ================================================================== *)
(** * The splitter: positions and classes *)

Lemma at_label_true (y : list value) (c : value) (i : nat) :
  at_label y c i = true <-> nth_error y i = Some c.
Proof.
  unfold at_label. destruct (nth_error y i) as [v|]; [|split; discriminate].
  rewrite value_eqb_eq. split; congruence.
Qed.

Lemma positions_of_In (c : value) (y : list value) (i : nat) :
  In i (sklearn.positions_of c y) <-> nth_error y i = Some c.
Proof.
  unfold sklearn.positions_of. rewrite filter_In, in_seq.
  fold (at_label y c i). rewrite at_label_true. split; [tauto|].
  intro H. split; [|assumption].
  assert (nth_error y i <> None) by congruence.
  apply nth_error_Some in H0. lia.
Qed.

Lemma positions_of_NoDup (c : value) (y : list value) :
  NoDup (sklearn.positions_of c y).
Proof. apply NoDup_filter, seq_NoDup. Qed.

Lemma filter_positions_length (p : value -> bool) (y : list value) :
  List.length (List.filter (fun i => match nth_error y i with
                                     | Some v => p v
                                     | None => false
                                     end) (seq 0 (List.length y)))
  = List.length (List.filter p y).
Proof.
  induction y as [|x t IH]; [reflexivity|].
  cbn [List.length seq]. rewrite <- seq_shift. cbn [List.filter nth_error].
  rewrite filter_map_swap.
  destruct (p x); cbn [List.length]; rewrite length_map; [f_equal|]; exact IH.
Qed.

Lemma positions_of_length (c : value) (y : list value) :
  List.length (sklearn.positions_of c y) = count c y.
Proof.
  unfold sklearn.positions_of, count.
  rewrite (filter_positions_length (fun v => value_eqb v c)).
  f_equal. apply filter_ext. intro v. apply value_eqb_sym.
Qed.

Lemma positions_partition (classes y : list value) :
  NoDup classes -> incl y classes ->
  Permutation (flat_map (fun c => sklearn.positions_of c y) classes)
              (seq 0 (List.length y)).
Proof.
  intros N I. apply NoDup_Permutation.
  - clear I. induction N as [|c cs Nc Ncs IH]; simpl; [constructor|].
    apply NoDup_app; [apply positions_of_NoDup | assumption |].
    intros i Hi Hin. apply positions_of_In in Hi.
    apply in_flat_map in Hin as [c' [Hc' Hi']].
    apply positions_of_In in Hi'. congruence.
  - apply seq_NoDup.
  - intro i. rewrite in_flat_map, in_seq. split.
    + intros [c [_ Hi]]. apply positions_of_In in Hi.
      assert (nth_error y i <> None) by congruence.
      apply nth_error_Some in H. lia.
    + intros [_ Hi]. apply nth_error_Some in Hi.
      destruct (nth_error y i) as [v|] eqn:E; [|congruence].
      exists v. split; [apply I; eapply nth_error_In; eauto|].
      now apply positions_of_In.
Qed.

Lemma take_seq (l : list nat) :
  map (fun j => nth j l 0) (seq 0 (List.length l)) = l.
Proof.
  induction l as [|x t IH]; [reflexivity|].
  cbn [List.length seq map nth]. f_equal.
  rewrite <- seq_shift, map_map. exact IH.
Qed.

Lemma take_perm (l p : list nat) :
  Permutation p (seq 0 (List.length l)) ->
  Permutation (map (fun j => nth j l 0) p) l.
Proof.
  intro H.
  apply Permutation_trans with (map (fun j => nth j l 0) (seq 0 (List.length l))).
  - now apply Permutation_map.
  - now rewrite take_seq.
Qed.

Lemma filter_all {A} (p : A -> bool) (l : list A) :
  (forall x, In x l -> p x = true) -> List.filter p l = l.
Proof.
  induction l as [|x t IH]; intro H; simpl; [reflexivity|].
  rewrite H by now left. f_equal. apply IH. intros. apply H. now right.
Qed.

Lemma filter_none {A} (p : A -> bool) (l : list A) :
  (forall x, In x l -> p x = false) -> List.filter p l = [].
Proof.
  induction l as [|x t IH]; intro H; simpl; [reflexivity|].
  rewrite H by now left. apply IH. intros. apply H. now right.
Qed.

Lemma in_firstn {A} (n : nat) (l : list A) (x : A) :
  In x (firstn n l) -> In x l.
Proof. intro H. rewrite <- (firstn_skipn n l). apply in_or_app. now left. Qed.

Lemma in_skipn {A} (n : nat) (l : list A) (x : A) :
  In x (skipn n l) -> In x l.
Proof. intro H. rewrite <- (firstn_skipn n l). apply in_or_app. now right. Qed.

Lemma filter_pure_part (P : nat -> bool) (idx part : list nat) (n : nat) :
  pure_class P idx -> incl part idx -> List.length part = n ->
  n <= List.length idx ->
  List.length (List.filter P part) = if forallb P idx then n else 0.
Proof.
  intros [Hall|Hnone] I Hn Hle.
  - rewrite filter_all by (intros; apply Hall, I; assumption).
    replace (forallb P idx) with true; [assumption|].
    symmetry. now apply forallb_forall.
  - rewrite filter_none by (intros; apply Hnone, I; assumption).
    destruct (forallb P idx) eqn:F; [|reflexivity].
    destruct idx as [|i t]; [simpl in *; lia|].
    rewrite forallb_forall in F.
    specialize (F i (or_introl eq_refl)). specialize (Hnone i (or_introl eq_refl)).
    congruence.
Qed.

Section Classes.

Context {RS : RandomState} {L : RandomStateLaws RS}.

Lemma shuffle_perm (s : rng) (l : list nat) :
  Permutation (fst (sklearn.shuffle s l)) l.
Proof.
  unfold sklearn.shuffle.
  pose proof (permutation_spec s (List.length l)) as P.
  destruct (permutation s (List.length l)) as [p s']. simpl in *.
  now apply take_perm.
Qed.

Lemma draw_classes_spec (cls : list (list nat * (nat * nat))) (s : rng) :
  Forall (fun c => fst (snd c) + snd (snd c) = List.length (fst c)) cls ->
  let train := fst (fst (sklearn.draw_classes cls s)) in
  let test := snd (fst (sklearn.draw_classes cls s)) in
  Permutation (train ++ test) (flat_map fst cls) /\
  forall P : nat -> bool,
    Forall (fun c => pure_class P (fst c)) cls ->
    List.length (List.filter P train)
    = list_sum (map (fun c => if forallb P (fst c) then fst (snd c) else 0) cls)
    /\
    List.length (List.filter P test)
    = list_sum (map (fun c => if forallb P (fst c) then snd (snd c) else 0) cls).
Proof.
  revert s. induction cls as [|[idx [n t]] rest IH]; intros s F; simpl.
  - split; [constructor|]. intros. split; reflexivity.
  - inversion F as [|? ? Hnt Frest]; subst. simpl in Hnt.
    pose proof (permutation_spec s (List.length idx)) as Pp.
    destruct (permutation s (List.length idx)) as [p s1]. simpl in Pp.
    set (perm := map (fun j => nth j idx 0) p).
    assert (Pperm : Permutation perm idx) by now apply take_perm.
    assert (Lperm : List.length perm = n + t)
      by (rewrite (Permutation_length Pperm); lia).
    specialize (IH s1 Frest).
    destruct (sklearn.draw_classes rest s1) as [[tr te] s2]. simpl in *.
    destruct IH as [IHp IHc].
    assert (Rest : firstn t (skipn n perm) = skipn n perm)
      by (apply firstn_all2; rewrite length_skipn; lia).
    split.
    + rewrite Rest.
      transitivity ((firstn n perm ++ skipn n perm) ++ (tr ++ te)).
      * rewrite <- !app_assoc. apply Permutation_app_head.
        rewrite !app_assoc. apply Permutation_app_tail.
        apply Permutation_app_comm.
      * rewrite firstn_skipn. now apply Permutation_app.
    + intros P FP. inversion FP as [|? ? Pidx Prest]; subst. simpl in Pidx.
      destruct (IHc P Prest) as [IHtr IHte].
      rewrite !filter_app, !length_app, IHtr, IHte.
      split; f_equal.
      * apply filter_pure_part; try lia; [assumption | |].
        -- intros x Hx. apply (Permutation_in _ Pperm). now apply in_firstn in Hx.
        -- rewrite length_firstn. lia.
      * apply filter_pure_part; try lia; [assumption | |].
        -- intros x Hx. apply (Permutation_in _ Pperm).
           apply in_firstn in Hx. now apply in_skipn in Hx.
        -- rewrite Rest, length_skipn. lia.
Qed.

End Classes.

Lemma Forall2_of_nth (R : nat -> nat -> Prop) (a b : list nat) :
  List.length b = List.length a ->
  (forall i, i < List.length a -> R (nth i a 0) (nth i b 0)) ->
  Forall2 R a b.
Proof.
  revert b. induction a as [|x t IH]; intros [|y u] Hl H; simpl in *;
    try discriminate; constructor.
  - apply (H 0). lia.
  - apply IH; [lia|]. intros i Hi. apply (H (S i)). lia.
Qed.

Lemma Forall2_map_left {A B C} (R : B -> C -> Prop) (g : A -> B)
      (l : list A) (l' : list C) :
  Forall2 R (map g l) l' -> Forall2 (fun x y => R (g x) y) l l'.
Proof.
  revert l'. induction l as [|x t IH]; intros l' H; inversion H; subst;
    constructor; auto.
Qed.

Lemma Forall2_combine {A B} (R : A -> B -> Prop) (l : list A) (l' : list B) :
  Forall2 R l l' -> Forall (fun z => R (fst z) (snd z)) (combine l l').
Proof. induction 1; simpl; constructor; auto. Qed.

Lemma Forall2_weaken {A B} (R R' : A -> B -> Prop) (l : list A) (l' : list B) :
  (forall x y, In x l -> R x y -> R' x y) -> Forall2 R l l' -> Forall2 R' l l'.
Proof.
  intros W H. induction H; constructor.
  - apply W; [now left | assumption].
  - apply IHForall2. intros. apply W; [now right | assumption].
Qed.

Lemma sum_sub_combine (a b : list nat) :
  Forall2 (fun x y => y <= x) a b ->
  list_sum (map (fun p => fst p - snd p) (combine a b))
  = list_sum a - list_sum b /\ list_sum b <= list_sum a.
Proof. induction 1; simpl; lia. Qed.

Lemma map_snd_combine {A B} (l : list A) (l' : list B) :
  List.length l = List.length l' -> map snd (combine l l') = l'.
Proof.
  revert l'. induction l as [|x t IH]; intros [|y u] H; simpl in *;
    try discriminate; [reflexivity|]. f_equal. apply IH. lia.
Qed.

Lemma filter_length_perm {A} (p : A -> bool) (l l' : list A) :
  Permutation l l' ->
  List.length (List.filter p l) = List.length (List.filter p l').
Proof.
  induction 1 as [|x l l' H IH|x y l|l l' l'' H1 IH1 H2 IH2]; simpl;
    try destruct (p x); try destruct (p y); simpl; congruence.
Qed.

(** The classes and what each gets, as the loop of the splitter sees
    them. *)
Lemma classes_shape (y : list value) (classes : list value) (ns : list nat) :
  combine (map (fun c => sklearn.positions_of c y) classes)
          (combine ns (map (fun p => fst p - snd p)
                           (combine (map (fun c => count c y) classes) ns)))
  = map (fun z => (sklearn.positions_of (fst z) y,
                   (snd z, count (fst z) y - snd z)))
        (combine classes ns).
Proof.
  revert ns. induction classes as [|c cs IH]; intros [|n ns]; simpl;
    try reflexivity. f_equal. apply IH.
Qed.

(** Among classes without repetition, the sum that selects label [c] is
    what [c] got. *)
Lemma selected_share (R : value -> nat -> Prop) (c : value)
      (classes : list value) (ns : list nat) :
  NoDup classes -> In c classes -> Forall2 R classes ns ->
  R c (list_sum (map (fun z => if value_eqb (fst z) c then snd z else 0)
                     (combine classes ns))).
Proof.
  intros N I F. induction F as [|c' n cs ns' Hc Hrest IH]; [destruct I|].
  inversion N as [|? ? Nc Ncs]; subst. simpl.
  destruct (value_eqb c' c) eqn:E.
  - apply value_eqb_eq in E. subst c'.
    replace (list_sum _) with 0; [now rewrite Nat.add_0_r|].
    clear IH Hc I N Ncs. symmetry.
    induction Hrest as [|c'' n'' cs' ns'' _ _ IH]; simpl; [reflexivity|].
    destruct (value_eqb c'' c) eqn:E.
    + apply value_eqb_eq in E. subst. exfalso. apply Nc. now left.
    + apply IH. intro H. apply Nc. now right.
  - simpl. apply IH; [assumption|].
    destruct I as [->|I]; [|assumption].
    rewrite value_eqb_refl in E. discriminate.
Qed.

Lemma flat_map_fst_combine {A B C} (f : A -> list C) (l : list A)
      (l' : list B) :
  List.length l = List.length l' ->
  flat_map (fun z => f (fst z)) (combine l l') = flat_map f l.
Proof.
  revert l'. induction l as [|x t IH]; intros [|x' t'] H; simpl in *;
    try discriminate; [reflexivity|]. f_equal. apply IH. lia.
Qed.

Lemma forallb_const_true {A} (l : list A) : forallb (fun _ => true) l = true.
Proof. induction l; simpl; auto. Qed.

Lemma forallb_positions (y : list value) (c c' : value) :
  0 < count c' y ->
  forallb (at_label y c) (sklearn.positions_of c' y) = value_eqb c' c.
Proof.
  intro H. rewrite <- positions_of_length in H.
  destruct (value_eqb c' c) eqn:E.
  - apply forallb_forall. intros i Hi. apply positions_of_In in Hi.
    unfold at_label. now rewrite Hi.
  - destruct (sklearn.positions_of c' y) as [|i t] eqn:P; [simpl in H; lia|].
    assert (Hi : In i (sklearn.positions_of c' y)) by (rewrite P; now left).
    apply positions_of_In in Hi. simpl. unfold at_label at 1.
    now rewrite Hi, E.
Qed.

Lemma unique_nonempty (y : list value) : y <> [] -> 0 < List.length (unique y).
Proof. destruct y; [congruence|]. simpl. lia. Qed.

Section Stratified.

Context {RS : RandomState} {L : RandomStateLaws RS}.

Variable y : list value.
Variable test_size : Q.
Variable seed : Z.

Let n := List.length y.
Let n_test := sklearn.n_test_of test_size n.
Let n_train := n - n_test.

Hypothesis y_uniform : uniform y = true.
Hypothesis y_nonempty : y <> [].
Hypothesis size_pos : (0 < test_size)%Q.
Hypothesis size_lt_1 : (test_size < 1)%Q.
Hypothesis two_each : forall c, In c y -> 2 <= count c y.
Hypothesis test_room : List.length (unique y) <= n_test.
Hypothesis train_room : List.length (unique y) <= n_train.

Lemma stratified_positions_spec :
  exists train test,
    sklearn.stratified_positions y test_size seed = Ok (train, test) /\
    Permutation (train ++ test) (seq 0 n) /\
    List.length train = n_train /\
    forall c, In c y ->
      count c y * n_train / n <= List.length (List.filter (at_label y c) train)
      <= count c y * n_train / n + 1.
Proof.
  pose proof (unique_nonempty y_nonempty) as K.
  unfold sklearn.stratified_positions.
  fold n. fold n_test. fold n_train.
  replace (Qle_bool test_size 0) with false
    by (symmetry; apply not_true_is_false; intro H;
        apply Qle_bool_iff in H; now apply (Qlt_not_le _ _ size_pos)).
  replace (Qle_bool 1 test_size) with false
    by (symmetry; apply not_true_is_false; intro H;
        apply Qle_bool_iff in H; now apply (Qlt_not_le _ _ size_lt_1)).
  simpl orb. cbv iota.
  replace (n_train =? 0) with false by (symmetry; apply Nat.eqb_neq; lia).
  unfold py_sort.
  rewrite py_sort_by_ok
    by (rewrite map_id; apply uniform_incl with y;
        [intros x Hx; now apply unique_In | assumption]).
  simpl bind.
  set (classes := sort_by (fun a b => value_leb a b) (unique y)).
  assert (Cperm : Permutation classes (unique y)) by apply sort_by_perm.
  assert (Cnd : NoDup classes)
    by (apply Permutation_NoDup with (unique y);
        [now symmetry | apply unique_NoDup]).
  assert (Cin : forall c, In c classes <-> In c y).
  { intro c. rewrite <- (unique_In c y). split; apply Permutation_in;
      [assumption | now symmetry]. }
  assert (Clen : List.length classes = List.length (unique y))
    by now apply Permutation_length.
  set (class_counts := map (fun c => count c y) classes).
  assert (Total : list_sum class_counts = n).
  { unfold class_counts. apply sum_counts; [assumption|].
    intros x Hx. now apply Cin. }
  replace (existsb (fun c => c <? 2) class_counts) with false.
  2:{ symmetry. apply not_true_is_false. intro H.
      apply existsb_exists in H as [c [Hc Hlt]].
      apply in_map_iff in Hc as [l [<- Hl]].
      apply Nat.ltb_lt in Hlt. apply Cin, two_each in Hl. lia. }
  replace (n_train <? List.length classes) with false
    by (symmetry; apply Nat.ltb_ge; lia).
  replace (n_test <? List.length classes) with false
    by (symmetry; apply Nat.ltb_ge; lia).
  assert (Npos : 0 < n) by (subst n_train; lia).
  destruct (@approximate_mode_spec RS L class_counts n_train (seeded seed))
    as [Nlen [Nsum Nnth]]; [lia | lia |].
  destruct (sklearn._approximate_mode class_counts n_train (seeded seed))
    as [n_i s1]. simpl in Nlen, Nsum, Nnth.
  rewrite Total in Nnth.
  assert (Nlen' : List.length n_i = List.length classes)
    by (rewrite Nlen; apply length_map).
  assert (Share : Forall2 (fun c k => count c y * n_train / n <= k
                                      <= count c y * n_train / n + 1)
                          classes n_i).
  { apply Forall2_map_left with (g := fun c => count c y)
                                (R := fun x k => x * n_train / n <= k
                                                 <= x * n_train / n + 1).
    now apply Forall2_of_nth. }
  assert (Below : Forall2 (fun x k => k <= x) class_counts n_i).
  { unfold class_counts.
    assert (B : Forall2 (fun c k => k <= count c y) classes n_i).
    { apply Forall2_weaken with (2 := Share). intros c k Hc [_ Hk].
      apply Cin, two_each in Hc.
      assert (count c y * n_train / n < count c y)
        by (apply Nat.Div0.div_lt_upper_bound; subst n_train; nia).
      lia. }
    clear - B. induction B; simpl; constructor; auto. }
  destruct (sum_sub_combine Below) as [Rsum _].
  set (remaining := map (fun p => fst p - snd p) (combine class_counts n_i))
    in *.
  assert (Rtotal : list_sum remaining = n_test)
    by (rewrite Rsum, Total, Nsum; subst n_train; lia).
  pose proof (@approximate_mode_all RS remaining s1) as AM.
  rewrite Rtotal in AM. rewrite AM by lia. clear AM.
  unfold remaining, class_counts. rewrite classes_shape.
  set (cls := map _ (combine classes n_i)).
  assert (Fcls : Forall (fun c => fst (snd c) + snd (snd c)
                                  = List.length (fst c)) cls).
  { unfold cls. apply Forall_map. simpl.
    assert (B : Forall2 (fun c k => k <= count c y) classes n_i).
    { clear - Below. unfold class_counts in Below.
      apply Forall2_map_left in Below. exact Below. }
    apply Forall2_combine in B. revert B. apply Forall_impl.
    intros z Hz. rewrite positions_of_length. lia. }
  destruct (@draw_classes_spec RS L cls s1 Fcls) as [Dperm Dcount].
  destruct (sklearn.draw_classes cls s1) as [[tr te] s3]. simpl in Dperm, Dcount.
  pose proof (@shuffle_perm RS L s3 tr) as Str.
  destruct (sklearn.shuffle s3 tr) as [train s4]. simpl in Str.
  pose proof (@shuffle_perm RS L s4 te) as Ste.
  destruct (sklearn.shuffle s4 te) as [test s5]. simpl in Ste.
  exists train, test. split; [reflexivity|].
  assert (Pure : forall P : nat -> bool,
             (forall c, In c classes ->
                        pure_class P (sklearn.positions_of c y)) ->
             Forall (fun c => pure_class P (fst c)) cls).
  { intros P HP. unfold cls. apply Forall_map. simpl.
    apply Forall_forall. intros [c k] Hz. simpl.
    apply HP. now apply in_combine_l in Hz. }
  split; [|split].
  - rewrite Str, Ste, Dperm. unfold cls. rewrite flat_map_concat_map, map_map.
    simpl. rewrite <- flat_map_concat_map.
    replace (flat_map _ (combine classes n_i))
      with (flat_map (fun c => sklearn.positions_of c y) classes).
    + apply positions_partition; [assumption|].
      intros x Hx. now apply Cin.
    + symmetry.
      apply (@flat_map_fst_combine _ _ _ (fun c => sklearn.positions_of c y)).
      lia.
  - rewrite (Permutation_length Str).
    destruct (Dcount (fun _ => true)) as [Htr _].
    { apply Pure. intros c _. left. reflexivity. }
    rewrite filter_all in Htr by reflexivity. rewrite Htr.
    unfold cls. rewrite map_map. simpl.
    rewrite (map_ext _ snd)
      by (intros [c k]; simpl; now rewrite forallb_const_true).
    rewrite map_snd_combine by lia. exact Nsum.
  - intros c Hc.
    rewrite (filter_length_perm _ Str).
    destruct (Dcount (at_label y c)) as [Htr _].
    { apply Pure. intros c' _.
      destruct (value_eqb c' c) eqn:E; [left | right]; intros i Hi;
        apply positions_of_In in Hi; unfold at_label; now rewrite Hi. }
    rewrite Htr. unfold cls. rewrite map_map. simpl.
    rewrite (map_ext_in _ (fun z => if value_eqb (fst z) c then snd z else 0)).
    + apply (@selected_share (fun c k => count c y * n_train / n <= k
                                        <= count c y * n_train / n + 1));
        [assumption | now apply Cin | assumption].
    + intros [c' k] Hz. simpl. apply in_combine_l in Hz.
      rewrite forallb_positions; [reflexivity|].
      apply Cin, two_each in Hz. lia.
Qed.

End Stratified.

(* ================================================================== *)
(** * The splitter: from positions to rows *)

Lemma iloc_app (df : DataFrame) (a b : list nat) :
  iloc df (a ++ b) = iloc df a ++ iloc df b.
Proof. apply flat_map_app. Qed.

Lemma iloc_perm (df : DataFrame) (a b : list nat) :
  Permutation a b -> Permutation (iloc df a) (iloc df b).
Proof.
  unfold iloc. induction 1 as [|x l l' H IH|x z l|l l' l'' H1 IH1 H2 IH2]; simpl.
  - constructor.
  - now apply Permutation_app_head.
  - rewrite !app_assoc. apply Permutation_app_tail, Permutation_app_comm.
  - now transitivity (flat_map (fun i => match nth_error df i with
                                         | Some r => [r]
                                         | None => []
                                         end) l').
Qed.

Lemma iloc_shift (r : row) (df : DataFrame) (l : list nat) :
  iloc (r :: df) (map S l) = iloc df l.
Proof. unfold iloc. induction l as [|i t IH]; simpl; [|rewrite IH]; reflexivity. Qed.

Lemma iloc_seq (df : DataFrame) : iloc df (seq 0 (List.length df)) = df.
Proof.
  induction df as [|r t IH]; [reflexivity|].
  cbn [List.length seq]. rewrite <- seq_shift.
  change (iloc (r :: t) (0 :: map S (seq 0 (List.length t))))
    with (r :: iloc (r :: t) (map S (seq 0 (List.length t)))).
  now rewrite iloc_shift, IH.
Qed.

Lemma iloc_length (df : DataFrame) (l : list nat) :
  (forall i, In i l -> i < List.length df) ->
  List.length (iloc df l) = List.length l.
Proof.
  unfold iloc. induction l as [|i t IH]; intro H; simpl; [reflexivity|].
  rewrite length_app, IH by (intros; apply H; now right).
  assert (Hi : i < List.length df) by (apply H; now left).
  apply nth_error_Some in Hi.
  destruct (nth_error df i); [reflexivity | congruence].
Qed.

Lemma iloc_count (df : DataFrame) (c : value) (l : list nat) :
  count c (labels (iloc df l))
  = List.length (List.filter (at_label (labels df) c) l).
Proof.
  induction l as [|i t IH]; [reflexivity|].
  change (iloc df (i :: t))
    with ((match nth_error df i with Some r => [r] | None => [] end)
            ++ iloc df t).
  assert (A : at_label (labels df) c i
              = match nth_error df i with
                | Some r => value_eqb (label (snd r)) c
                | None => false
                end).
  { unfold at_label, labels. rewrite nth_error_map.
    now destruct (nth_error df i). }
  unfold labels at 1. rewrite map_app. fold (labels (iloc df t)).
  unfold count at 1. rewrite filter_app, length_app.
  fold (count c (labels (iloc df t))). rewrite IH.
  cbn [List.filter]. rewrite A.
  destruct (nth_error df i) as [r|]; simpl; [|reflexivity].
  rewrite (value_eqb_sym c). now destruct (value_eqb (label (snd r)) c).
Qed.

Lemma count_app (c : value) (a b : list value) :
  count c (a ++ b) = count c a + count c b.
Proof. unfold count. now rewrite filter_app, length_app. Qed.

Lemma count_perm (c : value) (l l' : list value) :
  Permutation l l' -> count c l = count c l'.
Proof. apply filter_length_perm. Qed.

Lemma NoDup_app_disjoint {A} (a b : list A) :
  NoDup (a ++ b) -> forall x, In x a -> ~ In x b.
Proof.
  induction a as [|y t IH]; simpl; [intros _ x []|].
  intros N x [->|Hx] Hb; inversion N as [|? ? Ny Nt]; subst.
  - apply Ny, in_or_app. now right.
  - now apply (IH Nt x).
Qed.

(** [ceil(test_size * n)] is the least whole number of rows that is not
    below the product, a float. *)
Lemma n_test_of_bounds (test_size : Q) (n : nat) :
  (0 <= test_size)%Q ->
  (inject_Z (Z.of_nat (sklearn.n_test_of test_size n)) - 1
   < Float64.mul test_size (Float64.of_int (Z.of_nat n))
   <= inject_Z (Z.of_nat (sklearn.n_test_of test_size n)))%Q.
Proof.
  intro H. unfold sklearn.n_test_of, Float64.ceil.
  set (x := Float64.mul test_size (Float64.of_int (Z.of_nat n))).
  assert (X : (0 <= x)%Q).
  { unfold x, Float64.mul, Float64.of_int.
    apply Float64Facts.round_nonneg.
    apply Qmult_le_0_compat; [assumption|].
    apply Float64Facts.round_nonneg.
    change 0%Q with (inject_Z 0). rewrite <- Zle_Qle. lia. }
  assert (C : (0 <= Qceiling x)%Z).
  { change 0%Z with (Qceiling 0). now apply Qceiling_resp_le. }
  rewrite Z2Nat.id by assumption. split.
  - pose proof (Qceiling_lt x) as Hc.
    unfold Qminus. change (- (1))%Q with (inject_Z (-1)).
    rewrite <- inject_Z_plus. exact Hc.
  - apply Qle_ceiling.
Qed.

(** The products of a fraction and a number of rows that are whole numbers
    on paper: [0.07 * 100] and [0.28 * 25] lie above 7 as floats. *)
Example n_test_of_above :
  sklearn.n_test_of (Float64.of_decimal (7 # 100)) 100 = 8 /\
  sklearn.n_test_of (Float64.of_decimal (28 # 100)) 25 = 8 /\
  sklearn.n_test_of (Float64.of_decimal (33 # 100)) 18 = 6.
Proof. vm_compute. auto. Qed.

(** When [split] returns. *)

Lemma uniform_unique (y : list value) : uniform (unique y) = uniform y.
Proof.
  destruct (uniform y) eqn:E.
  - apply (@uniform_incl y (unique y)); [|assumption].
    intros x. apply unique_In.
  - destruct (uniform (unique y)) eqn:E'; [|reflexivity].
    rewrite (@uniform_incl (unique y) y) in E; [discriminate| |assumption].
    intros x. apply unique_In.
Qed.

Lemma existsb_small_counts (y classes : list value) :
  (forall c, In c classes <-> In c y) ->
  existsb (fun c => c <? 2) (map (fun c => count c y) classes) = false
  <-> forall c, In c y -> 2 <= count c y.
Proof.
  intro Hc. split.
  - intros H c Hy. apply Hc in Hy.
    destruct (Nat.lt_ge_cases (count c y) 2) as [Hlt|]; [|assumption].
    assert (existsb (fun c => c <? 2) (map (fun c => count c y) classes) = true).
    { apply existsb_exists. exists (count c y). split.
      - apply in_map_iff. now exists c.
      - now apply Nat.ltb_lt. }
    congruence.
  - intro H. apply not_true_is_false. intro E.
    apply existsb_exists in E. destruct E as [n [Hn Hlt]].
    apply in_map_iff in Hn. destruct Hn as [c [<- Hcin]].
    apply Hc, H in Hcin. apply Nat.ltb_lt in Hlt. lia.
Qed.

(** The checks of the splitter, one after the other. *)
Lemma stratified_positions_returns {RS : RandomState} (y : list value)
      (test_size : Q) (seed : Z) :
  (exists p, sklearn.stratified_positions y test_size seed = Ok p) <->
  (0 < test_size)%Q /\ (test_size < 1)%Q /\
  uniform y = true /\
  (forall c, In c y -> 2 <= count c y) /\
  1 <= List.length (unique y)
    <= List.length y - sklearn.n_test_of test_size (List.length y) /\
  List.length (unique y) <= sklearn.n_test_of test_size (List.length y).
Proof.
  unfold sklearn.stratified_positions, py_sort, py_sort_by.
  rewrite map_id, uniform_unique.
  set (n_test := sklearn.n_test_of test_size (List.length y)).
  set (classes := sort_by _ (unique y)).
  assert (Hc : forall c, In c classes <-> In c y).
  { intro c. unfold classes. now rewrite sort_by_In, unique_In. }
  assert (Hl : List.length classes = List.length (unique y))
    by apply sort_by_length.
  assert (Hpos : y <> [] -> 1 <= List.length (unique y))
    by (intro H; now apply unique_nonempty).
  destruct (Qle_bool test_size 0) eqn:E0.
  { cbn [orb]. split; [intros [p H]; discriminate|].
    intros (H & _). apply Qle_bool_iff in E0.
    exfalso. now apply (Qlt_not_le _ _ H). }
  destruct (Qle_bool 1 test_size) eqn:E1.
  { cbn [orb]. split; [intros [p H]; discriminate|].
    intros (_ & H & _). apply Qle_bool_iff in E1.
    exfalso. now apply (Qlt_not_le _ _ H). }
  cbn [orb].
  assert (F0 : (0 < test_size)%Q).
  { apply Qnot_le_lt. intro H. apply Qle_bool_iff in H. congruence. }
  assert (F1 : (test_size < 1)%Q).
  { apply Qnot_le_lt. intro H. apply Qle_bool_iff in H. congruence. }
  destruct (List.length y - n_test =? 0) eqn:En.
  { apply Nat.eqb_eq in En. split; [intros [p H]; discriminate|].
    intros (_ & _ & _ & _ & H & _). lia. }
  apply Nat.eqb_neq in En.
  assert (Hne : y <> []) by (intros ->; cbn in En; lia).
  destruct (uniform y) eqn:U.
  2:{ cbn [bind]. split; [intros [p H]; discriminate|].
      intros (_ & _ & H & _). discriminate. }
  cbn [bind].
  destruct (existsb _ _) eqn:Ex.
  { split; [intros [p H]; discriminate|].
    intros (_ & _ & _ & H & _).
    apply (proj2 (existsb_small_counts y classes Hc)) in H. congruence. }
  pose proof (proj1 (existsb_small_counts y classes Hc) Ex) as Two.
  rewrite Hl.
  destruct (List.length y - n_test <? List.length (unique y)) eqn:Et.
  { apply Nat.ltb_lt in Et. split; [intros [p H]; discriminate|].
    intros (_ & _ & _ & _ & H & _). lia. }
  apply Nat.ltb_ge in Et.
  destruct (n_test <? List.length (unique y)) eqn:Es.
  { apply Nat.ltb_lt in Es. split; [intros [p H]; discriminate|].
    intros (_ & _ & _ & _ & _ & H). lia. }
  apply Nat.ltb_ge in Es.
  split; [intros _; repeat split; auto|].
  intros _.
  destruct (sklearn._approximate_mode _ _ _) as [n_i s1].
  destruct (sklearn._approximate_mode _ _ _) as [t_i s2].
  destruct (sklearn.draw_classes _ _) as [[train test] s3].
  destruct (sklearn.shuffle s3 train) as [train' s4].
  destruct (sklearn.shuffle s4 test) as [test' s5].
  eauto.
Qed.

Lemma stratified_positions_raises {RS : RandomState} (y : list value)
      (test_size : Q) (seed : Z) (e : exn) :
  sklearn.stratified_positions y test_size seed = Raise e ->
  e = ValueError \/ e = TypeError.
Proof.
  unfold sklearn.stratified_positions, py_sort, py_sort_by.
  destruct (Qle_bool test_size 0 || Qle_bool 1 test_size);
    [intros [= <-]; now left|].
  destruct (_ =? 0); [intros [= <-]; now left|].
  destruct (uniform _); cbn [bind]; [|intros [= <-]; now right].
  destruct (existsb _ _); [intros [= <-]; now left|].
  destruct (_ <? _); [intros [= <-]; now left|].
  destruct (_ <? _); [intros [= <-]; now left|].
  destruct (sklearn._approximate_mode _ _ _) as [n_i s1].
  destruct (sklearn._approximate_mode _ _ _) as [t_i s2].
  destruct (sklearn.draw_classes _ _) as [[train test] s3].
  destruct (sklearn.shuffle s3 train) as [train' s4].
  destruct (sklearn.shuffle s4 test) as [test' s5].
  discriminate.
Qed.

Lemma split_guards {RS : RandomState} (df : DataFrame) (test_size : Q) :
  (exists parts, dataset.split df test_size = Ok parts) <->
  (0 < test_size)%Q /\ (test_size < 1)%Q /\
  uniform (labels df) = true /\
  (forall l, In l (labels df) -> 2 <= count l (labels df)) /\
  1 <= List.length (unique (labels df))
    <= List.length df - sklearn.n_test_of test_size (List.length df) /\
  List.length (unique (labels df))
    <= sklearn.n_test_of test_size (List.length df).
Proof.
  unfold dataset.split, sklearn.train_test_split.
  rewrite <- (length_map (fun r => label (snd r)) df). fold (labels df).
  rewrite <- (stratified_positions_returns (labels df) test_size 42).
  destruct (sklearn.stratified_positions _ _ _) as [p|e]; cbn [bind].
  - split; eauto.
  - split; intros [p H]; discriminate.
Qed.

Lemma unique_nodup_length (col : list value) :
  List.length (unique col) = List.length (nodup same_value col).
Proof.
  apply Permutation_length, NoDup_Permutation.
  - apply unique_NoDup.
  - apply NoDup_nodup.
  - intro x. rewrite unique_In, nodup_In. reflexivity.
Qed.

(** With labels of one kind, a part that is smaller than the number of
    labels makes the splitter raise [ValueError]. *)
Lemma stratified_positions_no_room {RS : RandomState} (y : list value)
      (test_size : Q) (seed : Z) :
  uniform y = true ->
  sklearn.n_test_of test_size (List.length y) < List.length (unique y) \/
  List.length y - sklearn.n_test_of test_size (List.length y)
  < List.length (unique y) ->
  sklearn.stratified_positions y test_size seed = Raise ValueError.
Proof.
  intros U H.
  unfold sklearn.stratified_positions, py_sort, py_sort_by.
  rewrite map_id, uniform_unique, U. cbn [bind].
  rewrite sort_by_length.
  set (n_test := sklearn.n_test_of test_size (List.length y)) in *.
  destruct (Qle_bool test_size 0 || Qle_bool 1 test_size); [reflexivity|].
  destruct (_ =? 0); [reflexivity|].
  destruct (existsb _ _); [reflexivity|].
  destruct (List.length y - n_test <? List.length (unique y)) eqn:E1;
    [reflexivity|].
  destruct (n_test <? List.length (unique y)) eqn:E2; [reflexivity|].
  apply Nat.ltb_ge in E1, E2. lia.
Qed.

Section Split.

Context {RS : RandomState} {L : RandomStateLaws RS}.

Lemma split_returns_parts (df : DataFrame) (test_size : Q) :
  uniform (labels df) = true ->
  df <> [] ->
  (0 < test_size)%Q -> (test_size < 1)%Q ->
  (forall l, In l (labels df) -> 2 <= count l (labels df)) ->
  List.length (unique (labels df))
  <= sklearn.n_test_of test_size (List.length df) ->
  List.length (unique (labels df))
  <= List.length df - sklearn.n_test_of test_size (List.length df) ->
  exists train test,
    dataset.split df test_size = Ok (train, test) /\
    Permutation (train ++ test) df /\
    (NoDup (map fst df) -> forall r, In r train -> ~ In r test) /\
    List.length test = sklearn.n_test_of test_size (List.length df) /\
    List.length train
    = List.length df - sklearn.n_test_of test_size (List.length df) /\
    forall l, In l (labels df) ->
      count l (labels train) + count l (labels test) = count l (labels df) /\
      count l (labels df) * List.length train / List.length df
      <= count l (labels train)
      <= count l (labels df) * List.length train / List.length df + 1.
Proof.
  intros U Ne F0 F1 Two Kt Kn.
  assert (Ly : List.length (labels df) = List.length df)
    by apply length_map.
  destruct (@stratified_positions_spec RS L (labels df) test_size 42%Z)
    as [tr [te [E [P [Ltr Cnt]]]]]; rewrite ?Ly; auto.
  { destruct df; [congruence | discriminate]. }
  rewrite Ly in *.
  exists (iloc df tr), (iloc df te).
  assert (Pdf : Permutation (iloc df tr ++ iloc df te) df).
  { rewrite <- iloc_app.
    apply Permutation_trans with (iloc df (seq 0 (List.length df))).
    - now apply iloc_perm.
    - now rewrite iloc_seq. }
  assert (In_tr : forall i, In i tr -> i < List.length df).
  { intros i Hi. assert (H : In i (tr ++ te)) by (apply in_or_app; now left).
    apply (Permutation_in _ P), in_seq in H. lia. }
  assert (Len_tr : List.length (iloc df tr)
                   = List.length df - sklearn.n_test_of test_size (List.length df))
    by (rewrite iloc_length; assumption).
  split.
  { unfold dataset.split, sklearn.train_test_split. now rewrite E. }
  split; [assumption|]. split; [|split; [|split]].
  - intros N. apply NoDup_app_disjoint.
    apply Permutation_NoDup with df; [now symmetry|].
    now apply NoDup_map_inv in N.
  - pose proof (Permutation_length Pdf) as Hl.
    rewrite length_app, Len_tr in Hl.
    assert (sklearn.n_test_of test_size (List.length df) <= List.length df).
    { assert (K : 0 < List.length (unique (labels df)))
        by (apply unique_nonempty; destruct df; [congruence | discriminate]).
      lia. }
    lia.
  - assumption.
  - intros l Hl. split.
    + rewrite <- count_app. unfold labels. rewrite <- map_app.
      apply count_perm, Permutation_map, Pdf.
    + rewrite Len_tr, iloc_count. now apply Cnt.
Qed.

(** C6, as the code has it.  The frame is not empty, its labels are of one
    kind, every label has at least 2 rows and the fraction lies strictly
    between 0 and 1; [n_test] is [ceil(test_size * n)], the product being a
    float.  When both [n_test] and [n - n_test] are at least the number of
    labels, [split] returns a train and a test part that together are the
    rows of [df], each once; the test part has [n_test] rows; each label's
    rows in the train part are its share of the train rows rounded down or
    up, and the rest of its rows are in the test part.  When one of the two
    is smaller than the number of labels, [split] raises [ValueError]. *)
Theorem split_partition (df : DataFrame) (test_size : Q) :
  uniform (labels df) = true ->
  df <> [] ->
  (0 < test_size)%Q -> (test_size < 1)%Q ->
  (forall l, In l (labels df) -> 2 <= occurrences l df) ->
  (n_labels df <= sklearn.n_test_of test_size (List.length df) ->
   n_labels df
   <= List.length df - sklearn.n_test_of test_size (List.length df) ->
   exists train test,
     dataset.split df test_size = Ok (train, test) /\
     Permutation (train ++ test) df /\
     (NoDup (map fst df) -> forall r, In r train -> ~ In r test) /\
     List.length test = sklearn.n_test_of test_size (List.length df) /\
     List.length train
     = List.length df - sklearn.n_test_of test_size (List.length df) /\
     forall l, In l (labels df) ->
       occurrences l train + occurrences l test = occurrences l df /\
       occurrences l df * List.length train / List.length df
       <= occurrences l train
       <= occurrences l df * List.length train / List.length df + 1) /\
  (sklearn.n_test_of test_size (List.length df) < n_labels df \/
   List.length df - sklearn.n_test_of test_size (List.length df)
   < n_labels df ->
   dataset.split df test_size = Raise ValueError).
Proof.
  intros U Ne F0 F1 Two. unfold n_labels. rewrite <- unique_nodup_length.
  split.
  - intros Kt Kn.
    destruct (split_returns_parts U Ne F0 F1) as (train & test & H);
      [|assumption|assumption|].
    { intros l Hl. rewrite count_occurrences. now apply Two. }
    exists train, test. unfold occurrences.
    destruct H as (E & P & D & Lte & Ltr & Cnt).
    repeat (split; [assumption|]).
    intros l Hl. rewrite <- !count_occurrences. now apply Cnt.
  - intro H. unfold dataset.split, sklearn.train_test_split.
    assert (Ly : List.length (labels df) = List.length df)
      by apply length_map.
    rewrite (@stratified_positions_no_room RS (labels df) test_size 42%Z U);
      [reflexivity|].
    rewrite Ly. exact H.
Qed.

End Split.

(* ================================================================== *)
(** * [prepare.py]: the decision *)


Lemma count_labels_rows (df : DataFrame) :
  uniform (labels df) = true ->
  exists table,
    utils.count_labels df = Ok table /\
    forall l c,
      In (l, c) table <-> In l (labels df) /\ c = count l (labels df).
Proof.
  intro U. unfold utils.count_labels.
  rewrite py_sort_by_ok by now apply value_counts_keys_uniform.
  eexists. split; [reflexivity|].
  intros l c. rewrite sort_by_In. apply value_counts_In.
Qed.

Lemma find_threshold_returns (df : DataFrame) (t : Q) :
  uniform (labels df) = true ->
  exists low,
    dataset.find_threshold df t = Ok low /\
    NoDup low /\ incl low (labels df).
Proof.
  intro U. unfold dataset.find_threshold, py_sort.
  set (values := map fst (List.filter _ _)).
  assert (I : incl values (labels df)).
  { intros l Hl. unfold values in Hl. apply in_map_iff in Hl.
    destruct Hl as [[x q] [E H]]. simpl in E. subst x.
    apply filter_In in H. destruct H as [H _].
    apply value_counts_normalize_In in H. tauto. }
  rewrite py_sort_by_ok
    by (rewrite map_id; now apply uniform_incl with (labels df)).
  eexists. split; [reflexivity|]. split.
  - apply Permutation_NoDup with values; [symmetry; apply sort_by_perm|].
    unfold values. apply NoDup_map_filter.
    unfold value_counts_normalize. rewrite map_map. simpl.
    apply value_counts_keys_NoDup.
  - intros l Hl. apply sort_by_In in Hl. now apply I.
Qed.

Lemma count_of_label (table : list (value * nat)) (col : list value)
      (l : value) :
  (forall l c, In (l, c) table <-> In l col /\ c = count l col) ->
  In l col -> count_of table l = Ok (count l col).
Proof.
  intros T Hl. unfold count_of.
  destruct (List.filter (fun p => value_eqb (fst p) l) table) as [|p rest] eqn:F.
  - exfalso.
    assert (H : In (l, count l col)
                   (List.filter (fun p => value_eqb (fst p) l) table)).
    { apply filter_In. split; [apply T; auto | apply value_eqb_refl]. }
    rewrite F in H. destruct H.
  - assert (H : In p (List.filter (fun p => value_eqb (fst p) l) table))
      by (rewrite F; now left).
    apply filter_In in H. destruct H as [Hp E].
    apply value_eqb_eq in E. destruct p as [l' c]. simpl in *. subst l'.
    apply T in Hp. destruct Hp as [_ ->]. reflexivity.
Qed.

Lemma count_large_enough_spec (table : list (value * nat)) (col : list value)
      (low : list value) (acc : nat) :
  (forall l c, In (l, c) table <-> In l col /\ c = count l col) ->
  incl low col ->
  count_large_enough table low acc
  = Ok (acc + List.length
                (List.filter (fun l => LOW_VOLUME_MIN_COUNT <=? count l col) low)).
Proof.
  intros T. revert acc. induction low as [|l rest IH]; intros acc I.
  - cbn. now rewrite Nat.add_0_r.
  - cbn [count_large_enough List.filter].
    rewrite (@count_of_label table col l T) by (apply I; now left).
    cbn [bind].
    rewrite IH by (intros x Hx; apply I; now right).
    destruct (LOW_VOLUME_MIN_COUNT <=? count l col); cbn [List.length];
      f_equal; lia.
Qed.

Lemma decide_spec (cfg : Config) (df : DataFrame) :
  uniform (labels df) = true ->
  exists low,
    dataset.find_threshold df (LOW_VOLUME_THRESHOLD cfg) = Ok low /\
    decide cfg df
    = Ok (low, 2 <=? List.length (large_enough_labels df low)).
Proof.
  intro U. unfold decide.
  destruct (@count_labels_rows df U) as [table [Et T]].
  destruct (@find_threshold_returns df (LOW_VOLUME_THRESHOLD cfg) U)
    as [low [El [_ I]]].
  exists low. split; [assumption|].
  rewrite Et, El. simpl.
  rewrite (@count_large_enough_spec table (labels df) low 0 T I). reflexivity.
Qed.

(* ================================================================== *)
(** * [prepare.py]: what a run writes *)

Lemma iloc_incl (df : DataFrame) (l : list nat) : incl (iloc df l) df.
Proof.
  intros r H. unfold iloc in H. apply in_flat_map in H.
  destruct H as [i [_ Hr]].
  destruct (nth_error df i) as [r'|] eqn:E; [|destruct Hr].
  destruct Hr as [<-|[]]. eapply nth_error_In; eauto.
Qed.

Lemma split_rows {RS : RandomState} (df train test : DataFrame)
      (test_size : Q) :
  dataset.split df test_size = Ok (train, test) ->
  incl train df /\ incl test df.
Proof.
  unfold dataset.split, sklearn.train_test_split.
  destruct (sklearn.stratified_positions _ _ _) as [[tr te]|e]; simpl;
    [|discriminate].
  intro H. inversion H; subst. split; apply iloc_incl.
Qed.

Lemma iobind_events {A B} (c : io A) (k : A -> io B) (ev : event) :
  In ev (fst (iobind c k)) ->
  In ev (fst c) \/ exists a, snd c = Ok a /\ In ev (fst (k a)).
Proof.
  destruct c as [tr [a|e]]; simpl; [|tauto].
  destruct (k a) as [tr' r] eqn:E. simpl. intro H.
  apply in_app_or in H. destruct H as [H|H]; [now left|].
  right. exists a. rewrite E. auto.
Qed.

Lemma iobind_fst_ok {A B} (tr : list event) (a : A) (k : A -> io B) :
  fst (iobind (tr, Ok a) k) = tr ++ fst (k a).
Proof. simpl. now destruct (k a). Qed.

(** One step along a run: the event is the access just made, or it comes
    later. *)
Ltac walk H :=
  apply iobind_events in H; destruct H as [H|[? [_ H]]];
  [cbn [fst pure access write_to_s3_json In] in H;
   try contradiction; try (destruct H as [H|[]]) | ].

Section Runs.

Context {RS : RandomState}.
Variable w : World.
Variable cfg : Config.
Variable batch_id : string.

(** The general stage stops before anything is written, or stops on a
    write that fails, or writes the two parts of the rewritten frame. *)
Lemma general_stage_cases (df : DataFrame) (low : list value) (target : Z) :
  (exists e, general_stage w cfg batch_id df low target = ([], Raise e)) \/
  (exists df' train test e tr,
      dataset.update_label df low target = Ok df' /\
      dataset.split df' TEST_SPLIT = Ok (train, test) /\
      general_stage w cfg batch_id df low target = (tr, Raise e) /\
      (tr = [PutObject (TARGET_BUCKET cfg) (general_path batch_id "train")
                       train] \/
       tr = [PutObject (TARGET_BUCKET cfg) (general_path batch_id "train")
                       train;
             PutObject (TARGET_BUCKET cfg) (general_path batch_id "test")
                       test])) \/
  (exists df' train test,
      dataset.update_label df low target = Ok df' /\
      dataset.split df' TEST_SPLIT = Ok (train, test) /\
      general_stage w cfg batch_id df low target
      = ([PutObject (TARGET_BUCKET cfg) (general_path batch_id "train") train;
          PutObject (TARGET_BUCKET cfg) (general_path batch_id "test") test],
         Ok df')).
Proof.
  unfold general_stage, pure, write_to_s3_json, access, ret.
  destruct (utils.count_labels df) as [t0|e]; simpl; [|left; eauto].
  destruct (dataset.update_label df low target) as [df'|e]; simpl;
    [|left; eauto].
  destruct (dataset.split df' TEST_SPLIT) as [[train test]|e] eqn:Es; simpl;
    [|left; eauto].
  destruct (utils.count_labels train) as [t1|e]; simpl; [|left; eauto].
  destruct (utils.count_labels test) as [t2|e]; simpl; [|left; eauto].
  destruct (put_object w (TARGET_BUCKET cfg) (general_path batch_id "train")
                       train) as [[]|e]; simpl.
  2:{ right. left. exists df', train, test, e. eexists.
      repeat split; try reflexivity; try assumption. now left. }
  destruct (put_object w (TARGET_BUCKET cfg) (general_path batch_id "test")
                       test) as [[]|e]; simpl.
  2:{ right. left. exists df', train, test, e. eexists.
      repeat split; try reflexivity; try assumption. now right. }
  right. right. exists df', train, test.
  split; [reflexivity|]. split; [assumption|]. reflexivity.
Qed.

(** Once the primary window is not empty, a run stops before anything is
    written, or stops on a write of the general dataset that fails, or writes
    the two parts of the rewritten frame and goes on to the low volume stage
    if it was decided. *)
Lemma datasets_cases (start : Z) (df : DataFrame) :
  (exists e, datasets w cfg batch_id start df = ([], Raise e)) \/
  (exists low create df' train test e tr,
      decide cfg df = Ok (low, create) /\
      dataset.update_label df low (low_volume_label_id_of cfg create)
      = Ok df' /\
      dataset.split df' TEST_SPLIT = Ok (train, test) /\
      datasets w cfg batch_id start df = (tr, Raise e) /\
      (tr = [PutObject (TARGET_BUCKET cfg) (general_path batch_id "train")
                       train] \/
       tr = [PutObject (TARGET_BUCKET cfg) (general_path batch_id "train")
                       train;
             PutObject (TARGET_BUCKET cfg) (general_path batch_id "test")
                       test])) \/
  (exists low create df' train test,
      decide cfg df = Ok (low, create) /\
      dataset.update_label df low (low_volume_label_id_of cfg create)
      = Ok df' /\
      dataset.split df' TEST_SPLIT = Ok (train, test) /\
      let rest := if negb create then ret tt
                  else low_volume_stage w cfg batch_id start df' low in
      datasets w cfg batch_id start df
      = ([PutObject (TARGET_BUCKET cfg) (general_path batch_id "train") train;
          PutObject (TARGET_BUCKET cfg) (general_path batch_id "test") test]
           ++ fst rest, snd rest)).
Proof.
  unfold datasets.
  destruct (decide cfg df) as [[low create]|e]; [|left; now exists e].
  unfold pure. cbn [iobind fst snd app].
  destruct (general_stage_cases df low (low_volume_label_id_of cfg create))
    as [[e G]|[(df' & train & test & e & tr & Eu & Es & G & Htr)
              |(df' & train & test & Eu & Es & G)]]; rewrite G.
  - left. now exists e.
  - right. left. exists low, create, df', train, test, e, tr.
    repeat split; assumption.
  - right. right. exists low, create, df', train, test.
    repeat split; try assumption.
    cbn [iobind]. now destruct (if negb create then _ else _).
Qed.

Lemma datetime_sub_Ok (d delta r : Z) :
  datetime_sub d delta = Ok r <->
  r = (d - delta)%Z /\ (datetime_min <= r <= datetime_max)%Z.
Proof.
  unfold datetime_sub.
  destruct ((datetime_min <=? d - delta)%Z) eqn:E1;
    destruct ((d - delta <=? datetime_max)%Z) eqn:E2; cbn [andb];
    try apply Z.leb_le in E1; try apply Z.leb_le in E2;
    try apply Z.leb_gt in E1; try apply Z.leb_gt in E2;
    (split; [intros [= <-]; lia | intros [-> H]; try lia]).
  reflexivity.
Qed.

Lemma datetime_sub_raise (d delta : Z) (e : exn) :
  datetime_sub d delta = Raise e -> e = OverflowError.
Proof.
  unfold datetime_sub. destruct (_ && _)%bool; [discriminate|].
  now intros [= <-].
Qed.

Lemma timedelta_days_Ok (n delta : Z) :
  timedelta_days n = Ok delta <->
  delta = (n * day_us)%Z /\ (Z.abs n <= 999999999)%Z.
Proof.
  unfold timedelta_days. destruct (Z.abs n <=? 999999999)%Z eqn:E.
  - apply Z.leb_le in E. split; [intros [= <-]; auto | intros [-> _]; auto].
  - apply Z.leb_gt in E. split; [discriminate | intros [_ H]; lia].
Qed.

Lemma timedelta_days_raise (n : Z) (e : exn) :
  timedelta_days n = Raise e -> e = OverflowError.
Proof.
  unfold timedelta_days. destruct (_ <=? _)%Z; [discriminate|].
  now intros [= <-].
Qed.

(** The extended history starts where the subtraction of line 132 leads,
    when it is a date. *)
Lemma low_vol_start_Ok (start delta r : Z) :
  timedelta_days (LOW_VOLUME_PERIOD cfg - TRAINING_PERIOD cfg) = Ok delta ->
  datetime_sub start delta = Ok r ->
  r = low_vol_start cfg start.
Proof.
  intros Hd Hs. apply timedelta_days_Ok in Hd. destruct Hd as [-> _].
  apply datetime_sub_Ok in Hs. destruct Hs as [-> _]. reflexivity.
Qed.

Lemma low_volume_stage_events (start : Z) (general_df : DataFrame)
      (low : list value) (ev : event) :
  In ev (fst (low_volume_stage w cfg batch_id start general_df low)) ->
  ev = GetTickets (timestamp (low_vol_start cfg start)) (timestamp start) \/
  exists part body,
    ev = PutObject (TARGET_BUCKET cfg) (low_vol_path batch_id part) body.
Proof.
  unfold low_volume_stage. cbv zeta. intro H.
  walk H.
  apply iobind_events in H. destruct H as [[]|[delta [Ed H]]].
  apply iobind_events in H. destruct H as [[]|[r [Es H]]].
  cbn [pure snd] in Ed, Es. rewrite (low_vol_start_Ok _ Ed Es) in H.
  walk H; [left; now symmetry|].
  destruct (empty _); [destruct H|].
  do 7 walk H.
  - right. do 2 eexists. symmetry. exact H.
  - cbn [fst write_to_s3_json access In] in H. destruct H as [H|[]].
    right. do 2 eexists. symmetry. exact H.
Qed.

(** When the subtraction of line 132 gives a date, the stage asks for the
    extended history. *)
Lemma low_volume_stage_fetches (start : Z) (general_df : DataFrame)
      (low : list value) :
  uniform (labels general_df) = true ->
  (Z.abs (LOW_VOLUME_PERIOD cfg - TRAINING_PERIOD cfg) <= 999999999)%Z ->
  (datetime_min <= low_vol_start cfg start <= datetime_max)%Z ->
  In (GetTickets (timestamp (low_vol_start cfg start)) (timestamp start))
     (fst (low_volume_stage w cfg batch_id start general_df low)).
Proof.
  intros U Hp Hs. unfold low_volume_stage, pure, access. cbv zeta.
  destruct (@count_labels_rows general_df U) as [table [-> _]].
  rewrite iobind_fst_ok. cbn [app].
  rewrite (proj2 (timedelta_days_Ok _ _) (conj eq_refl Hp)).
  rewrite iobind_fst_ok. cbn [app].
  rewrite (proj2 (datetime_sub_Ok start _ (low_vol_start cfg start))
                 (conj eq_refl Hs)).
  rewrite iobind_fst_ok. cbn [app].
  destruct (get_tickets w _ _) as [fetched|e].
  - rewrite iobind_fst_ok. now left.
  - now left.
Qed.

End Runs.

Lemma Forall2_In_right {A B} (R : A -> B -> Prop) (l : list A) (l' : list B)
      (y : B) :
  Forall2 R l l' -> In y l' -> exists x, In x l /\ R x y.
Proof.
  induction 1 as [|x y' t t' Hxy Ht IH]; [intros []|].
  intros [<-|Hy].
  - exists x. split; [now left | assumption].
  - destruct (IH Hy) as [x' [Hx' Hr]]. exists x'. split; [now right | assumption].
Qed.

Lemma relabelled_int (old_labels : list value) (new_label : Z) (r r' : row) :
  relabelled old_labels new_label r r' -> exists z, label (snd r') = VInt z.
Proof.
  intros [_ [_ [_ [Hin Hout]]]].
  destruct (in_dec value_eq_dec (label (snd r)) old_labels) as [H|H].
  - exists new_label. auto.
  - destruct (Hout H) as [z [_ Hz]]. now exists z.
Qed.

Lemma update_label_uniform (df df' : DataFrame) (old_labels : list value)
      (new_label : Z) :
  dataset.update_label df old_labels new_label = Ok df' ->
  uniform (labels df') = true.
Proof.
  intro E. apply update_label_rows in E. apply uniform_same_kind.
  assert (I : forall v, In v (labels df') -> exists z, v = VInt z).
  { intros v Hv. unfold labels in Hv. apply in_map_iff in Hv.
    destruct Hv as [r' [<- Hr']].
    destruct (@Forall2_In_right _ _ _ _ _ r' E Hr') as [r [_ Hr]].
    eapply relabelled_int; eauto. }
  intros x y Hx Hy. destruct (I x Hx) as [a ->]. destruct (I y Hy) as [b ->].
  reflexivity.
Qed.

Lemma general_not_low_vol (batch_id part part' : string) :
  general_path batch_id part <> low_vol_path batch_id part'.
Proof. unfold general_path, low_vol_path. cbn. discriminate. Qed.

Section Orchestrator.

Context {RS : RandomState}.
Variable w : World.
Variable cfg : Config.
Variable batch_id : string.
Variable start : Z.

(** C3, as the code has it.  Every row written to the general dataset is a
    row of the primary window with its label rewritten: a label of the low
    volume set becomes 0 when the low volume dataset is to be created, and
    the configured fallback label when it is not; any other label becomes
    itself as an [int]. *)
Theorem remap_target (df : DataFrame) (bucket part : string)
        (body : DataFrame) :
  In (PutObject bucket (general_path batch_id part) body)
     (fst (datasets w cfg batch_id start df)) ->
  exists low create_low_volume,
    decide cfg df = Ok (low, create_low_volume) /\
    forall r', In r' body ->
      exists r, In r df /\
        relabelled low
                   (if create_low_volume then 0%Z
                    else LOW_VOLUME_FALLBACK_LABEL cfg) r r'.
Proof.
  intro H.
  assert (T : forall create,
             low_volume_label_id_of cfg create
             = if create then 0%Z else LOW_VOLUME_FALLBACK_LABEL cfg)
    by now intros [|].
  assert (R : forall low create df',
             dataset.update_label df low (low_volume_label_id_of cfg create)
             = Ok df' ->
             forall r', In r' df' ->
               exists r, In r df /\
                 relabelled low (if create then 0%Z
                                 else LOW_VOLUME_FALLBACK_LABEL cfg) r r').
  { intros low create df' Eu r' Hr'. rewrite T in Eu.
    eapply Forall2_In_right;
      [apply update_label_rows; eassumption | assumption]. }
  destruct (datasets_cases w cfg batch_id start df)
    as [[e E]
       |[(low & create & df' & train & test & e & tr & Ed & Eu & Es & E & Htr)
        |(low & create & df' & train & test & Ed & Eu & Es & E)]];
    rewrite E in H; [destruct H| |].
  { exists low, create. split; [assumption|].
    destruct (split_rows _ _ Es) as [Itrain Itest].
    cbn [fst] in H.
    destruct Htr as [-> | ->]; cbn [In] in H;
      [destruct H as [H|[]]|destruct H as [H|[H|[]]]];
      inversion H; subst; intros r' Hr'; apply (R _ _ _ Eu); auto. }
  exists low, create. split; [assumption|].
  specialize (R _ _ _ Eu).
  destruct (split_rows _ _ Es) as [Itrain Itest].
  cbn [fst app In] in H.
  destruct H as [H|[H|H]].
  - inversion H; subst. intros r' Hr'. apply R. now apply Itrain.
  - inversion H; subst. intros r' Hr'. apply R. now apply Itest.
  - exfalso. destruct create; cbn [negb fst ret In] in H; [|assumption].
    apply low_volume_stage_events in H.
    destruct H as [H|[part' [body' H]]]; [discriminate|].
    apply (f_equal (fun ev => match ev with
                              | PutObject _ key _ => key
                              | _ => EmptyString
                              end)) in H.
    exact (general_not_low_vol H).
Qed.

Lemma large_enough_occurrences (df : DataFrame) (low : list value) :
  large_enough_labels df low
  = List.filter (fun l => LOW_VOLUME_MIN_COUNT <=? occurrences l df) low.
Proof.
  unfold large_enough_labels, occurrences. apply filter_ext.
  intro l. now rewrite count_occurrences.
Qed.

(** X28. The decision of lines 67 to 83 and what follows from it.  For a
    primary window that is not empty, whose labels are of one kind: the low
    volume dataset is decided exactly when at least 2 of the low volume
    labels have at least 10 rows.  When it is not decided, the run fetches
    nothing more and writes nothing but the two parts of the general
    dataset, in which the low volume labels are folded into the fallback
    label.  When it is decided, the general dataset has been written and the
    subtraction of line 132 gives a date, the run goes on to ask for the
    extended history. *)
Theorem low_volume_decision (df : DataFrame) :
  uniform (labels df) = true -> df <> [] ->
  exists low create_low_volume,
    dataset.find_threshold df (LOW_VOLUME_THRESHOLD cfg) = Ok low /\
    decide cfg df = Ok (low, create_low_volume) /\
    (create_low_volume = true <->
     2 <= List.length
            (List.filter (fun l => LOW_VOLUME_MIN_COUNT <=? occurrences l df)
                         low)) /\
    (create_low_volume = false ->
     low_volume_label_id_of cfg create_low_volume
     = LOW_VOLUME_FALLBACK_LABEL cfg /\
     forall ev, In ev (fst (datasets w cfg batch_id start df)) ->
       exists part body,
         ev = PutObject (TARGET_BUCKET cfg) (general_path batch_id part) body /\
         forall r', In r' body ->
           exists r, In r df /\
             relabelled low (LOW_VOLUME_FALLBACK_LABEL cfg) r r') /\
    (create_low_volume = true ->
     (Z.abs (LOW_VOLUME_PERIOD cfg - TRAINING_PERIOD cfg) <= 999999999)%Z ->
     (datetime_min <= low_vol_start cfg start <= datetime_max)%Z ->
     forall df',
       snd (general_stage w cfg batch_id df low 0) = Ok df' ->
       In (GetTickets (timestamp (low_vol_start cfg start)) (timestamp start))
          (fst (datasets w cfg batch_id start df))).
Proof.
  intros U Ne.
  destruct (@decide_spec cfg df U) as [low [El Ed]].
  exists low, (2 <=? List.length (large_enough_labels df low)).
  split; [assumption|]. split; [assumption|].
  split; [rewrite <- large_enough_occurrences; apply Nat.leb_le|].
  set (create := 2 <=? List.length (large_enough_labels df low)) in *.
  split.
  - intro C. rewrite C in *. split; [reflexivity|].
    intros ev Hev.
    assert (R : forall df',
               dataset.update_label df low (LOW_VOLUME_FALLBACK_LABEL cfg)
               = Ok df' ->
               forall r', In r' df' ->
                 exists r, In r df /\
                   relabelled low (LOW_VOLUME_FALLBACK_LABEL cfg) r r')
      by (intros df' Eu r' Hr'; eapply Forall2_In_right;
          [apply update_label_rows; eassumption | assumption]).
    destruct (datasets_cases w cfg batch_id start df)
      as [[e E]
         |[(low' & create' & df' & train & test & e & tr
            & Ed' & Eu & Es & E & Htr)
          |(low' & create' & df' & train & test & Ed' & Eu & Es & E)]];
      rewrite E in Hev; [destruct Hev| |];
      rewrite Ed in Ed'; inversion Ed'; subst low' create'; clear Ed';
      cbn [negb low_volume_label_id_of fst ret app In] in *;
      specialize (R _ Eu); destruct (split_rows _ _ Es) as [Itrain Itest].
    + destruct Htr as [-> | ->]; cbn [In] in Hev;
        [destruct Hev as [<-|[]]|destruct Hev as [<-|[<-|[]]]];
        do 2 eexists; (split; [reflexivity|]);
        intros r' Hr'; apply R; auto.
    + destruct Hev as [<-|[<-|[]]]; do 2 eexists; (split; [reflexivity|]);
        intros r' Hr'; apply R; auto.
  - intros C Hp Hs df'' G. unfold datasets. rewrite Ed, C. unfold pure.
    rewrite iobind_fst_ok. cbn [app fst snd negb low_volume_label_id_of].
    destruct (general_stage_cases w cfg batch_id df low 0)
      as [[e Eg]
         |[(df' & train & test & e & tr & Eu & Es & Eg & Htr)
          |(df' & train & test & Eu & Es & Eg)]];
      rewrite Eg in *; cbn [snd] in G; try discriminate.
    rewrite iobind_fst_ok. apply in_or_app. right.
    apply low_volume_stage_fetches; try assumption.
    eapply update_label_uniform; eassumption.
Qed.

End Orchestrator.

(* ================================================================== *)
(** * Concrete runs *)

Lemma reversing_lawful : RandomStateLaws Examples.reversing.
Proof.
  split.
  - intros s n. simpl. symmetry. apply Permutation_rev.
  - intros s a k Hk Na. simpl. split; [|split].
    + rewrite length_firstn. lia.
    + rewrite <- (firstn_skipn k a) in Na. now apply NoDup_app_remove_r in Na.
    + intros x Hx. now apply in_firstn in Hx.
Qed.

Example split_test :
  option_map (fun p => (List.length (fst p), List.length (snd p)))
    match dataset.split (RS := Examples.reversing) Examples.test_frame
                        (Float64.of_decimal (33 # 100))
    with
    | Ok p => Some p
    | Raise _ => None
    end
  = Some (12, 6).
Proof. vm_compute. reflexivity. Qed.

(** C6 does not hold as stated: two labels of two rows each, a test
    fraction of one tenth; the test part would have one row for two labels,
    and the split raises, whatever the random stream. *)
Lemma split_needs_room :
  (forall l, In l (labels Examples.two_pairs) ->
             2 <= occurrences l Examples.two_pairs) /\
  (0 < TEST_SPLIT)%Q /\ (TEST_SPLIT < 1)%Q /\
  sklearn.n_test_of TEST_SPLIT (List.length Examples.two_pairs) = 1 /\
  n_labels Examples.two_pairs = 2 /\
  forall RS : RandomState,
    dataset.split (RS := RS) Examples.two_pairs TEST_SPLIT = Raise ValueError.
Proof.
  split; [|split; [reflexivity|split; [reflexivity|]]].
  - intros l Hl. simpl in Hl.
    repeat (destruct Hl as [<-|Hl]; [vm_compute; lia|]). destruct Hl.
  - split; [vm_compute; reflexivity|]. split; [vm_compute; reflexivity|].
    intro RS. vm_compute. reflexivity.
Qed.

Lemma test_frame_two_each (l : value) :
  In l (labels Examples.test_frame) ->
  2 <= occurrences l Examples.test_frame.
Proof.
  intro Hl. simpl in Hl.
  repeat (destruct Hl as [<-|Hl]; [vm_compute; lia|]). destruct Hl.
Qed.

Lemma split_partition_witness :
  (uniform (labels Examples.test_frame) = true /\
   Examples.test_frame <> [] /\
   (0 < Examples.test_fraction)%Q /\ (Examples.test_fraction < 1)%Q /\
   (forall l, In l (labels Examples.test_frame) ->
              2 <= occurrences l Examples.test_frame)) /\
  (n_labels Examples.test_frame
   <= sklearn.n_test_of Examples.test_fraction (List.length Examples.test_frame) ->
   n_labels Examples.test_frame
   <= List.length Examples.test_frame
      - sklearn.n_test_of Examples.test_fraction (List.length Examples.test_frame) ->
   exists train test,
     dataset.split (RS := Examples.reversing) Examples.test_frame
                   Examples.test_fraction
     = Ok (train, test) /\
     Permutation (train ++ test) Examples.test_frame /\
     (NoDup (map fst Examples.test_frame) ->
      forall r, In r train -> ~ In r test) /\
     List.length test
     = sklearn.n_test_of Examples.test_fraction (List.length Examples.test_frame) /\
     List.length train
     = List.length Examples.test_frame
       - sklearn.n_test_of Examples.test_fraction (List.length Examples.test_frame) /\
     forall l, In l (labels Examples.test_frame) ->
       occurrences l train + occurrences l test
       = occurrences l Examples.test_frame /\
       occurrences l Examples.test_frame * List.length train
       / List.length Examples.test_frame
       <= occurrences l train
       <= occurrences l Examples.test_frame * List.length train
          / List.length Examples.test_frame + 1) /\
  (sklearn.n_test_of Examples.test_fraction (List.length Examples.test_frame)
   < n_labels Examples.test_frame \/
   List.length Examples.test_frame
   - sklearn.n_test_of Examples.test_fraction (List.length Examples.test_frame)
   < n_labels Examples.test_frame ->
   dataset.split (RS := Examples.reversing) Examples.test_frame
                 Examples.test_fraction
   = Raise ValueError).
Proof.
  assert (H1 : uniform (labels Examples.test_frame) = true) by reflexivity.
  assert (H2 : Examples.test_frame <> []) by discriminate.
  assert (H3 : (0 < Examples.test_fraction)%Q) by (vm_compute; reflexivity).
  assert (H4 : (Examples.test_fraction < 1)%Q) by (vm_compute; reflexivity).
  split; [repeat split; try assumption; apply test_frame_two_each|].
  exact (@split_partition Examples.reversing reversing_lawful
           Examples.test_frame Examples.test_fraction H1 H2 H3 H4
           test_frame_two_each).
Defined.

(** The rooms of the witness: 5 labels, 6 test rows and 12 train rows. *)
Example split_partition_rooms :
  n_labels Examples.test_frame = 5 /\
  sklearn.n_test_of Examples.test_fraction (List.length Examples.test_frame) = 6 /\
  List.length Examples.test_frame = 18.
Proof. vm_compute. auto. Qed.

Lemma remap_target_witness :
  exists body,
    In (PutObject "bucket" (general_path "2025011100" "test") body)
       (fst (datasets (RS := Examples.reversing) (Examples.world [])
                      Examples.wide "2025011100" 0 Examples.small_primary)) /\
    exists low create_low_volume,
      decide Examples.wide Examples.small_primary
      = Ok (low, create_low_volume) /\
      forall r', In r' body ->
        exists r, In r Examples.small_primary /\
          relabelled low
                     (if create_low_volume then 0%Z
                      else LOW_VOLUME_FALLBACK_LABEL Examples.wide) r r'.
Proof.
  assert (E : exists body,
             In (PutObject "bucket" (general_path "2025011100" "test") body)
                (fst (datasets (RS := Examples.reversing) (Examples.world [])
                               Examples.wide "2025011100" 0
                               Examples.small_primary))).
  { vm_compute. eexists. right. left. reflexivity. }
  destruct E as [body H]. exists body. split; [exact H|].
  exact (@remap_target Examples.reversing (Examples.world []) Examples.wide
           "2025011100" 0%Z Examples.small_primary "bucket" "test" body H).
Defined.

(** The folded rows of the small window carry the fallback label. *)
Example small_run_tables :
  Examples.label_tables
    (fst (datasets (RS := Examples.reversing) (Examples.world [])
                   Examples.wide "2025011100" 0 Examples.small_primary))
  = [("training/gata-general/2025011100/train/data.json"%string,
      Ok [(VInt 7, 17); (VInt 99, 2)]);
     ("training/gata-general/2025011100/test/data.json"%string,
      Ok [(VInt 7, 3)])].
Proof. vm_compute. reflexivity. Qed.

(** C3 does not hold as stated: labels 1 and 2 are low volume with 10 rows
    each, the fallback label is 99, and the general dataset is written with
    label 0 in their place. *)
Lemma remap_target_not_fallback :
  decide Examples.cfg (from_records Examples.primary)
  = Ok ([VInt 1; VInt 2], true) /\
  LOW_VOLUME_FALLBACK_LABEL Examples.cfg = 99%Z /\
  low_volume_label_id_of Examples.cfg true = 0%Z /\
  firstn 2 (Examples.label_tables
              (fst (main (RS := Examples.reversing)
                         (Examples.world Examples.history) Examples.cfg
                         "2025011100")))
  = [("training/gata-general/2025011100/train/data.json"%string,
      Ok [(VInt 0, 18); (VInt 100, 540)]);
     ("training/gata-general/2025011100/test/data.json"%string,
      Ok [(VInt 0, 2); (VInt 100, 60)])].
Proof.
  split; [vm_compute; reflexivity|].
  split; [reflexivity|]. split; [reflexivity|].
  vm_compute. reflexivity.
Qed.

Lemma low_volume_decision_witness :
  (uniform (labels (from_records Examples.primary)) = true /\
   from_records Examples.primary <> []) /\
  exists low create_low_volume,
    dataset.find_threshold (from_records Examples.primary)
                           (LOW_VOLUME_THRESHOLD Examples.cfg) = Ok low /\
    decide Examples.cfg (from_records Examples.primary)
    = Ok (low, create_low_volume) /\
    (create_low_volume = true <->
     2 <= List.length
            (List.filter
               (fun l => LOW_VOLUME_MIN_COUNT
                         <=? occurrences l (from_records Examples.primary))
               low)).
Proof.
  assert (U : uniform (labels (from_records Examples.primary)) = true)
    by (vm_compute; reflexivity).
  assert (Ne : from_records Examples.primary <> []) by discriminate.
  split; [split; assumption|].
  destruct (@low_volume_decision Examples.reversing
              (Examples.world Examples.history) Examples.cfg "2025011100" 0%Z
              (from_records Examples.primary) U Ne)
    as [low [create [H1 [H2 [H3 _]]]]].
  exists low, create. repeat split; try assumption; apply H3.
Defined.

(** ** The low volume copy and its floor *)

(** X2. Filtering the rewritten frame by the labels that were rewritten keeps
    nothing, as soon as the labels are [int]s and the new label is not one of
    the old ones. *)
Lemma filter_after_update_label (df df' : DataFrame) (low : list value)
      (target : Z) :
  dataset.update_label df low target = Ok df' ->
  (forall r, In r df -> exists z, label (snd r) = VInt z) ->
  ~ In (VInt target) low ->
  dataset.filter df' low = [].
Proof.
  intros E Hint Hnot. unfold dataset.filter, select_rows.
  apply filter_none. intros r' Hr'.
  destruct (@Forall2_In_right _ _ _ _ _ r' (update_label_rows _ _ _ E) Hr')
    as [r [Hr [_ [_ [_ [Hin Hout]]]]]].
  apply py_in_not_In.
  destruct (in_dec value_eq_dec (label (snd r)) low) as [H|H].
  - now rewrite (Hin H).
  - destruct (Hout H) as [z [Hz ->]].
    destruct (Hint r Hr) as [z0 E0]. rewrite E0 in Hz, H.
    simpl in Hz. inversion Hz; subst. assumption.
Qed.

Lemma filter_after_update_label_witness :
  exists df',
    dataset.update_label Examples.small_primary [VInt 8] 99 = Ok df' /\
    dataset.filter Examples.small_primary [VInt 8] <> [] /\
    dataset.filter df' [VInt 8] = [].
Proof.
  destruct (dataset.update_label Examples.small_primary [VInt 8] 99)
    as [df'|e] eqn:E; [|vm_compute in E; discriminate].
  exists df'. split; [reflexivity|]. split; [vm_compute; discriminate|].
  apply (@filter_after_update_label Examples.small_primary df' [VInt 8] 99 E).
  - intros r Hr.
    assert (B : forallb (fun r : row => match label (snd r) with
                                        | VInt _ => true
                                        | VStr _ => false
                                        end) Examples.small_primary = true)
      by reflexivity.
    rewrite forallb_forall in B. specialize (B r Hr).
    destruct (label (snd r)) as [z|s]; [now exists z | discriminate].
  - simpl. intros [H|[]]. discriminate.
Defined.

(** C2 on the example: labels 1 and 2 are the low volume labels and hold 20
    rows of the primary window; the frame [main] filters at line 125 is the
    one [update_label] has rewritten, and the filter keeps none of them. *)
Theorem low_volume_copy_is_empty :
  decide Examples.cfg (from_records Examples.primary)
  = Ok ([VInt 1; VInt 2], true) /\
  List.length (dataset.filter (from_records Examples.primary)
                              [VInt 1; VInt 2]) = 20 /\
  (general_df <- dataset.update_label (from_records Examples.primary)
                                      [VInt 1; VInt 2] 0 ;;
   Ok (dataset.filter general_df [VInt 1; VInt 2])) = Ok [].
Proof.
  split; [vm_compute; reflexivity|].
  split; vm_compute; reflexivity.
Qed.

(** X1. [low_vol_df[low_vol_df["label"] >= 10]] keeps the rows whose label
    is an [int] of value at least 10. *)
Lemma label_ge_10_by_value (df out : DataFrame) :
  label_ge_10 df = Ok out ->
  out = List.filter (fun r => match label (snd r) with
                              | VInt z => (10 <=? z)%Z
                              | VStr _ => false
                              end) df.
Proof.
  unfold label_ge_10.
  destruct (mapM (fun r : row => cell_ge 10 (label (snd r))) df)
    as [mask|e] eqn:M; simpl; [|discriminate].
  intro H. inversion H; subst out. clear H.
  apply mapM_Ok_Forall2 in M.
  induction M as [|r b t mask' Hr Ht IH]; simpl; [reflexivity|].
  destruct (label (snd r)) as [z|s]; simpl in Hr; [|discriminate].
  inversion Hr; subst b. destruct (10 <=? z)%Z; simpl; now rewrite IH.
Qed.

Lemma label_ge_10_by_value_witness :
  label_ge_10 Examples.merged
  = Ok [(12, Ticket (VInt 12) "text" (VInt 70))] /\
  [(12, Ticket (VInt 12) "text" (VInt 70))]
  = List.filter (fun r : row => match label (snd r) with
                                | VInt z => (10 <=? z)%Z
                                | VStr _ => false
                                end) Examples.merged.
Proof.
  assert (H : label_ge_10 Examples.merged
              = Ok [(12, Ticket (VInt 12) "text" (VInt 70))]) by reflexivity.
  split; [exact H|].
  exact (@label_ge_10_by_value Examples.merged _ H).
Defined.

(** C1 on the example: label 3 has 12 rows and label 70 has one; line 149
    drops the 12 rows and keeps the single one. *)
Theorem low_volume_floor_by_value :
  count (VInt 3) (labels Examples.merged) = 12 /\
  count (VInt 70) (labels Examples.merged) = 1 /\
  label_ge_10 Examples.merged
  = Ok [(12, Ticket (VInt 12) "text" (VInt 70))].
Proof. repeat split. Qed.

(** A whole run: the rows of labels 1 and 2 go to the general dataset under
    label 0; the low volume dataset is made of the extended history alone,
    without the 12 rows of label 3. *)
Example viable_run :
  Examples.label_tables
    (fst (main (RS := Examples.reversing) (Examples.world Examples.history)
               Examples.cfg "2025011100"))
  = [("training/gata-general/2025011100/train/data.json"%string,
      Ok [(VInt 0, 18); (VInt 100, 540)]);
     ("training/gata-general/2025011100/test/data.json"%string,
      Ok [(VInt 0, 2); (VInt 100, 60)]);
     ("training/gata-low-vol/2025011100/train/data.json"%string,
      Ok [(VInt 50, 9); (VInt 60, 9)]);
     ("training/gata-low-vol/2025011100/test/data.json"%string,
      Ok [(VInt 50, 1); (VInt 60, 1)])].
Proof. vm_compute. reflexivity. Qed.

(** C4 on the example: labels 1 and 2 are the low volume labels of a
    primary window that is not empty, with 10 rows each, so the low volume
    dataset is decided; they hold 20 rows of the window.  The extended
    history is empty.  The run writes the general dataset, asks for the
    extended history and returns there: the copy of line 125 is taken from
    the rewritten frame and is empty, so the merged frame is empty and
    lines 141 to 143 end the run.  No low volume dataset is written. *)
Theorem low_volume_decided_not_written :
  from_records Examples.primary <> [] /\
  decide Examples.cfg (from_records Examples.primary)
  = Ok ([VInt 1; VInt 2], true) /\
  occurrences (VInt 1) (from_records Examples.primary) = 10 /\
  occurrences (VInt 2) (from_records Examples.primary) = 10 /\
  List.length (dataset.filter (from_records Examples.primary)
                              [VInt 1; VInt 2]) = 20 /\
  get_tickets (Examples.world []) 1705017600 1728777600 = Ok [] /\
  Examples.windows
    (fst (main (RS := Examples.reversing) (Examples.world [])
               Examples.cfg "2025011100"))
  = [(1728777600, 1736553599); (1705017600, 1728777600)]%Z /\
  Examples.label_tables
    (fst (main (RS := Examples.reversing) (Examples.world [])
               Examples.cfg "2025011100"))
  = [("training/gata-general/2025011100/train/data.json"%string,
      Ok [(VInt 0, 18); (VInt 100, 540)]);
     ("training/gata-general/2025011100/test/data.json"%string,
      Ok [(VInt 0, 2); (VInt 100, 60)])] /\
  snd (main (RS := Examples.reversing) (Examples.world [])
            Examples.cfg "2025011100") = Ok tt.
Proof.
  split; [discriminate|].
  repeat (split; [vm_compute; reflexivity|]).
  vm_compute; reflexivity.
Qed.

(** [main] up to the primary window, when the outside answers. *)
Lemma main_run {RS : RandomState} (w : World) (cfg : Config)
      (batch_id db_name : string) (start end_ : Z) (fetched : list ticket) :
  len batch_id = 10 -> isdigit batch_id = true ->
  get_start_datetime w batch_id (TRAINING_PERIOD cfg) = Ok start ->
  get_end_datetime w batch_id = Ok end_ ->
  secret_dbname w (DB_SECRET_ARN cfg) = Ok db_name ->
  connect w (DB_ARN cfg) (DB_SECRET_ARN cfg) db_name = Ok tt ->
  get_tickets w (timestamp start) (timestamp end_) = Ok fetched ->
  fetched <> [] ->
  main w cfg batch_id
  = ([LoadSecret (DB_SECRET_ARN cfg);
      Connect (DB_ARN cfg) (DB_SECRET_ARN cfg) db_name;
      GetTickets (timestamp start) (timestamp end_)]
       ++ fst (datasets w cfg batch_id start (from_records fetched)),
     snd (datasets w cfg batch_id start (from_records fetched))).
Proof.
  intros Hl Hd Hstart Hend Hs Hc Hg Hne.
  unfold main, pure, access.
  rewrite Hl, Hd, Hstart, Hend, Hs. cbn [Nat.eqb negb orb iobind app].
  rewrite Hc. cbn [iobind app]. rewrite Hg. cbn [iobind app].
  destruct fetched as [|x l]; [congruence|].
  cbn [from_records enumerate_from empty].
  now destruct (datasets _ _ _ _ _).
Qed.

(* ================================================================== *)
(** * [src/db.py]: priming the connection *)

Lemma statements_execute (q : string) (p : list db.param)
      (tr : list db.event) :
  statements (db.Execute q p :: tr) = S (statements tr).
Proof. reflexivity. Qed.

Lemma statements_sleep (n : nat) (tr : list db.event) :
  statements (db.Sleep n :: tr) = statements tr.
Proof. reflexivity. Qed.

Lemma slept_execute (q : string) (p : list db.param) (tr : list db.event) :
  slept (db.Execute q p :: tr) = slept tr.
Proof. reflexivity. Qed.

Lemma slept_sleep (n : nat) (tr : list db.event) :
  slept (db.Sleep n :: tr) = n + slept tr.
Proof. reflexivity. Qed.

Lemma prime_loop_bounds R (rds : db.Rds R) (fuel attempts : nat)
      (s : db.state rds) :
  10 - attempts < fuel ->
  exists tr r s', db.prime_loop rds fuel attempts s = Some (tr, r, s') /\
    statements tr <= 10 - attempts /\ slept tr <= 3 * (10 - attempts) /\
    slept tr <= 3 * statements tr.
Proof.
  revert attempts s. induction fuel as [|fuel IH]; intros a s Hf; [lia|].
  cbn [db.prime_loop].
  destruct (a <? 10) eqn:Ea.
  - apply Nat.ltb_lt in Ea.
    destruct (db.execute_statement rds s "SELECT 1" []) as [[x| |e] s1].
    + eexists _, _, _. split; [reflexivity|].
      rewrite statements_execute, slept_execute.
      change (statements []) with 0. change (slept []) with 0. lia.
    + destruct (IH (a + 1) s1) as (tr & r & s2 & E & H1 & H2 & H3); [lia|].
      rewrite E. eexists _, _, _. split; [reflexivity|].
      rewrite statements_execute, slept_execute, statements_sleep, slept_sleep.
      lia.
    + eexists _, _, _. split; [reflexivity|].
      rewrite statements_execute, slept_execute.
      change (statements []) with 0. change (slept []) with 0. lia.
  - eexists _, _, _. split; [reflexivity|].
    change (statements []) with 0. change (slept []) with 0. lia.
Qed.

Lemma prime_loop_resuming R (rds : db.Rds R) (k : nat) :
  forall fuel attempts s s1,
  10 - attempts < fuel -> attempts + k <= 10 ->
  resuming rds k s = Some s1 ->
  (attempts + k = 10 ->
   db.prime_loop rds fuel attempts s = Some (waits k, Raise ConnectionError, s1)) /\
  (attempts + k < 10 -> forall a s2,
   db.execute_statement rds s1 "SELECT 1" [] = (db.Response a, s2) ->
   db.prime_loop rds fuel attempts s
   = Some (waits k ++ [db.Execute "SELECT 1" []], Ok tt, s2)) /\
  (attempts + k < 10 -> forall e s2,
   db.execute_statement rds s1 "SELECT 1" [] = (db.Failure e, s2) ->
   db.prime_loop rds fuel attempts s
   = Some (waits k ++ [db.Execute "SELECT 1" []], Raise e, s2)).
Proof.
  induction k as [|k IH]; intros fuel a s s1 Hf Hk Hr.
  - cbn in Hr. injection Hr as <-.
    destruct fuel as [|fuel]; [lia|].
    cbn [db.prime_loop waits repeat List.concat app].
    repeat split.
    + intro E. replace (a <? 10) with false by (symmetry; apply Nat.ltb_ge; lia).
      reflexivity.
    + intros E x s2 Hx.
      replace (a <? 10) with true by (symmetry; apply Nat.ltb_lt; lia).
      now rewrite Hx.
    + intros E e s2 Hx.
      replace (a <? 10) with true by (symmetry; apply Nat.ltb_lt; lia).
      now rewrite Hx.
  - cbn [resuming] in Hr.
    destruct (db.execute_statement rds s "SELECT 1" []) as [[x| |e] s'] eqn:Ex;
      try discriminate.
    destruct fuel as [|fuel]; [lia|].
    destruct (IH fuel (a + 1) s' s1) as (H1 & H2 & H3); [lia|lia|exact Hr|].
    cbn [db.prime_loop].
    replace (a <? 10) with true by (symmetry; apply Nat.ltb_lt; lia).
    rewrite Ex. unfold waits. cbn [repeat List.concat app].
    repeat split.
    + intro E. rewrite H1 by lia. reflexivity.
    + intros E y s2 Hy. rewrite (H2 ltac:(lia) y s2 Hy). reflexivity.
    + intros E e s2 He. rewrite (H3 ltac:(lia) e s2 He). reflexivity.
Qed.

(** X3. [_prime_connection] always comes to an end: whatever the service
    answers, it returns or raises after at most 10 statements and at most
    30 seconds of sleep, 3 seconds after each statement that was answered by
    [DatabaseResumingException] (the docstring speaks of 5 attempts). *)
Theorem prime_connection_bounded R (rds : db.Rds R) (fuel : nat)
        (s : db.state rds) :
  10 < fuel ->
  exists tr r s', db._prime_connection rds fuel s = Some (tr, r, s') /\
    statements tr <= 10 /\ slept tr <= 30 /\ slept tr <= 3 * statements tr.
Proof.
  intro Hf.
  destruct (@prime_loop_bounds R rds fuel 0 s) as (tr & r & s' & E & H1 & H2 & H3);
    [lia|].
  exists tr, r, s'. unfold db._prime_connection. repeat split; auto.
Qed.

Lemma prime_connection_bounded_witness :
  exists tr r s',
    db._prime_connection (@Services.scripted nat) 11
      [db.DatabaseResuming; db.DatabaseResuming; db.Response [7]]
    = Some (tr, r, s') /\
    statements tr <= 10 /\ slept tr <= 30 /\ slept tr <= 3 * statements tr.
Proof.
  apply (@prime_connection_bounded nat (@Services.scripted nat) 11).
  lia.
Defined.

(** X4. What [_prime_connection] makes of the answers.  After [k] resuming
    answers in a row: with [k = 10] it raises [ConnectionError], having sent
    10 statements; with [k < 10], a response to the next statement makes it
    return, and any other exception of the next statement is raised as it
    is, without another attempt. *)
Theorem prime_connection_outcomes R (rds : db.Rds R) (fuel : nat)
        (s : db.state rds) (k : nat) (s1 : db.state rds) :
  10 < fuel -> k <= 10 -> resuming rds k s = Some s1 ->
  (k = 10 ->
   db._prime_connection rds fuel s = Some (waits 10, Raise ConnectionError, s1)) /\
  (k < 10 -> forall a s2,
   db.execute_statement rds s1 "SELECT 1" [] = (db.Response a, s2) ->
   db._prime_connection rds fuel s
   = Some (waits k ++ [db.Execute "SELECT 1" []], Ok tt, s2)) /\
  (k < 10 -> forall e s2,
   db.execute_statement rds s1 "SELECT 1" [] = (db.Failure e, s2) ->
   db._prime_connection rds fuel s
   = Some (waits k ++ [db.Execute "SELECT 1" []], Raise e, s2)).
Proof.
  intros Hf Hk Hr.
  destruct (@prime_loop_resuming R rds k fuel 0 s s1) as (H1 & H2 & H3);
    [lia|lia|exact Hr|].
  unfold db._prime_connection. repeat split.
  - intros ->. now apply H1.
  - intros E. now apply H2.
  - intros E. now apply H3.
Qed.

Lemma prime_connection_outcomes_witness :
  (2 = 10 ->
   db._prime_connection (@Services.scripted nat) 11
     [db.DatabaseResuming; db.DatabaseResuming; db.Response [7]]
   = Some (waits 10, Raise ConnectionError, [db.Response [7]])) /\
  (2 < 10 -> forall a s2,
   db.execute_statement (@Services.scripted nat) [db.Response [7]] "SELECT 1" []
   = (db.Response a, s2) ->
   db._prime_connection (@Services.scripted nat) 11
     [db.DatabaseResuming; db.DatabaseResuming; db.Response [7]]
   = Some (waits 2 ++ [db.Execute "SELECT 1" []], Ok tt, s2)) /\
  (2 < 10 -> forall e s2,
   db.execute_statement (@Services.scripted nat) [db.Response [7]] "SELECT 1" []
   = (db.Failure e, s2) ->
   db._prime_connection (@Services.scripted nat) 11
     [db.DatabaseResuming; db.DatabaseResuming; db.Response [7]]
   = Some (waits 2 ++ [db.Execute "SELECT 1" []], Raise e, s2)).
Proof.
  apply (@prime_connection_outcomes nat (@Services.scripted nat) 11
           [db.DatabaseResuming; db.DatabaseResuming; db.Response [7]]
           2 [db.Response [7]]).
  - lia.
  - lia.
  - reflexivity.
Defined.

(** [test_db_client_init_resume_success] and
    [test_db_client_init_resume_failure] of [tests/test_db.py]: three
    statements when the database resumes twice, ten when it never wakes. *)
Example prime_connection_tests :
  db._prime_connection (@Services.scripted nat) 11
    [db.DatabaseResuming; db.DatabaseResuming; db.Response []]
  = Some ([db.Execute "SELECT 1" []; db.Sleep 3;
           db.Execute "SELECT 1" []; db.Sleep 3;
           db.Execute "SELECT 1" []], Ok tt, []) /\
  option_map (fun x => (statements (fst (fst x)), snd (fst x)))
    (db._prime_connection (@Services.scripted nat) 11
       (repeat db.DatabaseResuming 12))
  = Some (10, Raise ConnectionError).
Proof. split; reflexivity. Qed.

(** [test_db_client_select_non_select_query]: nothing is sent. *)
Example select_non_select_query :
  db.select (@Services.scripted nat) [db.Response [7]] "INSERT INTO table" []
  = ([], Raise ValueError, [db.Response [7]]).
Proof. reflexivity. Qed.

(* ================================================================== *)
(** * [src/tickets.py]: the statement and the pages *)

Lemma map_fst_enumerate_from A (l : list A) (n : nat) :
  map fst (enumerate_from n l) = seq n (List.length l).
Proof.
  revert n. induction l as [|x l IH]; intro n; cbn; [reflexivity|].
  now rewrite IH.
Qed.

Lemma map_snd_enumerate_from A (l : list A) (n : nat) :
  map snd (enumerate_from n l) = l.
Proof.
  revert n. induction l as [|x l IH]; intro n; cbn; [reflexivity|].
  now rewrite IH.
Qed.

Lemma to_uint_not_nil (n : nat) : Nat.to_uint n <> Decimal.Nil.
Proof.
  intro H. pose proof (DecimalNat.Unsigned.of_to n) as E. rewrite H in E.
  cbn in E. subst n. discriminate H.
Qed.

(** Two numbers with the same decimal writing are equal. *)
Lemma str_inj (n m : nat) : tickets.str n = tickets.str m -> n = m.
Proof.
  unfold tickets.str. intro H.
  apply DecimalNat.Unsigned.to_uint_inj.
  pose proof (NilZero.usu _ (to_uint_not_nil n)) as Hn.
  pose proof (NilZero.usu _ (to_uint_not_nil m)) as Hm.
  rewrite H in Hn. congruence.
Qed.

Lemma statement_cases (start end_ : Z) (group_ids : option (list Z)) :
  tickets.statement start end_ group_ids
  = (statement_text (List.length (ids_of group_ids)),
     [db.Param "offset" 0; db.Param "limit" tickets.limit;
      db.Param "start" (timestamp start); db.Param "end" (timestamp end_)]
     ++ map (fun p => db.Param ("group_id_" ++ tickets.str (fst p)) (snd p))
            (enumerate_from 0 (ids_of group_ids))).
Proof.
  unfold statement_text, tickets.statement.
  destruct group_ids as [[|z ids]|]; try reflexivity.
  cbn [ids_of List.length repeat].
  rewrite !map_fst_enumerate_from. cbn [List.length]. rewrite repeat_length.
  reflexivity.
Qed.

Lemma statement_text_select (n : nat) :
  String.prefix "SELECT" (statement_text n) = true.
Proof.
  unfold statement_text, tickets.statement.
  destruct n; reflexivity.
Qed.

Lemma append_inj (a b c : string) : (a ++ b = a ++ c -> b = c)%string.
Proof.
  induction a as [|x a IH]; cbn; intro H; [exact H|].
  injection H as H. now apply IH.
Qed.

Lemma NoDup_map_injective A B (f : A -> B) (l : list A) :
  (forall x y, f x = f y -> x = y) -> NoDup l -> NoDup (map f l).
Proof.
  intros Hf H. induction H as [|x l Hx H IH]; cbn; constructor; [|exact IH].
  intro Hin. apply in_map_iff in Hin. destruct Hin as (y & E & Hy).
  apply Hf in E. now subst y.
Qed.

Lemma group_names_NoDup (n : nat) :
  NoDup (["offset"; "limit"; "start"; "end"]%string
         ++ map (fun i => ("group_id_" ++ tickets.str i)%string) (seq 0 n)).
Proof.
  apply NoDup_app.
  - repeat constructor; cbn; intuition discriminate.
  - apply NoDup_map_injective; [|apply seq_NoDup].
    intros i j H. apply append_inj in H. now apply str_inj.
  - intros a Ha Hb. apply in_map_iff in Hb. destruct Hb as (j & <- & _).
    cbn in Ha. intuition discriminate.
Qed.

Lemma page_params_0 (p : db.param) (rest : list db.param) :
  page_params (p :: rest) 0 = p :: rest.
Proof.
  destruct p as [n v]. unfold page_params. cbn [db.name db.longValue].
  now rewrite Z.mul_0_r, Z.add_0_r.
Qed.

Lemma page_params_next (p : db.param) (rest : list db.param) (k : nat) :
  page_params (db.Param (db.name p) (db.longValue p + tickets.limit) :: rest) k
  = page_params (p :: rest) (S k).
Proof.
  unfold page_params. cbn [db.name db.longValue]. f_equal. f_equal.
  unfold tickets.limit. lia.
Qed.

(** A statement that starts with [SELECT] passes the check of [select] and
    is sent. *)
Lemma select_sent R (rds : db.Rds R) (s : db.state rds) (sql : string)
      (params : list db.param) :
  String.prefix "SELECT" sql = true ->
  db.select rds s sql params
  = match db.execute_statement rds s sql params with
    | (db.Response records, s') => ([db.Execute sql params], Ok records, s')
    | (db.DatabaseResuming, s') => ([db.Execute sql params], Raise ClientError, s')
    | (db.Failure e, s') => ([db.Execute sql params], Raise e, s')
    end.
Proof. intro H. unfold db.select. now rewrite H. Qed.

Lemma load_pages_trace R (rds : db.Rds R) (sql : string)
      (rest : list db.param) (fuel : nat) :
  String.prefix "SELECT" sql = true ->
  forall p s tr r s',
  tickets.load_pages rds fuel s sql (p :: rest) = Some (tr, r, s') ->
  exists n, tr = map (fun k => db.Execute sql (page_params (p :: rest) k))
                     (seq 0 (S n)).
Proof.
  intro Hsel. induction fuel as [|fuel IH]; intros p s tr r s' H;
    [discriminate|].
  cbn [tickets.load_pages] in H. rewrite (@select_sent _ rds s sql _ Hsel) in H.
  destruct (db.execute_statement rds s sql (p :: rest)) as [[recs| |e] s1].
  - destruct recs as [|x recs].
    + injection H as <- <- <-. exists 0. cbn [map seq].
      now rewrite page_params_0.
    + cbn [tickets.next_page] in H.
      destruct (tickets.load_pages rds fuel s1 sql _) as [[[tr1 r1] s2]|] eqn:E;
        [|discriminate].
      destruct (IH _ _ _ _ _ E) as [n Hn].
      exists (S n).
      assert (Htr : tr = [db.Execute sql (p :: rest)] ++ tr1)
        by (destruct r1; injection H as <- _ _; reflexivity).
      rewrite Htr, Hn.
      replace (seq 0 (S (S n))) with (0 :: map S (seq 0 (S n)))
        by (rewrite seq_shift; reflexivity).
      cbn [map app]. rewrite page_params_0. f_equal.
      rewrite map_map. apply map_ext. intro k. now rewrite page_params_next.
  - injection H as <- <- <-. exists 0. cbn [map seq]. now rewrite page_params_0.
  - injection H as <- <- <-. exists 0. cbn [map seq]. now rewrite page_params_0.
Qed.

Lemma load_pages_raise R (rds : db.Rds R) (sql : string)
      (rest : list db.param) (fuel : nat) :
  String.prefix "SELECT" sql = true ->
  forall p s tr e s',
  tickets.load_pages rds fuel s sql (p :: rest) = Some (tr, Raise e, s') ->
  exists s0 params s1,
    (db.execute_statement rds s0 sql params = (db.DatabaseResuming, s1) /\
     e = ClientError) \/
    db.execute_statement rds s0 sql params = (db.Failure e, s1).
Proof.
  intro Hsel. induction fuel as [|fuel IH]; intros p s tr e s' H;
    [discriminate|].
  cbn [tickets.load_pages] in H. rewrite (@select_sent _ rds s sql _ Hsel) in H.
  destruct (db.execute_statement rds s sql (p :: rest)) as [[recs| |e1] s1] eqn:Ex.
  - destruct recs as [|x recs]; [discriminate|].
    cbn [tickets.next_page] in H.
    destruct (tickets.load_pages rds fuel s1 sql _) as [[[tr1 r1] s2]|] eqn:E;
      [|discriminate].
    destruct r1 as [l|e1]; [discriminate|].
    injection H as _ <- _. exact (IH _ _ _ _ _ E).
  - injection H as _ <- _. exists s, (p :: rest), s1. now left.
  - injection H as _ <- _. exists s, (p :: rest), s1. now right.
Qed.

Lemma load_pages_table R (rows : list R) (sql : string)
      (rest : list db.param) (fuel : nat) :
  String.prefix "SELECT" sql = true ->
  forall o,
  1 <= fuel -> List.length rows <= o + 50 * (fuel - 1) ->
  exists tr,
    tickets.load_pages (Services.table rows) fuel tt sql
      (db.Param "offset" (Z.of_nat o) :: db.Param "limit" tickets.limit :: rest)
    = Some (tr, Ok (skipn o rows), tt) /\
    1 <= statements tr /\
    List.length rows - o <= 50 * (statements tr - 1) /\
    50 * (statements tr - 1) < List.length rows - o + 50.
Proof.
  intro Hsel. induction fuel as [|fuel IH]; intros o Hf Hlen; [lia|].
  cbn [tickets.load_pages]. rewrite (@select_sent _ _ _ sql _ Hsel).
  cbn [Services.table db.execute_statement].
  change (Services.bound "limit" _) with tickets.limit.
  change (Services.bound "offset" _) with (Z.of_nat o).
  rewrite Nat2Z.id. change (Z.to_nat tickets.limit) with 50.
  destruct (firstn 50 (skipn o rows)) as [|x page] eqn:Ep.
  - assert (Hs : skipn o rows = []).
    { destruct (skipn o rows); [reflexivity|discriminate]. }
    rewrite Hs. eexists. split; [reflexivity|].
    rewrite statements_execute. change (statements []) with 0.
    assert (H : List.length (skipn o rows) = 0) by now rewrite Hs.
    rewrite length_skipn in H. lia.
  - assert (Hpos : o < List.length rows).
    { destruct (Nat.lt_ge_cases o (List.length rows)) as [|Hge]; [assumption|].
      rewrite (skipn_all2 rows Hge) in Ep. discriminate. }
    cbn [tickets.next_page db.name db.longValue].
    replace (Z.of_nat o + tickets.limit)%Z with (Z.of_nat (o + 50))
      by (unfold tickets.limit; lia).
    destruct (IH (o + 50)) as (tr & E & H1 & H2 & H3); [lia|lia|].
    rewrite E. eexists. split.
    + rewrite <- Ep. rewrite Nat.add_comm, <- skipn_skipn, firstn_skipn.
      reflexivity.
    + cbn [app]. rewrite statements_execute. lia.
Qed.

Lemma load_pages_stuck R (rds : db.Rds R) (sql : string)
      (rest : list db.param) (fuel : nat) :
  String.prefix "SELECT" sql = true ->
  (forall s q params, exists x l s',
     db.execute_statement rds s q params = (db.Response (x :: l), s')) ->
  forall p s, tickets.load_pages rds fuel s sql (p :: rest) = None.
Proof.
  intros Hsel Hne. induction fuel as [|fuel IH]; intros p s; [reflexivity|].
  cbn [tickets.load_pages]. rewrite (@select_sent _ rds s sql _ Hsel).
  destruct (Hne s sql (p :: rest)) as (x & l & s' & E). rewrite E.
  cbn [tickets.next_page]. now rewrite IH.
Qed.

(** X5. The text of the statement of [_load_tickets] depends on the number
    of group ids only: neither the bounds of the window nor the values of
    the ids are written into it (they travel as parameters).  The text
    starts with [SELECT], so the check of [DbClient.select] lets it
    through. *)
Theorem statement_text_fixed (start end_ start' end_' : Z)
        (group_ids group_ids' : option (list Z)) :
  List.length (ids_of group_ids) = List.length (ids_of group_ids') ->
  fst (tickets.statement start end_ group_ids)
  = fst (tickets.statement start' end_' group_ids') /\
  String.prefix "SELECT" (fst (tickets.statement start end_ group_ids)) = true.
Proof.
  intro H. rewrite !statement_cases. cbn [fst]. rewrite H. split;
    [reflexivity|apply statement_text_select].
Qed.

Lemma statement_text_fixed_witness :
  fst (tickets.statement 0 86400000000 (Some [123456; 5]%Z))
  = fst (tickets.statement 7 9 (Some [1; 2]%Z)) /\
  String.prefix "SELECT"
    (fst (tickets.statement 0 86400000000 (Some [123456; 5]%Z))) = true.
Proof.
  apply statement_text_fixed. reflexivity.
Defined.

(** The statement for one group id, as [test_get_tickets_with_groups]
    makes it, and for none. *)
Example statement_with_one_group :
  tickets.statement 1704067200000000 1704153600000000 (Some [123456%Z])
  = ("SELECT id, processed_data AS text, closed_group_id_mapped AS label FROM ticket WHERE (via_channel != 'api' OR (via_channel = 'api' AND initial_group_id = 0)) AND routed_by != 'gata-mapped' AND closed BETWEEN :start AND :end AND closed_group_id_mapped IN (:group_id_0) ORDER BY closed DESC LIMIT :limit OFFSET :offset"%string,
     [db.Param "offset" 0; db.Param "limit" 50;
      db.Param "start" 1704067200; db.Param "end" 1704153600;
      db.Param "group_id_0" 123456]) /\
  fst (tickets.statement 0 0 None)
  = "SELECT id, processed_data AS text, closed_group_id_mapped AS label FROM ticket WHERE (via_channel != 'api' OR (via_channel = 'api' AND initial_group_id = 0)) AND routed_by != 'gata-mapped' AND closed BETWEEN :start AND :end ORDER BY closed DESC LIMIT :limit OFFSET :offset"%string /\
  tickets.statement 0 0 (Some []) = tickets.statement 0 0 None.
Proof. repeat split. Qed.

(** X6. The parameters of the statement: [offset] (0), [limit] (50),
    [start] and [end] (the bounds in whole seconds), then one parameter
    [group_id_<i>] for each group id, in order, holding that id.  No two
    parameters have the same name. *)
Theorem statement_params (start end_ : Z) (group_ids : option (list Z)) :
  map db.name (snd (tickets.statement start end_ group_ids))
  = ["offset"; "limit"; "start"; "end"]%string
    ++ map (fun i => ("group_id_" ++ tickets.str i)%string)
           (seq 0 (List.length (ids_of group_ids))) /\
  NoDup (map db.name (snd (tickets.statement start end_ group_ids))) /\
  map db.longValue (snd (tickets.statement start end_ group_ids))
  = [0%Z; 50%Z; timestamp start; timestamp end_] ++ ids_of group_ids.
Proof.
  rewrite statement_cases. cbn [snd].
  assert (Hn : map db.name
                 (map (fun p => db.Param ("group_id_" ++ tickets.str (fst p)) (snd p))
                      (enumerate_from 0 (ids_of group_ids)))
               = map (fun i => ("group_id_" ++ tickets.str i)%string)
                     (seq 0 (List.length (ids_of group_ids)))).
  { rewrite map_map. cbn [db.name].
    rewrite <- map_fst_enumerate_from with (l := ids_of group_ids), map_map.
    reflexivity. }
  rewrite !map_app, Hn.
  split; [reflexivity|]. split.
  - apply group_names_NoDup.
  - rewrite map_map. cbn [db.longValue map].
    rewrite <- (map_snd_enumerate_from (ids_of group_ids) 0) at 2.
    reflexivity.
Qed.

(** X7. The statements [get_tickets] sends, whatever the service answers:
    the same text each time, with the parameters of the first statement
    but for the offset, which is 0, 50, 100 and so on; at least one
    statement is sent. *)
Theorem get_tickets_statements R (rds : db.Rds R) (fuel : nat)
        (s : db.state rds) (start end_ : Z) (group_ids : option (list Z))
        (tr : list db.event) (r : result (list R)) (s' : db.state rds) :
  tickets.get_tickets rds fuel s start end_ group_ids = Some (tr, r, s') ->
  exists n,
    tr = map (fun k =>
                db.Execute (fst (tickets.statement start end_ group_ids))
                  (page_params (snd (tickets.statement start end_ group_ids)) k))
             (seq 0 (S n)).
Proof.
  unfold tickets.get_tickets, tickets._load_tickets.
  rewrite statement_cases. cbn [fst snd app].
  apply load_pages_trace, statement_text_select.
Qed.

Lemma get_tickets_statements_witness :
  exists n,
    [db.Execute (fst (tickets.statement 0 0 None))
       (page_params (snd (tickets.statement 0 0 None)) 0);
     db.Execute (fst (tickets.statement 0 0 None))
       (page_params (snd (tickets.statement 0 0 None)) 1)]
    = map (fun k =>
             db.Execute (fst (tickets.statement 0 0 None))
               (page_params (snd (tickets.statement 0 0 None)) k))
          (seq 0 (S n)).
Proof.
  apply (@get_tickets_statements nat (Services.table [7; 8]) 3 tt 0%Z 0%Z None
           _ (Ok [7; 8]) tt).
  reflexivity.
Defined.

(** [test_get_tickets]: a page of two records and then an empty page. *)
Example get_tickets_test :
  option_map (fun x => (snd (fst x), statements (fst (fst x))))
    (tickets.get_tickets (@Services.scripted nat) 3 [db.Response [1; 2]]
                         1735689600000000 1735776000000000 None)
  = Some (Ok [1; 2], 2).
Proof. reflexivity. Qed.

(** X8. An exception of [get_tickets] is an exception of the service: the
    statement was answered by [DatabaseResumingException] (a [ClientError],
    which [select] does not wait for) or by the exception raised.  The check
    of [select] and the update of the offset never raise here. *)
Theorem get_tickets_raises R (rds : db.Rds R) (fuel : nat)
        (s : db.state rds) (start end_ : Z) (group_ids : option (list Z))
        (tr : list db.event) (e : exn) (s' : db.state rds) :
  tickets.get_tickets rds fuel s start end_ group_ids = Some (tr, Raise e, s') ->
  exists s0 params s1,
    (db.execute_statement rds s0 (fst (tickets.statement start end_ group_ids))
                          params = (db.DatabaseResuming, s1) /\
     e = ClientError) \/
    db.execute_statement rds s0 (fst (tickets.statement start end_ group_ids))
                         params = (db.Failure e, s1).
Proof.
  unfold tickets.get_tickets, tickets._load_tickets.
  rewrite statement_cases. cbn [fst snd app].
  apply load_pages_raise, statement_text_select.
Qed.

Lemma get_tickets_raises_witness :
  exists s0 params s1,
    (db.execute_statement (@Services.scripted nat) s0
       (fst (tickets.statement 0 0 None)) params = (db.DatabaseResuming, s1) /\
     ClientError = ClientError) \/
    db.execute_statement (@Services.scripted nat) s0
      (fst (tickets.statement 0 0 None)) params = (db.Failure ClientError, s1).
Proof.
  apply (@get_tickets_raises nat (@Services.scripted nat) 3
           [db.Response [7]; db.DatabaseResuming] 0%Z 0%Z None
           [db.Execute (fst (tickets.statement 0 0 None))
              (page_params (snd (tickets.statement 0 0 None)) 0);
            db.Execute (fst (tickets.statement 0 0 None))
              (page_params (snd (tickets.statement 0 0 None)) 1)]
           ClientError []).
  reflexivity.
Defined.

(** X9. Over a service that returns [LIMIT :limit OFFSET :offset] of a fixed
    list of rows, [get_tickets] returns all the rows, each once and in the
    order of the service, and it sends one statement for each page of 50
    rows or part of it, and one more that finds the empty page. *)
Theorem get_tickets_reads_table R (rows : list R) (fuel : nat)
        (start end_ : Z) (group_ids : option (list Z)) :
  List.length rows / 50 + 2 <= fuel ->
  exists tr,
    tickets.get_tickets (Services.table rows) fuel tt start end_ group_ids
    = Some (tr, Ok rows, tt) /\
    List.length rows <= 50 * (statements tr - 1) /\
    50 * (statements tr - 1) < List.length rows + 50.
Proof.
  intro Hf. unfold tickets.get_tickets, tickets._load_tickets.
  rewrite statement_cases. cbn [fst snd app].
  destruct (@load_pages_table R rows
              (statement_text (List.length (ids_of group_ids)))
              ([db.Param "start" (timestamp start);
                db.Param "end" (timestamp end_)]
               ++ map (fun p => db.Param ("group_id_" ++ tickets.str (fst p)) (snd p))
                      (enumerate_from 0 (ids_of group_ids)))
              fuel (statement_text_select _) 0)
    as (tr & E & H1 & H2 & H3).
  - lia.
  - pose proof (Nat.div_mod_eq (List.length rows) 50) as Hd.
    pose proof (Nat.mod_upper_bound (List.length rows) 50) as Hm. lia.
  - exists tr. cbn [app skipn Z.of_nat] in E. rewrite E.
    split; [reflexivity|]. lia.
Qed.

Lemma get_tickets_reads_table_witness :
  exists tr,
    tickets.get_tickets (Services.table (seq 0 120)) 4 tt 0 0 None
    = Some (tr, Ok (seq 0 120), tt) /\
    List.length (seq 0 120) <= 50 * (statements tr - 1) /\
    50 * (statements tr - 1) < List.length (seq 0 120) + 50.
Proof.
  apply (@get_tickets_reads_table nat (seq 0 120) 4 0%Z 0%Z None).
  vm_compute. lia.
Defined.

(** X10. The loop of [_load_tickets] ends on an empty page or on an
    exception only: over a service that never returns an empty page (one
    that does not honour the offset, say), [get_tickets] does not return,
    whatever the number of steps it is given. *)
Theorem get_tickets_never_ends R (rds : db.Rds R) (fuel : nat)
        (s : db.state rds) (start end_ : Z) (group_ids : option (list Z)) :
  (forall s q params, exists x l s',
     db.execute_statement rds s q params = (db.Response (x :: l), s')) ->
  tickets.get_tickets rds fuel s start end_ group_ids = None.
Proof.
  intro H. unfold tickets.get_tickets, tickets._load_tickets.
  rewrite statement_cases. cbn [fst snd app].
  apply load_pages_stuck; [apply statement_text_select|exact H].
Qed.

Lemma get_tickets_never_ends_witness :
  tickets.get_tickets (Services.stuck [7]) 1000 tt 0 0 None = None.
Proof.
  apply (@get_tickets_never_ends nat (Services.stuck [7]) 1000 tt 0%Z 0%Z None).
  intros s q params. exists 7, [], s. reflexivity.
Defined.

(* ================================================================== *)
(** * The order of the rows *)

(** Two sorted lists with the same elements are equal, when no two
    elements are equivalent for the order. *)
Lemma sorted_perm_eq A (R : A -> A -> Prop) (l : list A) :
  forall l',
  StronglySorted R l -> StronglySorted R l' -> Permutation l l' ->
  (forall x y, In x l -> In y l -> R x y -> R y x -> x = y) ->
  l = l'.
Proof.
  induction l as [|x t IH]; intros l' S S' P Anti.
  - apply Permutation_nil in P. now subst.
  - destruct l' as [|y t'].
    { apply Permutation_sym, Permutation_nil in P. discriminate. }
    inversion S as [|? ? St Hx]; subst. inversion S' as [|? ? St' Hy]; subst.
    assert (E : x = y).
    { assert (Hxin : In x (y :: t'))
        by (apply (Permutation_in _ P); now left).
      assert (Hyin : In y (x :: t))
        by (apply (Permutation_in _ (Permutation_sym P)); now left).
      destruct Hxin as [->|Hxin]; [reflexivity|].
      destruct Hyin as [->|Hyin]; [reflexivity|].
      rewrite Forall_forall in Hx, Hy.
      apply Anti; [now left|now right|now apply Hx|now apply Hy]. }
    subst y. f_equal. apply IH; try assumption.
    + now apply Permutation_cons_inv in P.
    + intros a b Ha Hb. apply Anti; now right.
Qed.

Lemma NoDup_map_eq A B (f : A -> B) (l : list A) (x y : A) :
  NoDup (map f l) -> In x l -> In y l -> f x = f y -> x = y.
Proof.
  induction l as [|a t IH]; cbn; intros N Hx Hy E; [destruct Hx|].
  inversion N as [|? ? Na Nt]; subst.
  destruct Hx as [->|Hx], Hy as [->|Hy]; try reflexivity.
  - exfalso. apply Na. rewrite E. now apply in_map.
  - exfalso. apply Na. rewrite <- E. now apply in_map.
  - now apply IH.
Qed.

Lemma sort_by_key_perm A (key : A -> value) (l l' : list A) :
  Permutation l l' -> NoDup (map key l) ->
  sort_by (fun a b => value_leb (key a) (key b)) l
  = sort_by (fun a b => value_leb (key a) (key b)) l'.
Proof.
  intros P N.
  apply sorted_perm_eq
    with (R := fun a b => value_leb (key a) (key b) = true).
  - apply sort_by_sorted.
    + intros a b. apply value_leb_total.
    + intros a b c. apply value_leb_trans.
  - apply sort_by_sorted.
    + intros a b. apply value_leb_total.
    + intros a b c. apply value_leb_trans.
  - apply Permutation_trans with l; [apply sort_by_perm|].
    apply Permutation_trans with l'; [assumption|].
    apply Permutation_sym, sort_by_perm.
  - intros x y Hx Hy H1 H2. apply sort_by_In in Hx, Hy.
    apply (NoDup_map_eq key l x y N Hx Hy). now apply value_leb_antisym.
Qed.

Lemma uniform_perm (l l' : list value) :
  Permutation l l' -> uniform l = uniform l'.
Proof.
  intro P.
  destruct (uniform l) eqn:E, (uniform l') eqn:E'; try reflexivity.
  - rewrite (@uniform_incl l l') in E'; [discriminate| |assumption].
    intros x Hx. now apply (Permutation_in _ (Permutation_sym P)).
  - rewrite (@uniform_incl l' l) in E; [discriminate| |assumption].
    intros x Hx. now apply (Permutation_in _ P).
Qed.

Lemma unique_perm (col col' : list value) :
  Permutation col col' -> Permutation (unique col) (unique col').
Proof.
  intro P. apply NoDup_Permutation; try apply unique_NoDup.
  intro x. rewrite !unique_In.
  split; apply Permutation_in; [assumption|now symmetry].
Qed.

Lemma value_counts_permutation (col col' : list value) :
  Permutation col col' ->
  Permutation (value_counts col) (value_counts col').
Proof.
  intro P.
  apply Permutation_trans with (map (fun x => (x, count x col)) (unique col));
    [apply value_counts_perm|].
  apply Permutation_trans with (map (fun x => (x, count x col')) (unique col'));
    [|apply Permutation_sym, value_counts_perm].
  rewrite (map_ext (fun x => (x, count x col)) (fun x => (x, count x col'))).
  - apply Permutation_map. now apply unique_perm.
  - intro x. f_equal. now apply count_perm.
Qed.

Lemma filter_permutation A (p : A -> bool) (l l' : list A) :
  Permutation l l' -> Permutation (List.filter p l) (List.filter p l').
Proof.
  induction 1 as [|x l l' P IH|x y l|l l' l'' P IH P' IH']; cbn.
  - constructor.
  - destruct (p x); [now constructor|assumption].
  - destruct (p x), (p y); try reflexivity. apply perm_swap.
  - now apply Permutation_trans with (List.filter p l').
Qed.

(** X11. The order of the rows does not matter to [count_labels] and
    [find_threshold]: on two frames with the same rows in another order
    they return the same table and the same list, or raise the same
    exception. *)
Theorem row_order_irrelevant (df df' : DataFrame) :
  Permutation df df' ->
  utils.count_labels df = utils.count_labels df' /\
  forall t, dataset.find_threshold df t = dataset.find_threshold df' t.
Proof.
  intro P.
  assert (Pl : Permutation (labels df) (labels df'))
    by now apply Permutation_map.
  pose proof (value_counts_permutation Pl) as Pv.
  split.
  - unfold utils.count_labels, py_sort_by.
    rewrite (uniform_perm (Permutation_map fst Pv)).
    destruct (uniform _); [|reflexivity]. f_equal.
    apply sort_by_key_perm; [assumption|apply value_counts_keys_NoDup].
  - intro t. unfold dataset.find_threshold, py_sort, py_sort_by.
    assert (Pn : Permutation
                   (map fst (List.filter (fun p => Qltb (snd p) t)
                                         (value_counts_normalize (labels df))))
                   (map fst (List.filter (fun p => Qltb (snd p) t)
                                         (value_counts_normalize (labels df'))))).
    { apply Permutation_map, filter_permutation.
      unfold value_counts_normalize.
      rewrite (Permutation_length Pl). now apply Permutation_map. }
    rewrite !map_id, (uniform_perm Pn).
    destruct (uniform _); [|reflexivity]. f_equal.
    apply (@sort_by_key_perm value (fun v => v)); [assumption|].
    rewrite map_id. apply low_values_NoDup.
Qed.

Lemma row_order_irrelevant_witness :
  utils.count_labels Examples.abc_frame
  = utils.count_labels (rev Examples.abc_frame) /\
  forall t, dataset.find_threshold Examples.abc_frame t
            = dataset.find_threshold (rev Examples.abc_frame) t.
Proof.
  apply row_order_irrelevant. apply Permutation_rev.
Defined.

(** X12. [find_threshold] grows with the threshold: when it returns for a
    threshold, it returns for every smaller one, and with labels that are
    among those of the larger threshold. *)
Theorem find_threshold_monotone (df : DataFrame) (t t' : Q)
        (low' : list value) :
  (t <= t')%Q ->
  dataset.find_threshold df t' = Ok low' ->
  exists low, dataset.find_threshold df t = Ok low /\ incl low low'.
Proof.
  intros Ht H'.
  assert (Hin : forall l,
             In l (map fst (List.filter (fun p => Qltb (snd p) t)
                                        (value_counts_normalize (labels df)))) ->
             In l (map fst (List.filter (fun p => Qltb (snd p) t')
                                        (value_counts_normalize (labels df))))).
  { intros l Hl. apply in_map_iff in Hl. destruct Hl as [[x q] [E H]].
    cbn in E. subst x. apply filter_In in H. destruct H as [H Hq].
    apply in_map_iff. exists (l, q). split; [reflexivity|].
    apply filter_In. split; [assumption|].
    apply Qltb_lt. apply Qltb_lt in Hq. cbn [snd] in *.
    now apply Qlt_le_trans with t. }
  assert (E : exists low, dataset.find_threshold df t = Ok low).
  { unfold dataset.find_threshold, py_sort, py_sort_by in *.
    rewrite map_id in *.
    destruct (uniform (map fst (List.filter (fun p => Qltb (snd p) t') _)))
      eqn:U; [|discriminate].
    rewrite (uniform_incl Hin U). eauto. }
  destruct E as [low E]. exists low. split; [assumption|].
  intros l Hl. apply (find_threshold_In _ _ E) in Hl.
  apply (find_threshold_In _ _ H'). destruct Hl as [Hl Hq].
  split; [assumption|]. now apply Qlt_le_trans with t.
Qed.

Lemma find_threshold_monotone_witness :
  exists low, dataset.find_threshold Examples.test_frame (1 # 5) = Ok low /\
              incl low [VStr "0"; VStr "1"; VStr "2"].
Proof.
  apply (@find_threshold_monotone Examples.test_frame (1 # 5) (3 # 10)).
  - unfold Qle. cbn. lia.
  - reflexivity.
Defined.

(* ================================================================== *)
(** * [dataset.filter] *)

Lemma indicator_sum (v : value) (L : list value) :
  NoDup L ->
  list_sum (map (fun l => if value_eqb l v then 1 else 0) L)
  = if py_in v L then 1 else 0.
Proof.
  intro N. destruct (py_in v L) eqn:E.
  - apply py_in_In in E. now apply sum_indicator.
  - apply py_in_not_In in E. clear N.
    induction L as [|x L IH]; [reflexivity|]. cbn [map list_sum].
    change (list_sum (?a :: ?l)) with (a + list_sum l).
    rewrite IH by (intro H; apply E; now right).
    replace (value_eqb x v) with false; [reflexivity|].
    symmetry. apply value_eqb_neq. intros ->. apply E. now left.
Qed.

(** X13. [filter] keeps the rows whose label is in the list, with their
    index labels.  Filtering twice by the same list changes nothing more;
    filtering by all the labels of the frame keeps every row; two filters
    can be applied in either order; the index labels stay distinct. *)
Theorem filter_rows (df : DataFrame) (L : list value) :
  (forall r, In r (dataset.filter df L)
             <-> In r df /\ In (label (snd r)) L) /\
  dataset.filter (dataset.filter df L) L = dataset.filter df L /\
  dataset.filter df (labels df) = df /\
  (forall L', dataset.filter (dataset.filter df L) L'
              = dataset.filter (dataset.filter df L') L) /\
  (NoDup (map fst df) -> NoDup (map fst (dataset.filter df L))).
Proof.
  unfold dataset.filter, select_rows.
  split; [|split; [|split; [|split]]].
  - intro r. rewrite filter_In, py_in_In. reflexivity.
  - induction df as [|r df IH]; [reflexivity|]. cbn [List.filter].
    destruct (py_in (label (snd r)) L) eqn:E; [|exact IH].
    cbn [List.filter]. rewrite E. now f_equal.
  - apply filter_all. intros r Hr. apply py_in_In. unfold labels.
    apply in_map_iff. now exists r.
  - intro L'. induction df as [|r df IH]; [reflexivity|]. cbn [List.filter].
    destruct (py_in (label (snd r)) L) eqn:E,
             (py_in (label (snd r)) L') eqn:E'; cbn [List.filter];
      rewrite ?E, ?E'; now rewrite IH.
  - apply NoDup_map_filter.
Qed.

(** X14. The number of rows [filter] keeps is the sum of the counts of the
    labels of the list, when no label is listed twice. *)
Theorem filter_row_count (df : DataFrame) (L : list value) :
  NoDup L ->
  List.length (dataset.filter df L)
  = list_sum (map (fun l => count l (labels df)) L).
Proof.
  intro N. unfold dataset.filter, select_rows.
  induction df as [|r df IH].
  - cbn. induction L as [|l L IHL]; [reflexivity|].
    cbn. apply IHL. now inversion N.
  - cbn [List.filter labels map].
    rewrite (map_ext (fun l => count l (label (snd r) :: labels df))
                     (fun l => (if value_eqb l (label (snd r)) then 1 else 0)
                               + count l (labels df)))
      by (intro l; apply count_cons).
    rewrite list_sum_map_add, (indicator_sum _ N), <- IH.
    now destruct (py_in (label (snd r)) L).
Qed.

Lemma filter_row_count_witness :
  List.length (dataset.filter Examples.test_frame [VStr "3"; VStr "0"])
  = list_sum (map (fun l => count l (labels Examples.test_frame))
                  [VStr "3"; VStr "0"]).
Proof.
  apply filter_row_count. repeat constructor; cbn; intuition discriminate.
Defined.

(* ================================================================== *)
(** * [dataset.split]: the outcomes *)

(** X15. [split] returns exactly when the fraction is strictly between 0 and
    1, the labels are of one kind, every label has at least 2 rows, and
    both the test part ([ceil(test_size * n)] rows) and the train part (the
    other rows) have at least as many rows as there are labels; this holds
    for every random stream.  Otherwise it raises [ValueError] or
    [TypeError] (labels of two kinds), and nothing else. *)
Theorem split_returns_iff {RS : RandomState} (df : DataFrame) (test_size : Q) :
  ((exists parts, dataset.split df test_size = Ok parts) <->
   (0 < test_size)%Q /\ (test_size < 1)%Q /\
   uniform (labels df) = true /\
   (forall l, In l (labels df) -> 2 <= count l (labels df)) /\
   1 <= List.length (unique (labels df))
     <= List.length df - sklearn.n_test_of test_size (List.length df) /\
   List.length (unique (labels df))
     <= sklearn.n_test_of test_size (List.length df)) /\
  (forall e, dataset.split df test_size = Raise e ->
             e = ValueError \/ e = TypeError).
Proof.
  split; [apply split_guards|].
  unfold dataset.split, sklearn.train_test_split. intros e.
  destruct (sklearn.stratified_positions _ _ _) as [p|e'] eqn:E; cbn [bind];
    [discriminate|].
  intros [= <-]. exact (stratified_positions_raises _ _ _ E).
Qed.

(** 25 rows over 8 labels at a test fraction of 0.28: the float product
    [0.28 * 25] lies above 7, the test part has 8 rows, one for each label
    at least, and the split returns. *)
Example split_returns_at_028 :
  List.length Examples.eight_labels = 25 /\
  n_labels Examples.eight_labels = 8 /\
  sklearn.n_test_of (Float64.of_decimal (28 # 100)) 25 = 8 /\
  exists train test,
    dataset.split (RS := Examples.reversing) Examples.eight_labels
                  (Float64.of_decimal (28 # 100))
    = Ok (train, test) /\
    List.length train = 17 /\ List.length test = 8.
Proof.
  split; [reflexivity|]. split; [vm_compute; reflexivity|].
  split; [vm_compute; reflexivity|].
  vm_compute. eexists _, _. split; [reflexivity|]. split; reflexivity.
Qed.

(** [ceil(0.1 * n)]: below [2^53] rows the float product gives the tenth
    of the rows, rounded up. *)
Lemma n_test_tenth (n : nat) :
  (Z.of_nat n < 2 ^ 53)%Z -> sklearn.n_test_of TEST_SPLIT n = (n + 9) / 10.
Proof.
  intro B. unfold sklearn.n_test_of, TEST_SPLIT, Float64.mul, Float64.of_int.
  rewrite Float64Facts.ceil_tenth by lia.
  apply Nat2Z.inj. rewrite Nat2Z.inj_div, Nat2Z.inj_add, Z2Nat.id.
  - reflexivity.
  - apply Z.div_pos; lia.
Qed.

(** Beyond, the float product can fall short of the tenth: 0.1 times
    106277334551479190 is 10627733455147918 as a float. *)
Example ceil_tenth_large :
  Float64.ceil (Float64.mul TEST_SPLIT (Float64.of_int 106277334551479190))
  = 10627733455147918%Z.
Proof. vm_compute. reflexivity. Qed.

Lemma list_sum_at_least A (f : A -> nat) (k : nat) (l : list A) :
  (forall x, In x l -> k <= f x) -> k * List.length l <= list_sum (map f l).
Proof.
  induction l as [|x l IH]; intro H; [cbn; lia|].
  cbn [map List.length]. change (list_sum (?a :: ?t)) with (a + list_sum t).
  assert (k <= f x) by (apply H; now left).
  assert (k * List.length l <= list_sum (map f l))
    by (apply IH; intros; apply H; now right).
  lia.
Qed.

(** X16. With the test fraction of [prepare.py] (0.1), [split] returns on
    every frame that is not empty, has labels of one kind and at least
    [LOW_VOLUME_MIN_COUNT] (10) rows for each label: this is the floor the
    comment on line 148 asks for.  The frame has fewer than [2^53] rows, so
    that the float [0.1 * n] does not fall short of the tenth. *)
Theorem split_ten_each {RS : RandomState} (df : DataFrame) :
  df <> [] ->
  (Z.of_nat (List.length df) < 2 ^ 53)%Z ->
  uniform (labels df) = true ->
  (forall l, In l (labels df) -> LOW_VOLUME_MIN_COUNT <= count l (labels df)) ->
  exists train test, dataset.split df TEST_SPLIT = Ok (train, test).
Proof.
  intros Hne B U Ten.
  assert (Hn : 10 * List.length (unique (labels df)) <= List.length df).
  { rewrite <- (length_map (fun r => label (snd r)) df). fold (labels df).
    rewrite <- (@sum_counts (unique (labels df)) (labels df)).
    - apply list_sum_at_least. intros x Hx. apply Ten. now apply unique_In.
    - apply unique_NoDup.
    - intros x Hx. now apply unique_In. }
  assert (K : 1 <= List.length (unique (labels df))).
  { apply unique_nonempty. destruct df; [congruence|discriminate]. }
  destruct (proj2 (split_guards df TEST_SPLIT)) as [[train test] E].
  - rewrite n_test_tenth by assumption.
    pose proof (Nat.div_mod_eq (List.length df + 9) 10).
    pose proof (Nat.mod_upper_bound (List.length df + 9) 10 ltac:(lia)).
    repeat split; try (vm_compute; reflexivity); try assumption; try lia.
    intros l Hl. apply Ten in Hl. unfold LOW_VOLUME_MIN_COUNT in Hl. lia.
  - now exists train, test.
Qed.

Lemma split_ten_each_witness :
  exists train test,
    dataset.split (RS := Examples.reversing)
                  (from_records (Examples.block 1 0 10 ++ Examples.block 2 10 12))
                  TEST_SPLIT
    = Ok (train, test).
Proof.
  apply (@split_ten_each Examples.reversing).
  - discriminate.
  - reflexivity.
  - reflexivity.
  - intros l Hl. apply unique_In in Hl. vm_compute in Hl.
    repeat (destruct Hl as [<-|Hl]; [vm_compute; lia|]). destruct Hl.
Defined.

(* ================================================================== *)
(** * [update_label] and labels that are [str]s *)

Lemma Forall2_diag A (R : A -> A -> Prop) (l : list A) :
  (forall x, In x l -> R x x) -> Forall2 R l l.
Proof.
  induction l as [|x l IH]; intro H; constructor.
  - apply H. now left.
  - apply IH. intros y Hy. apply H. now right.
Qed.

Lemma update_label_fixed (df : DataFrame) (L : list value) (w : Z) :
  (forall r, In r df -> exists z, label (snd r) = VInt z) ->
  (forall r, In r df -> ~ In (label (snd r)) L) ->
  dataset.update_label df L w = Ok df.
Proof.
  intros Hint Hout. unfold dataset.update_label.
  apply mapM_Ok_Forall2, Forall2_diag. intros r Hr.
  rewrite (@substitute_label_other L w _ (Hout r Hr)).
  destruct (Hint r Hr) as [z Hz]. rewrite Hz. cbn [int bind].
  destruct r as [i [a b c]]. cbn in *. now subst c.
Qed.

Lemma update_label_ints (df df' : DataFrame) (L : list value) (v : Z) :
  dataset.update_label df L v = Ok df' ->
  forall r, In r df' -> exists z, label (snd r) = VInt z.
Proof.
  intros E r' Hr'.
  destruct (@Forall2_In_right _ _ _ _ _ r' (update_label_rows _ _ _ E) Hr')
    as [r [_ Hr]].
  eapply relabelled_int; eauto.
Qed.

(** X17. [update_label] leaves [int] labels only.  So when the old labels
    are [str]s, no row of the rewritten frame carries one of them any more:
    [filter] by the old labels returns no row, whatever the new label, and
    a second [update_label] by the same labels changes nothing. *)
Theorem update_label_str_labels (df df' : DataFrame) (L : list value)
        (v w : Z) :
  dataset.update_label df L v = Ok df' ->
  (forall l, In l L -> exists s, l = VStr s) ->
  dataset.filter df' L = [] /\ dataset.update_label df' L w = Ok df'.
Proof.
  intros E Hstr.
  assert (Hout : forall r, In r df' -> ~ In (label (snd r)) L).
  { intros r Hr Hin. destruct (@update_label_ints df df' L v E r Hr) as [z Hz].
    destruct (Hstr _ Hin) as [s Hs]. congruence. }
  split.
  - unfold dataset.filter, select_rows. apply filter_none.
    intros r Hr. apply py_in_not_In. now apply Hout.
  - apply update_label_fixed; [exact (@update_label_ints df df' L v E)|exact Hout].
Qed.

Lemma update_label_str_labels_witness :
  dataset.filter Examples.test_frame [VStr "0"; VStr "1"] <> [] /\
  exists df',
    dataset.update_label Examples.test_frame [VStr "0"; VStr "1"] 99 = Ok df' /\
    dataset.filter df' [VStr "0"; VStr "1"] = [] /\
    dataset.update_label df' [VStr "0"; VStr "1"] 5 = Ok df'.
Proof.
  split; [vm_compute; discriminate|].
  destruct (dataset.update_label Examples.test_frame [VStr "0"; VStr "1"] 99)
    as [df'|e] eqn:E; [|vm_compute in E; discriminate].
  exists df'. split; [reflexivity|].
  apply (@update_label_str_labels Examples.test_frame df'
           [VStr "0"; VStr "1"] 99 5 E).
  intros l Hl. cbn in Hl.
  destruct Hl as [<-|[<-|[]]]; eauto.
Defined.

(* ================================================================== *)
(** * [prepare.py]: the filter of line 149 on [str] labels *)

(** X18. The comparison of line 149 raises exactly when some row of the
    merged frame has a [str] label, and what it raises is [TypeError]. *)
Theorem label_ge_10_raises (df : DataFrame) :
  (raises (label_ge_10 df)
   <-> exists r s, In r df /\ label (snd r) = VStr s) /\
  (forall e, label_ge_10 df = Raise e -> e = TypeError).
Proof.
  unfold label_ge_10. split.
  - split.
    + intros [e H].
      destruct (mapM (fun r : row => cell_ge 10 (label (snd r))) df)
        as [mask|e'] eqn:M; [discriminate|].
      assert (Hr : raises (mapM (fun r : row => cell_ge 10 (label (snd r))) df))
        by (rewrite M; now exists e').
      apply (proj1 (mapM_raises _ _)) in Hr. destruct Hr as [r [Hin [e0 He]]].
      destruct (label (snd r)) as [z|s] eqn:El; [discriminate|].
      now exists r, s.
    + intros [r [s [Hin El]]].
      assert (Hr : raises (mapM (fun r : row => cell_ge 10 (label (snd r))) df)).
      { apply (proj2 (mapM_raises _ _)). exists r. split; [assumption|].
        rewrite El. now exists TypeError. }
      destruct Hr as [e ->]. now exists e.
  - intros e.
    induction df as [|r df IH]; [discriminate|]. cbn [mapM].
    destruct (label (snd r)) as [z|s]; cbn [cell_ge bind];
      [|now intros [= <-]].
    destruct (mapM (fun r : row => cell_ge 10 (label (snd r))) df)
      as [mask|e']; cbn [bind]; [discriminate|].
    intros [= <-]. now apply IH.
Qed.

(* ================================================================== *)
(** * [src/utils.py] and [prepare.py]: the windows *)

Lemma get_start_datetime_Ok (w : World) (batch_id : string) (offset t : Z) :
  strptime w (batch_id ++ "0000Z") = Ok t ->
  (Z.abs offset <= 999999999)%Z ->
  (datetime_min <= t - offset * day_us <= datetime_max)%Z ->
  get_start_datetime w batch_id offset = Ok (t - offset * day_us)%Z.
Proof.
  intros H Ho Hr. unfold get_start_datetime. rewrite H. cbn [bind].
  rewrite (proj2 (timedelta_days_Ok _ _) (conj eq_refl Ho)). cbn [bind].
  now apply datetime_sub_Ok.
Qed.

Lemma get_start_datetime_cases (w : World) (batch_id : string)
      (offset t : Z) (r : result Z) :
  strptime w (batch_id ++ "0000Z") = Ok t ->
  get_start_datetime w batch_id offset = r ->
  r = Ok (t - offset * day_us)%Z /\
  (Z.abs offset <= 999999999)%Z /\
  (datetime_min <= t - offset * day_us <= datetime_max)%Z \/
  r = Raise OverflowError /\
  ~ ((Z.abs offset <= 999999999)%Z /\
     (datetime_min <= t - offset * day_us <= datetime_max)%Z).
Proof.
  intros H <-. unfold get_start_datetime. rewrite H. cbn [bind].
  destruct (timedelta_days offset) as [delta|e] eqn:Ed; cbn [bind].
  - apply timedelta_days_Ok in Ed. destruct Ed as [-> Ho].
    destruct (datetime_sub t (offset * day_us)) as [r|e] eqn:Es.
    + apply datetime_sub_Ok in Es. destruct Es as [-> Hr]. left. auto.
    + right. rewrite (datetime_sub_raise _ _ Es). split; [reflexivity|].
      intros [_ Hr].
      rewrite (proj2 (datetime_sub_Ok t (offset * day_us) _)
                     (conj eq_refl Hr)) in Es.
      discriminate.
  - right. rewrite (timedelta_days_raise _ Ed). split; [reflexivity|].
    intros [Ho _].
    rewrite (proj2 (timedelta_days_Ok offset _) (conj eq_refl Ho)) in Ed.
    discriminate.
Qed.

Lemma get_end_datetime_cases (w : World) (batch_id : string) (t : Z) :
  strptime w (batch_id ++ "0000Z") = Ok t ->
  get_end_datetime w batch_id = Ok (end_of_day (t - day_us)) /\
  (datetime_min + day_us <= t <= datetime_max + day_us)%Z \/
  get_end_datetime w batch_id = Raise OverflowError /\
  ~ (datetime_min + day_us <= t <= datetime_max + day_us)%Z.
Proof.
  intros H. unfold get_end_datetime. rewrite H. cbn [bind].
  change (timedelta_days 1) with (Ok day_us). cbn [bind].
  destruct (datetime_sub t day_us) as [r|e] eqn:Es; cbn [bind].
  - apply datetime_sub_Ok in Es. destruct Es as [-> Hr]. left.
    split; [reflexivity|lia].
  - right. rewrite (datetime_sub_raise _ _ Es). split; [reflexivity|].
    intro Hr.
    assert (Hr' : (datetime_min <= t - day_us <= datetime_max)%Z) by lia.
    rewrite (proj2 (datetime_sub_Ok t day_us _) (conj eq_refl Hr')) in Es.
    discriminate.
Qed.

(** The last microsecond of the day of [d]. *)
Lemma end_of_day_spec (d : Z) :
  ((end_of_day d + 1) mod day_us = 0)%Z /\
  (d <= end_of_day d < d + day_us)%Z /\
  ((datetime_min <= d <= datetime_max)%Z ->
   (datetime_min <= end_of_day d <= datetime_max)%Z).
Proof.
  unfold end_of_day.
  pose proof (Z.mod_pos_bound d day_us ltac:(reflexivity)) as B.
  pose proof (Z.div_mod d day_us ltac:(unfold day_us; lia)) as D.
  split; [|split].
  - replace (d - d mod day_us + (day_us - 1) + 1)%Z
      with (day_us * (d / day_us) + 1 * day_us)%Z by lia.
    rewrite Z.mod_add by (unfold day_us; lia).
    rewrite Z.mul_comm. apply Z.mod_mul. unfold day_us; lia.
  - lia.
  - unfold datetime_min, datetime_max, day_us in *. intros [L U]. split; [lia|].
    assert (d / 86400000000 < 2932897)%Z.
    { apply Z.div_lt_upper_bound; lia. }
    lia.
Qed.

(** X19. The bounds of the training window for a batch id that reads as the
    instant [t], a date of the years 1 to 9999.  The start is [offset] days
    before [t], to the microsecond, when the offset is of at most 999999999
    days either way and leads to a date of those years; otherwise
    [get_start_datetime] raises [OverflowError].  The end is the last
    microsecond of the day before the day of [t], whatever the hour of [t],
    so it lies less than a day before [t]; on the first day of year 1, which
    has no day before, [get_end_datetime] raises [OverflowError].  With an
    offset of one day or more the start, when there is one, is not after the
    end. *)
Theorem training_window (w : World) (batch_id : string) (offset t : Z) :
  strptime w (batch_id ++ "0000Z") = Ok t ->
  (datetime_min <= t <= datetime_max)%Z ->
  ((Z.abs offset <= 999999999)%Z /\
   (datetime_min <= t - offset * day_us <= datetime_max)%Z ->
   get_start_datetime w batch_id offset = Ok (t - offset * day_us)%Z) /\
  (~ ((Z.abs offset <= 999999999)%Z /\
      (datetime_min <= t - offset * day_us <= datetime_max)%Z) ->
   get_start_datetime w batch_id offset = Raise OverflowError) /\
  ((datetime_min + day_us <= t)%Z ->
   exists end_,
     get_end_datetime w batch_id = Ok end_ /\
     ((end_ + 1) mod day_us = 0)%Z /\
     (t - day_us <= end_ < t)%Z /\
     (datetime_min <= end_ <= datetime_max)%Z /\
     (1 <= offset -> t - offset * day_us <= end_)%Z) /\
  ((t < datetime_min + day_us)%Z ->
   get_end_datetime w batch_id = Raise OverflowError).
Proof.
  intros H Ht. assert (Dp : (0 < day_us)%Z) by reflexivity.
  split; [|split; [|split]].
  - intros [Ho Hr]. now apply get_start_datetime_Ok.
  - intro Hn.
    destruct (@get_start_datetime_cases w batch_id offset t _ H eq_refl)
      as [(Es & Ho & Hr)|(Es & _)]; [|exact Es].
    exfalso. apply Hn. auto.
  - intro Hd.
    destruct (@get_end_datetime_cases w batch_id t H) as [(Ee & _)|(_ & He)];
      [|exfalso; apply He; lia].
    destruct (end_of_day_spec (t - day_us)) as (M & B & R).
    exists (end_of_day (t - day_us)).
    split; [assumption|]. split; [assumption|]. split; [lia|].
    split; [apply R; lia|].
    intro Ho'.
    assert (day_us <= offset * day_us)%Z by (unfold day_us in *; lia).
    lia.
  - intro Hd.
    destruct (@get_end_datetime_cases w batch_id t H) as [(_ & He)|(Ee & _)];
      [lia|exact Ee].
Qed.

Lemma training_window_witness :
  (strptime (Examples.world []) ("2025011100" ++ "0000Z")
   = Ok Examples.batch_time /\
   (datetime_min <= Examples.batch_time <= datetime_max)%Z) /\
  ((Z.abs 90 <= 999999999)%Z /\
   (datetime_min <= Examples.batch_time - 90 * day_us <= datetime_max)%Z ->
   get_start_datetime (Examples.world []) "2025011100" 90
   = Ok (Examples.batch_time - 90 * day_us)%Z) /\
  (~ ((Z.abs 90 <= 999999999)%Z /\
      (datetime_min <= Examples.batch_time - 90 * day_us <= datetime_max)%Z) ->
   get_start_datetime (Examples.world []) "2025011100" 90
   = Raise OverflowError) /\
  ((datetime_min + day_us <= Examples.batch_time)%Z ->
   exists end_,
     get_end_datetime (Examples.world []) "2025011100" = Ok end_ /\
     ((end_ + 1) mod day_us = 0)%Z /\
     (Examples.batch_time - day_us <= end_ < Examples.batch_time)%Z /\
     (datetime_min <= end_ <= datetime_max)%Z /\
     (1 <= 90 -> Examples.batch_time - 90 * day_us <= end_)%Z) /\
  ((Examples.batch_time < datetime_min + day_us)%Z ->
   get_end_datetime (Examples.world []) "2025011100" = Raise OverflowError).
Proof.
  assert (H1 : strptime (Examples.world []) ("2025011100" ++ "0000Z")
               = Ok Examples.batch_time) by reflexivity.
  assert (H2 : (datetime_min <= Examples.batch_time <= datetime_max)%Z)
    by (vm_compute; split; discriminate).
  split; [split; assumption|].
  exact (@training_window (Examples.world []) "2025011100" 90
           Examples.batch_time H1 H2).
Defined.

(** [test_get_end_datetime] and [test_get_start_datetime] of
    [tests/test_utils.py], for a batch id that reads as 2025-01-11 00:00
    UTC: the end is 2025-01-10 23:59:59.999999 and the start is 90 days
    before the batch. *)
Example window_of_batch :
  get_end_datetime (Examples.world []) "2025011100" = Ok 1736553599999999%Z /\
  get_start_datetime (Examples.world []) "2025011100" 90
  = Ok 1728777600000000%Z.
Proof. split; reflexivity. Qed.

(** A batch of the first day of year 1 (batch id 0001010100) has no day
    before, and no day 90 days before: both bounds raise. *)
Example window_of_first_day :
  get_end_datetime Examples.first_day "0001010100" = Raise OverflowError /\
  get_start_datetime Examples.first_day "0001010100" 90
  = Raise OverflowError /\
  get_start_datetime (Examples.world []) "2025011100" 1000000000
  = Raise OverflowError.
Proof. repeat split. Qed.

(** [int(d.timestamp())] goes through a float: the last microsecond of
    2600-01-10 is 19881763199.999999 seconds after the epoch, which no float
    holds; the nearest one is 19881763200.  In 2025 the floats are dense
    enough to keep the last microsecond below the next second. *)
Example timestamp_rounds :
  timestamp 19881763199999999 = 19881763200%Z /\
  timestamp 19873987200000000 = 19873987200%Z /\
  timestamp 1736553599999999 = 1736553599%Z /\
  timestamp (-1) = 0%Z.
Proof. vm_compute. auto. Qed.

Section MoreRuns.

Context {RS : RandomState}.
Variable w : World.
Variable cfg : Config.
Variable batch_id : string.

Lemma general_parts_differ :
  general_path batch_id "train" <> general_path batch_id "test".
Proof.
  unfold general_path. intro H.
  apply append_inj in H. apply append_inj in H. discriminate H.
Qed.

Lemma low_volume_stage_writes (start : Z) (general_df : DataFrame)
      (low : list value) (ev : event) :
  In ev (fst (low_volume_stage w cfg batch_id start general_df low)) ->
  ev = GetTickets (timestamp (low_vol_start cfg start)) (timestamp start) \/
  exists part body,
    (part = "train" \/ part = "test")%string /\
    ev = PutObject (TARGET_BUCKET cfg) (low_vol_path batch_id part) body.
Proof.
  unfold low_volume_stage. cbv zeta. intro H.
  walk H.
  apply iobind_events in H. destruct H as [[]|[delta [Ed H]]].
  apply iobind_events in H. destruct H as [[]|[r [Es H]]].
  cbn [pure snd] in Ed, Es. rewrite (low_vol_start_Ok cfg _ Ed Es) in H.
  walk H; [left; now symmetry|].
  destruct (empty _); [destruct H|].
  do 7 walk H.
  - right. eexists _, _. split; [left; reflexivity|]. symmetry. exact H.
  - cbn [fst write_to_s3_json access In] in H. destruct H as [H|[]].
    right. eexists _, _. split; [right; reflexivity|]. symmetry. exact H.
Qed.

Lemma datasets_events (start : Z) (df : DataFrame) (ev : event) :
  In ev (fst (datasets w cfg batch_id start df)) ->
  ev = GetTickets (timestamp (low_vol_start cfg start)) (timestamp start) \/
  exists part body,
    (part = "train" \/ part = "test")%string /\
    (ev = PutObject (TARGET_BUCKET cfg) (general_path batch_id part) body \/
     ev = PutObject (TARGET_BUCKET cfg) (low_vol_path batch_id part) body).
Proof.
  destruct (datasets_cases w cfg batch_id start df)
    as [[e ->]
       |[(low & create & df' & train & test & e & tr & _ & _ & _ & -> & Htr)
        |(low & create & df' & train & test & _ & _ & _ & ->)]];
    [intros []| |].
  { cbn [fst]. intro H. right.
    destruct Htr as [-> | ->]; cbn [In] in H;
      [destruct H as [<-|[]]|destruct H as [<-|[<-|[]]]].
    - eexists _, _. split; [left; reflexivity|]. now left.
    - eexists _, _. split; [left; reflexivity|]. now left.
    - eexists _, _. split; [right; reflexivity|]. now left. }
  cbn [fst]. intro H. apply in_app_or in H. destruct H as [H|H].
  - right. destruct H as [<-|[<-|[]]].
    + eexists _, _. split; [left; reflexivity|]. now left.
    + eexists _, _. split; [right; reflexivity|]. now left.
  - destruct (negb create); [destruct H|].
    apply low_volume_stage_writes in H.
    destruct H as [H|(part & body & Hp & H)]; [now left|].
    right. exists part, body. split; [assumption|]. now right.
Qed.

(** The accesses of a run, one by one. *)
Lemma main_events (ev : event) :
  In ev (fst (main w cfg batch_id)) ->
  len batch_id = 10 /\ isdigit batch_id = true /\
  exists t, strptime w (batch_id ++ "0000Z") = Ok t /\
    let start := (t - TRAINING_PERIOD cfg * day_us)%Z in
    let end_ := (t - day_us - (t - day_us) mod day_us + (day_us - 1))%Z in
    (ev = LoadSecret (DB_SECRET_ARN cfg) \/
     (exists n, ev = Connect (DB_ARN cfg) (DB_SECRET_ARN cfg) n) \/
     ev = GetTickets (timestamp start) (timestamp end_) \/
     exists fetched,
       get_tickets w (timestamp start) (timestamp end_) = Ok fetched /\
       fetched <> [] /\
       In ev (fst (datasets w cfg batch_id start (from_records fetched)))).
Proof.
  unfold main, pure, access.
  destruct (len batch_id =? 10) eqn:El; [|intros []].
  destruct (isdigit batch_id) eqn:Ed; [|intros []].
  cbn [negb orb]. apply Nat.eqb_eq in El.
  destruct (strptime w (batch_id ++ "0000Z")) as [t|e] eqn:Ht.
  2:{ unfold get_start_datetime. rewrite Ht. intros []. }
  destruct (@get_start_datetime_cases w batch_id (TRAINING_PERIOD cfg) t _
              Ht eq_refl) as [(Es & _)|(Es & _)];
    rewrite Es; [|intros []].
  destruct (@get_end_datetime_cases w batch_id t Ht) as [(Ee & _)|(Ee & _)];
    rewrite Ee; [|intros []].
  unfold end_of_day.
  cbn [bind iobind app]. intro H.
  split; [assumption|]. split; [reflexivity|].
  exists t. split; [reflexivity|]. cbv zeta.
  destruct (secret_dbname w (DB_SECRET_ARN cfg)) as [n|e].
  2:{ destruct H as [<-|[]]. now left. }
  cbn [iobind app] in H.
  destruct (connect w (DB_ARN cfg) (DB_SECRET_ARN cfg) n) as [[]|e].
  2:{ cbn in H. destruct H as [<-|[<-|[]]]; [now left|right; left; eauto]. }
  cbn [iobind app] in H.
  destruct (get_tickets w _ _) as [fetched|e] eqn:Eg.
  2:{ cbn in H. destruct H as [<-|[<-|[<-|[]]]];
        [now left|right; left; eauto|now right; right; left]. }
  cbn [iobind app] in H.
  destruct fetched as [|x l].
  { cbn in H. destruct H as [<-|[<-|[<-|[]]]];
      [now left|right; left; eauto|now right; right; left]. }
  cbn [from_records enumerate_from empty] in H.
  destruct (datasets w cfg batch_id _ _) as [tr r] eqn:Ed'.
  cbn [fst app In] in H.
  destruct H as [<-|[<-|[<-|H]]];
    [now left|right; left; eauto|now right; right; left|].
  right; right; right. exists (x :: l). split; [reflexivity|].
  split; [discriminate|].
  cbn [from_records enumerate_from]. rewrite Ed'. exact H.
Qed.

(** X20. Whatever happens in a run, an object is written to the configured
    bucket only, under one of four keys: the train and test parts of the
    general and of the low volume dataset of this batch; and the batch id
    in the key has passed the check of [main] (ten characters, all
    digits). *)
Theorem main_writes (bucket key : string) (body : DataFrame) :
  In (PutObject bucket key body) (fst (main w cfg batch_id)) ->
  bucket = TARGET_BUCKET cfg /\
  In key [general_path batch_id "train"; general_path batch_id "test";
          low_vol_path batch_id "train"; low_vol_path batch_id "test"] /\
  len batch_id = 10 /\ isdigit batch_id = true.
Proof.
  intro H. apply main_events in H.
  destruct H as (Hl & Hd & t & _ & H). cbv zeta in H.
  destruct H as [H|[[n H]|[H|(fetched & _ & _ & H)]]]; try discriminate H.
  apply datasets_events in H.
  destruct H as [H|(part & b & Hp & H)]; [discriminate H|].
  destruct H as [H|H]; injection H as -> -> _;
    (split; [reflexivity|]); (split; [|now split]);
    destruct Hp as [->| ->]; cbn [In]; tauto.
Qed.

(** X21. The windows a run asks for.  With [t] the instant the batch id
    reads as, a request for tickets is either for the training window, from
    [TRAINING_PERIOD] days before [t] to the last microsecond of the day
    before [t], or for the extended history, from [LOW_VOLUME_PERIOD] days
    before [t] to the start of the training window: the second window ends
    on the very second the first one starts with. *)
Theorem main_windows (a b : Z) :
  In (GetTickets a b) (fst (main w cfg batch_id)) ->
  exists t, strptime w (batch_id ++ "0000Z") = Ok t /\
    ((a = timestamp (t - TRAINING_PERIOD cfg * day_us) /\
      b = timestamp (t - day_us - (t - day_us) mod day_us + (day_us - 1))) \/
     (a = timestamp (t - LOW_VOLUME_PERIOD cfg * day_us) /\
      b = timestamp (t - TRAINING_PERIOD cfg * day_us)))%Z.
Proof.
  intro H. apply main_events in H.
  destruct H as (_ & _ & t & Ht & H). cbv zeta in H.
  exists t. split; [assumption|].
  destruct H as [H|[[n H]|[H|(fetched & _ & _ & H)]]]; try discriminate H.
  - injection H as -> ->. now left.
  - apply datasets_events in H.
    destruct H as [H|(part & body & _ & [H|H])]; try discriminate H.
    injection H as -> ->. right. split; [|reflexivity].
    unfold low_vol_start. f_equal. ring.
Qed.

End MoreRuns.

Lemma main_writes_witness :
  exists body,
    In (PutObject "bucket" (general_path "2025011100" "test") body)
       (fst (main (RS := Examples.reversing) (Examples.world [])
                  Examples.cfg "2025011100")) /\
    ("bucket"%string = TARGET_BUCKET Examples.cfg /\
     In (general_path "2025011100" "test")
        [general_path "2025011100" "train"; general_path "2025011100" "test";
         low_vol_path "2025011100" "train"; low_vol_path "2025011100" "test"] /\
     len "2025011100" = 10 /\ isdigit "2025011100" = true).
Proof.
  assert (E : exists body,
             In (PutObject "bucket" (general_path "2025011100" "test") body)
                (fst (main (RS := Examples.reversing) (Examples.world [])
                           Examples.cfg "2025011100"))).
  { vm_compute. eexists. do 4 right. left. reflexivity. }
  destruct E as [body H]. exists body. split; [exact H|].
  exact (@main_writes Examples.reversing (Examples.world []) Examples.cfg
           "2025011100" "bucket" _ body H).
Defined.

Lemma main_windows_witness :
  In (GetTickets 1728777600 1736553599)
     (fst (main (RS := Examples.reversing) (Examples.world [])
                Examples.cfg "2025011100")) /\
  exists t, strptime (Examples.world []) ("2025011100" ++ "0000Z") = Ok t /\
    ((1728777600 = timestamp (t - TRAINING_PERIOD Examples.cfg * day_us) /\
      1736553599
      = timestamp (t - day_us - (t - day_us) mod day_us + (day_us - 1))) \/
     (1728777600 = timestamp (t - LOW_VOLUME_PERIOD Examples.cfg * day_us) /\
      1736553599 = timestamp (t - TRAINING_PERIOD Examples.cfg * day_us)))%Z.
Proof.
  assert (H : In (GetTickets 1728777600 1736553599)
                 (fst (main (RS := Examples.reversing) (Examples.world [])
                            Examples.cfg "2025011100"))).
  { vm_compute. do 2 right. left. reflexivity. }
  split; [exact H|].
  exact (@main_windows Examples.reversing (Examples.world []) Examples.cfg
           "2025011100" _ _ H).
Defined.

(* ================================================================== *)
(** * [prepare.py]: the general dataset as a whole *)

Section WrittenParts.

Context {RS : RandomState} {L : RandomStateLaws RS}.
Variable w : World.
Variable cfg : Config.
Variable batch_id : string.

Lemma split_parts (df train test : DataFrame) (test_size : Q) :
  dataset.split df test_size = Ok (train, test) ->
  Permutation (train ++ test) df /\
  List.length test = sklearn.n_test_of test_size (List.length df) /\
  1 <= List.length test /\ 1 <= List.length train.
Proof.
  intro E.
  destruct (proj1 (split_guards df test_size)) as
    (F0 & F1 & U & Two & [K Kn] & Kt); [eauto|].
  assert (Ne : df <> []).
  { intros ->. cbn in K. lia. }
  assert (Ly : List.length (labels df) = List.length df) by apply length_map.
  destruct (@stratified_positions_spec RS L (labels df) test_size 42%Z)
    as [tr [te [Ep [P [Ltr _]]]]]; rewrite ?Ly; auto.
  { destruct df; [congruence|discriminate]. }
  rewrite Ly in *.
  unfold dataset.split, sklearn.train_test_split in E. rewrite Ep in E.
  cbn [bind fst snd] in E. injection E as <- <-.
  assert (Pdf : Permutation (iloc df tr ++ iloc df te) df).
  { rewrite <- iloc_app.
    apply Permutation_trans with (iloc df (seq 0 (List.length df))).
    - now apply iloc_perm.
    - now rewrite iloc_seq. }
  assert (In_tr : forall i, In i tr -> i < List.length df).
  { intros i Hi. assert (H : In i (tr ++ te)) by (apply in_or_app; now left).
    apply (Permutation_in _ P), in_seq in H. lia. }
  assert (Len_tr : List.length (iloc df tr)
                   = List.length df - sklearn.n_test_of test_size (List.length df))
    by (rewrite iloc_length; assumption).
  pose proof (Permutation_length Pdf) as Hl.
  rewrite length_app, Len_tr in Hl.
  split; [assumption|]. lia.
Qed.

(** X22. When a run writes the two parts of the general dataset, they hold
    the rewritten primary frame as a whole: train and test together are its
    rows, each once, so every ticket fetched is written exactly once with
    its index label, id and text; neither part is empty, and the test part
    has [ceil(n / 10)] rows, as long as the frame has fewer than [2^53]
    rows (beyond, the float [0.1 * n] can miss the tenth). *)
Theorem general_dataset_rows (start : Z) (df train test : DataFrame) :
  In (PutObject (TARGET_BUCKET cfg) (general_path batch_id "train") train)
     (fst (datasets w cfg batch_id start df)) ->
  In (PutObject (TARGET_BUCKET cfg) (general_path batch_id "test") test)
     (fst (datasets w cfg batch_id start df)) ->
  exists low create df',
    decide cfg df = Ok (low, create) /\
    dataset.update_label df low (low_volume_label_id_of cfg create) = Ok df' /\
    Permutation (train ++ test) df' /\
    Permutation (map ticket_key (train ++ test)) (map ticket_key df) /\
    ((Z.of_nat (List.length df) < 2 ^ 53)%Z ->
     List.length test = (List.length df + 9) / 10) /\
    train <> [] /\ test <> [].
Proof.
  intros Htrain Htest.
  set (key := fun ev => match ev with
                        | PutObject _ k _ => k
                        | _ => EmptyString
                        end).
  assert (First : forall train0 test0 rest,
             (forall part body,
                 ~ In (PutObject (TARGET_BUCKET cfg)
                                 (general_path batch_id part) body) rest) ->
             In (PutObject (TARGET_BUCKET cfg) (general_path batch_id "train")
                           train)
                (PutObject (TARGET_BUCKET cfg) (general_path batch_id "train")
                           train0
                 :: PutObject (TARGET_BUCKET cfg)
                              (general_path batch_id "test") test0
                 :: rest) ->
             train = train0).
  { intros train0 test0 rest Hrest [H|[H|H]];
      [now injection H| |now apply Hrest in H].
    apply (f_equal key) in H. cbn [key] in H.
    symmetry in H. now apply general_parts_differ in H. }
  assert (Second : forall train0 test0 rest,
             (forall part body,
                 ~ In (PutObject (TARGET_BUCKET cfg)
                                 (general_path batch_id part) body) rest) ->
             In (PutObject (TARGET_BUCKET cfg) (general_path batch_id "test")
                           test)
                (PutObject (TARGET_BUCKET cfg) (general_path batch_id "train")
                           train0
                 :: PutObject (TARGET_BUCKET cfg)
                              (general_path batch_id "test") test0
                 :: rest) ->
             test = test0).
  { intros train0 test0 rest Hrest [H|[H|H]];
      [|now injection H|now apply Hrest in H].
    apply (f_equal key) in H. cbn [key] in H.
    now apply general_parts_differ in H. }
  assert (G : exists low create df',
             decide cfg df = Ok (low, create) /\
             dataset.update_label df low (low_volume_label_id_of cfg create)
             = Ok df' /\
             dataset.split df' TEST_SPLIT = Ok (train, test)).
  { destruct (datasets_cases w cfg batch_id start df)
      as [[e E]
         |[(low & create & df' & train0 & test0 & e & tr
            & Ed & Eu & Es & E & Htr)
          |(low & create & df' & train0 & test0 & Ed & Eu & Es & E)]];
      rewrite E in Htrain, Htest; cbn [fst] in Htrain, Htest.
    - destruct Htrain.
    - destruct Htr as [-> | ->].
      + exfalso. destruct Htest as [H|[]].
        apply (f_equal key) in H. cbn [key] in H.
        now apply general_parts_differ in H.
      + assert (Hnil : forall part body,
                   ~ In (PutObject (TARGET_BUCKET cfg)
                                   (general_path batch_id part) body) [])
          by (intros part body []).
        rewrite (First _ _ _ Hnil Htrain), (Second _ _ _ Hnil Htest).
        now exists low, create, df'.
    - assert (Hrest : forall part body,
                 ~ In (PutObject (TARGET_BUCKET cfg)
                                 (general_path batch_id part) body)
                      (fst (if negb create then ret tt
                            else low_volume_stage w cfg batch_id start df'
                                                  low))).
      { intros part body H. destruct (negb create); [destruct H|].
        apply low_volume_stage_events in H.
        destruct H as [H|(part' & body' & H)]; [discriminate H|].
        apply (f_equal key) in H. cbn [key] in H.
        exact (general_not_low_vol H). }
      cbn [app] in Htrain, Htest.
      rewrite (First _ _ _ Hrest Htrain), (Second _ _ _ Hrest Htest).
      now exists low, create, df'. }
  destruct G as (low & create & df' & Ed & Eu & Es).
  destruct (@split_parts df' train test TEST_SPLIT Es) as (P & Lt & Ht & Hn).
  pose proof (update_label_rows _ _ _ Eu) as F.
  assert (Ek : map ticket_key df' = map ticket_key df).
  { clear - F. induction F as [|r r' t t' Hr Ht IH]; [reflexivity|].
    cbn [map]. rewrite IH. destruct Hr as (H1 & H2 & H3 & _).
    unfold ticket_key. now rewrite H1, H2, H3. }
  exists low, create, df'. repeat split; try assumption.
  - rewrite <- Ek. now apply Permutation_map.
  - intro B. rewrite Lt, <- (Forall2_length F). now apply n_test_tenth.
  - destruct train; [cbn in Hn; lia|discriminate].
  - destruct test; [cbn in Ht; lia|discriminate].
Qed.

End WrittenParts.

Lemma general_dataset_rows_witness :
  exists train test low create df',
    decide Examples.wide Examples.small_primary = Ok (low, create) /\
    dataset.update_label Examples.small_primary low
      (low_volume_label_id_of Examples.wide create) = Ok df' /\
    Permutation (train ++ test) df' /\
    Permutation (map ticket_key (train ++ test))
                (map ticket_key Examples.small_primary) /\
    ((Z.of_nat (List.length Examples.small_primary) < 2 ^ 53)%Z ->
     List.length test = (List.length Examples.small_primary + 9) / 10) /\
    train <> [] /\ test <> [].
Proof.
  assert (E : exists train test,
             In (PutObject (TARGET_BUCKET Examples.wide)
                           (general_path "2025011100" "train") train)
                (fst (datasets (RS := Examples.reversing) (Examples.world [])
                               Examples.wide "2025011100" 0
                               Examples.small_primary)) /\
             In (PutObject (TARGET_BUCKET Examples.wide)
                           (general_path "2025011100" "test") test)
                (fst (datasets (RS := Examples.reversing) (Examples.world [])
                               Examples.wide "2025011100" 0
                               Examples.small_primary))).
  { vm_compute. eexists _, _. split; [left; reflexivity|right; left; reflexivity]. }
  destruct E as (train & test & H1 & H2). exists train, test.
  exact (@general_dataset_rows Examples.reversing reversing_lawful
           (Examples.world []) Examples.wide "2025011100" 0%Z
           Examples.small_primary train test H1 H2).
Defined.

(* ================================================================== *)
(** * [find_threshold]: thresholds out of range *)

(** X23. Thresholds out of range: with a threshold of 0 or less
    [find_threshold] returns no label, and with a threshold above 1 (a
    percentage given where a fraction is meant, say) it returns every label
    of the frame. *)
Theorem find_threshold_extremes (df : DataFrame) (t : Q) :
  ((t <= 0)%Q -> dataset.find_threshold df t = Ok []) /\
  ((1 < t)%Q -> uniform (labels df) = true ->
   exists low, dataset.find_threshold df t = Ok low /\
               forall l, In l low <-> In l (labels df)).
Proof.
  split.
  - intro Ht. unfold dataset.find_threshold.
    rewrite (@filter_none _ (fun p => Qltb (snd p) t)); [reflexivity|].
    intros [l q] H. apply value_counts_normalize_In in H. destruct H as [_ ->].
    apply not_true_is_false. intro H. apply Qltb_lt in H. cbn [snd] in H.
    apply (Qlt_not_le _ _ H). apply Qle_trans with 0%Q; [assumption|].
    apply Float64Facts.div_nonneg; apply Float64Facts.of_int_nonneg; lia.
  - intros Ht U.
    destruct (@find_threshold_returns df t U) as [low [E _]].
    exists low. split; [assumption|]. intro l.
    rewrite (find_threshold_In _ _ E l). split; [tauto|].
    intro H. split; [assumption|].
    apply Qle_lt_trans with 1%Q;
      [now apply float_frequency_bounds|assumption].
Qed.

(* ================================================================== *)
(** * [prepare.py]: the decision never fails on a lookup *)

(** X24. The decision of lines 67 to 78 either returns, on labels of one
    kind, or raises [TypeError], on labels of two kinds: the lookup
    [.iloc[0]] of the count of a low volume label always finds its row, so
    no [IndexError] comes out of the loop. *)
Theorem decide_outcomes (cfg : Config) (df : DataFrame) :
  (uniform (labels df) = true /\
   exists low,
     dataset.find_threshold df (LOW_VOLUME_THRESHOLD cfg) = Ok low /\
     decide cfg df = Ok (low, 2 <=? List.length (large_enough_labels df low))) \/
  (uniform (labels df) = false /\ decide cfg df = Raise TypeError).
Proof.
  destruct (uniform (labels df)) eqn:U.
  - left. split; [reflexivity|]. now apply decide_spec.
  - right. split; [reflexivity|]. unfold decide.
    now rewrite (count_labels_mixed _ U).
Qed.

(* ================================================================== *)
(** * [prepare.py]: the rows of the low volume dataset *)

Lemma label_ge_10_rows (df out : DataFrame) :
  label_ge_10 df = Ok out ->
  forall r, In r out ->
    In r df /\ exists z, label (snd r) = VInt z /\ (10 <= z)%Z.
Proof.
  unfold label_ge_10.
  destruct (mapM (fun r : row => cell_ge 10 (label (snd r))) df)
    as [mask|e] eqn:M; cbn [bind]; [|discriminate].
  intros [= <-]. apply mapM_Ok_Forall2 in M.
  induction M as [|r b t mask' Hr Ht IH]; [intros r []|].
  intros r0 H. cbn [combine List.filter] in H.
  destruct (label (snd r)) as [z|s] eqn:El; cbn in Hr; [|discriminate].
  injection Hr as <-.
  cbn [snd] in H. destruct (10 <=? z)%Z eqn:Ez.
  - cbn [map fst] in H. destruct H as [<-|H].
    + split; [now left|]. exists z. split; [assumption|]. now apply Z.leb_le.
    + destruct (IH r0 H) as [H1 H2]. split; [now right|assumption].
  - destruct (IH r0 H) as [H1 H2]. split; [now right|assumption].
Qed.

Lemma enumerate_from_In A (l : list A) (n : nat) (p : nat * A) :
  In p (enumerate_from n l) -> In (snd p) l.
Proof.
  revert n. induction l as [|x l IH]; intros n H; [destruct H|].
  cbn in H. destruct H as [<-|H]; [now left|]. right. eapply IH; eauto.
Qed.

Section LowVolume.

Context {RS : RandomState}.
Variable w : World.
Variable cfg : Config.
Variable batch_id : string.

(** X25. Every row written to the low volume dataset carries an [int]
    label of value 10 or more, and is a row of the low volume copy of the
    rewritten frame or a ticket of the extended history. *)
Theorem low_volume_dataset_rows (start : Z) (general_df : DataFrame)
        (low : list value) (part : string) (body : DataFrame) :
  In (PutObject (TARGET_BUCKET cfg) (low_vol_path batch_id part) body)
     (fst (low_volume_stage w cfg batch_id start general_df low)) ->
  exists fetched,
    get_tickets w (timestamp (low_vol_start cfg start)) (timestamp start)
    = Ok fetched /\
    forall r, In r body ->
      (exists z, label (snd r) = VInt z /\ (10 <= z)%Z) /\
      (In (snd r) (map snd (dataset.filter general_df low)) \/
       In (snd r) fetched).
Proof.
  unfold low_volume_stage, pure, access, write_to_s3_json, ret.
  cbv zeta.
  destruct (utils.count_labels general_df) as [t0|e]; [|intros []].
  cbn [iobind app].
  destruct (timedelta_days _) as [delta|e] eqn:Ed; [|intros []].
  cbn [iobind app].
  destruct (datetime_sub start delta) as [r0|e] eqn:Es0; [|intros []].
  cbn [iobind app].
  rewrite (low_vol_start_Ok cfg _ Ed Es0).
  destruct (get_tickets w _ _) as [fetched|e]; cbn [iobind app];
    [|intros [H|[]]; discriminate H].
  set (merged := concat_ignore_index _ _).
  assert (Hm : forall r, In r merged ->
               In (snd r) (map snd (dataset.filter general_df low)) \/
               In (snd r) fetched).
  { intros r Hr. unfold merged, concat_ignore_index, from_records in Hr.
    apply enumerate_from_In in Hr. apply in_app_or in Hr.
    destruct Hr as [Hr|Hr]; [now left|right].
    apply in_map_iff in Hr. destruct Hr as [p [<- Hp]].
    now apply enumerate_from_In in Hp. }
  destruct (empty merged); [intros [H|[]]; discriminate H|].
  destruct (utils.count_labels merged) as [t1|e]; cbn [iobind app];
    [|intros [H|[]]; discriminate H].
  destruct (label_ge_10 merged) as [kept|e] eqn:Ek; cbn [iobind app];
    [|intros [H|[]]; discriminate H].
  destruct (utils.count_labels kept) as [t2|e]; cbn [iobind app];
    [|intros [H|[]]; discriminate H].
  destruct (dataset.split kept TEST_SPLIT) as [[train test]|e] eqn:Es;
    cbn [iobind app fst snd]; [|intros [H|[]]; discriminate H].
  destruct (utils.count_labels train) as [t3|e]; cbn [iobind app];
    [|intros [H|[]]; discriminate H].
  destruct (utils.count_labels test) as [t4|e]; cbn [iobind app];
    [|intros [H|[]]; discriminate H].
  destruct (split_rows _ _ Es) as [Itr Ite].
  intro H. exists fetched. split; [reflexivity|].
  assert (Hb : incl body kept).
  { destruct (put_object w _ _ train) as [[]|e]; cbn [iobind app fst] in H.
    - destruct (put_object w _ _ test) as [[]|e]; cbn [fst] in H;
        destruct H as [H|[H|[H|[]]]]; try discriminate H;
        injection H as _ <-; assumption.
    - destruct H as [H|[H|[]]]; [discriminate H|].
      injection H as _ <-; assumption. }
  intros r Hr. apply Hb in Hr.
  destruct (label_ge_10_rows _ Ek r Hr) as [Hin Hz].
  split; [assumption|]. now apply Hm.
Qed.

End LowVolume.

Lemma low_volume_dataset_rows_witness :
  exists body,
    In (PutObject (TARGET_BUCKET Examples.cfg)
                  (low_vol_path "2025011100" "test") body)
       (fst (low_volume_stage (RS := Examples.reversing)
               (Examples.world Examples.history) Examples.cfg "2025011100" 0
               [] [])) /\
    exists fetched,
      get_tickets (Examples.world Examples.history)
        (timestamp (low_vol_start Examples.cfg 0)) (timestamp 0)
      = Ok fetched /\
      forall r, In r body ->
        (exists z, label (snd r) = VInt z /\ (10 <= z)%Z) /\
        (In (snd r) (map snd (dataset.filter [] [])) \/ In (snd r) fetched).
Proof.
  assert (E : exists body,
             In (PutObject (TARGET_BUCKET Examples.cfg)
                           (low_vol_path "2025011100" "test") body)
                (fst (low_volume_stage (RS := Examples.reversing)
                        (Examples.world Examples.history) Examples.cfg
                        "2025011100" 0 [] []))).
  { vm_compute. eexists. do 2 right. left. reflexivity. }
  destruct E as [body H]. exists body. split; [exact H|].
  exact (@low_volume_dataset_rows Examples.reversing
           (Examples.world Examples.history) Examples.cfg "2025011100" 0%Z
           [] [] "test" body H).
Defined.

(* ================================================================== *)
(** * [prepare.py]: a run that returns, and the exit status *)

(** X26. A run of [main] that returns has made its three first accesses
    (the secret, the connection, the training window) and then either found
    the window empty and stopped there, nothing written, or written the two
    parts of the general dataset before anything else. *)
Theorem main_returns {RS : RandomState} (w : World) (cfg : Config)
        (batch_id : string) :
  snd (main w cfg batch_id) = Ok tt ->
  (exists n a b,
      fst (main w cfg batch_id)
      = [LoadSecret (DB_SECRET_ARN cfg);
         Connect (DB_ARN cfg) (DB_SECRET_ARN cfg) n; GetTickets a b] /\
      get_tickets w a b = Ok []) \/
  (exists n a b train test rest,
      fst (main w cfg batch_id)
      = [LoadSecret (DB_SECRET_ARN cfg);
         Connect (DB_ARN cfg) (DB_SECRET_ARN cfg) n; GetTickets a b;
         PutObject (TARGET_BUCKET cfg) (general_path batch_id "train") train;
         PutObject (TARGET_BUCKET cfg) (general_path batch_id "test") test]
        ++ rest).
Proof.
  unfold main, pure, access.
  destruct (negb (len batch_id =? 10) || negb (isdigit batch_id));
    [discriminate|].
  destruct (get_start_datetime w batch_id (TRAINING_PERIOD cfg))
    as [start|e]; [|discriminate].
  destruct (get_end_datetime w batch_id) as [end_|e]; [|discriminate].
  cbn [bind iobind app].
  destruct (secret_dbname w (DB_SECRET_ARN cfg)) as [n|e]; [|discriminate].
  cbn [iobind app].
  destruct (connect w (DB_ARN cfg) (DB_SECRET_ARN cfg) n) as [[]|e];
    [|discriminate].
  cbn [iobind app].
  destruct (get_tickets w _ _) as [fetched|e] eqn:Eg; [|discriminate].
  cbn [iobind app].
  destruct fetched as [|x l].
  - cbn. intros _. left. eexists _, _, _. split; [reflexivity|exact Eg].
  - cbn [from_records enumerate_from empty].
    destruct (datasets_cases w cfg batch_id start
                             ((0, x) :: enumerate_from 1 l))
      as [[e ->]
         |[(low & create & df' & train & test & e & tr & _ & _ & _ & -> & _)
          |(low & create & df' & train & test & _ & _ & _ & ->)]];
      [discriminate|discriminate|].
    intros _. right. cbn [fst snd app].
    eexists _, _, _, _, _, _. reflexivity.
Qed.

Lemma main_returns_witness :
  (exists n a b,
      fst (main (RS := Examples.reversing) (Examples.world []) Examples.cfg
                "2025011100")
      = [LoadSecret (DB_SECRET_ARN Examples.cfg);
         Connect (DB_ARN Examples.cfg) (DB_SECRET_ARN Examples.cfg) n;
         GetTickets a b] /\
      get_tickets (Examples.world []) a b = Ok []) \/
  (exists n a b train test rest,
      fst (main (RS := Examples.reversing) (Examples.world []) Examples.cfg
                "2025011100")
      = [LoadSecret (DB_SECRET_ARN Examples.cfg);
         Connect (DB_ARN Examples.cfg) (DB_SECRET_ARN Examples.cfg) n;
         GetTickets a b;
         PutObject (TARGET_BUCKET Examples.cfg)
                   (general_path "2025011100" "train") train;
         PutObject (TARGET_BUCKET Examples.cfg)
                   (general_path "2025011100" "test") test]
        ++ rest).
Proof.
  apply (@main_returns Examples.reversing (Examples.world []) Examples.cfg
           "2025011100").
  vm_compute. reflexivity.
Defined.

(** X27. The script: the exit status is 0 or 1, and it is 0 exactly when
    there is one argument and [main] returns on it.  With any other number
    of arguments [main] is not called and nothing outside is touched; the
    usage line is printed then (when there is a program name to print), and
    only then. *)
Theorem script_status {RS : RandomState} (w : World) (cfg : Config)
        (argv : list string) :
  (script.status (script.run w cfg argv) = 0%Z \/
   script.status (script.run w cfg argv) = 1%Z) /\
  (script.status (script.run w cfg argv) = 0%Z <->
   exists prog batch_id,
     argv = [prog; batch_id] /\ snd (main w cfg batch_id) = Ok tt) /\
  (script.accesses (script.run w cfg argv)
   = match argv with
     | [_; batch_id] => fst (main w cfg batch_id)
     | _ => []
     end) /\
  (script.printed (script.run w cfg argv) <> None <->
   List.length argv <> 2 /\ argv <> []).
Proof.
  unfold script.run.
  destruct argv as [|prog [|b [|x rest]]]; cbn [List.length Nat.eqb negb nth].
  - cbn. split; [now right|]. split; [|split; [reflexivity|]].
    + split; [discriminate|]. intros (p & b & H & _). discriminate.
    + split; [intro H; now contradiction H|]. intros [_ H]. now contradiction H.
  - cbn. split; [now right|]. split; [|split; [reflexivity|]].
    + split; [discriminate|]. intros (p & b & H & _). discriminate.
    + split; [intros _; split; [lia|discriminate]|discriminate].
  - destruct (main w cfg b) as [tr [[]|e]] eqn:E; cbn.
    + split; [now left|]. split; [|split; [reflexivity|]].
      * split; [|reflexivity]. intros _. exists prog, b. now rewrite E.
      * split; [intro H; now contradiction H|]. intros [H _]. lia.
    + split; [now right|]. split; [|split; [reflexivity|]].
      * split; [discriminate|]. intros (p & b' & H & H').
        injection H as <- <-. rewrite E in H'. discriminate.
      * split; [intro H; now contradiction H|]. intros [H _]. lia.
  - cbn. split; [now right|]. split; [|split; [reflexivity|]].
    + split; [discriminate|]. intros (p & b' & H & _). discriminate.
    + split; [intros _; split; [lia|discriminate]|discriminate].
Qed.

(** The usage line, and a run on a batch id with a letter. *)
Example script_examples :
  script.run (RS := Examples.reversing) (Examples.world []) Examples.cfg
             ["/opt/app/prepare.py"%string]
  = {| script.accesses := [];
       script.printed := Some "Usage: prepare.py <batch_id>"%string;
       script.status := 1 |} /\
  script.run (RS := Examples.reversing) (Examples.world []) Examples.cfg
             ["prepare.py"; "2025x11100"]%string
  = {| script.accesses := []; script.printed := None; script.status := 1 |}.
Proof. split; reflexivity. Qed.
